(** * mini-coding-agent: ingestion, indexing and retrieval

    A shallow embedding of [ingest.py], [embed.py], [retrieve.py] and the
    helpers of [tools.py] they call, with the properties of the chunker, the
    vector store and the retriever stated and proved over it.

    Conventions of the embedding.
    - A Python [str] is a [string]: a sequence of 8-bit characters read as the
      code points U+0000..U+00FF.  [len] is [String.length].
    - A Python [int] is a [Z]; list lengths and string lengths are injected
      with [Z.of_nat].
    - A Python list that is only appended to is a [list] grown with [++ [x]].
    - Library calls whose code is not part of the repository (the embedding
      model, numpy, FAISS, [hash], [pathlib]) are parameters of the sections
      that use them. *)

From Stdlib Require Import ZArith Lia Ascii String List Bool Permutation Sorted.
From Stdlib Require Import DecimalString.
From stdpp Require Import gmap strings list fin_maps sorting.

Import ListNotations.
Local Open Scope string_scope.
Local Open Scope list_scope.
Local Open Scope Z_scope.

(** ** Python strings *)

Module PyStr.

Definition len (s : string) : Z := Z.of_nat (String.length s).

Definition newline : ascii := "010"%char.

(** [str.isspace] on one character, which is also what [\s] matches in a
    [str] pattern: TAB..CR, FS..US, SPACE, NEL and NBSP. *)
Definition is_space (c : ascii) : bool :=
  let n := N_of_ascii c in
  ((9 <=? n) && (n <=? 13) || (28 <=? n) && (n <=? 32)
   || (n =? 133) || (n =? 160))%N.

(** What [\w] matches in a [str] pattern: alphanumeric characters and the
    underscore. *)
Definition is_word (c : ascii) : bool :=
  let n := N_of_ascii c in
  ((48 <=? n) && (n <=? 57) || (65 <=? n) && (n <=? 90) || (n =? 95)
   || (97 <=? n) && (n <=? 122)
   || (n =? 170) || (n =? 178) || (n =? 179) || (n =? 181) || (n =? 185)
   || (n =? 186) || (188 <=? n) && (n <=? 190)
   || (192 <=? n) && (n <=? 214) || (216 <=? n) && (n <=? 246)
   || (248 <=? n) && (n <=? 255))%N.

(** [s.lstrip()] *)
Fixpoint lstrip (s : string) : string :=
  match s with
  | EmptyString => EmptyString
  | String c s' => if is_space c then lstrip s' else s
  end.

(** [s.rstrip()] *)
Fixpoint rstrip (s : string) : string :=
  match s with
  | EmptyString => EmptyString
  | String c s' =>
      match rstrip s' with
      | EmptyString => if is_space c then EmptyString else String c EmptyString
      | r => String c r
      end
  end.

(** [s.strip()] *)
Definition strip (s : string) : string := lstrip (rstrip s).

(** The longest run of characters satisfying [p] at the head of [s], and what
    follows it. *)
Fixpoint span (p : ascii -> bool) (s : string) : string * string :=
  match s with
  | EmptyString => (EmptyString, EmptyString)
  | String c s' =>
      if p c then let '(a, b) := span p s' in (String c a, b)
      else (EmptyString, s)
  end.

(** [Some rest] when [s] is [pre ++ rest]. *)
Fixpoint strip_prefix (pre s : string) : option string :=
  match pre, s with
  | EmptyString, _ => Some s
  | String a pre', String b s' =>
      if Ascii.eqb a b then strip_prefix pre' s' else None
  | String _ _, EmptyString => None
  end.

(** [s.split(sep)] for the separator LF: never the empty list. *)
Fixpoint split_lines (s : string) : list string :=
  match s with
  | EmptyString => [EmptyString]
  | String c s' =>
      if Ascii.eqb c newline then EmptyString :: split_lines s'
      else match split_lines s' with
           | [] => [String c EmptyString]
           | h :: t => String c h :: t
           end
  end.

(** [sep.join(ls)] for the separator LF. *)
Fixpoint join_lines (ls : list string) : string :=
  match ls with
  | [] => EmptyString
  | [l] => l
  | l :: ls' => l +:+ String newline (join_lines ls')
  end.

(** [s[:n]] for a non-negative [n]. *)
Fixpoint prefix (n : nat) (s : string) : string :=
  match n, s with
  | O, _ => EmptyString
  | _, EmptyString => EmptyString
  | S n', String c s' => String c (prefix n' s')
  end.

Fixpoint has_newline (s : string) : bool :=
  match s with
  | EmptyString => false
  | String c s' => Ascii.eqb c newline || has_newline s'
  end.

End PyStr.

(** ** Python lists *)

Module PyList.

Definition len {A} (l : list A) : Z := Z.of_nat (length l).

(** [bool(l)] *)
Definition truthy {A} (l : list A) : bool :=
  match l with [] => false | _ => true end.

(** [l[n:]], with Python's reading of a negative [n]. *)
Definition slice_from {A} (n : Z) (l : list A) : list A :=
  if n <? 0 then drop (Z.to_nat (len l + n)) l else drop (Z.to_nat n) l.

(** [l[n:]] for [n = -k]: when [k] is zero the whole list ([-0] is [0]). *)
Definition slice_last {A} (k : Z) (l : list A) : list A := slice_from (- k) l.

End PyList.

(** ** ingest.py *)

Module Ingest.

(** [config.CHUNK_SIZE], [config.CHUNK_OVERLAP] *)
Definition CHUNK_SIZE : Z := 1500.
Definition CHUNK_OVERLAP : Z := 200.

Record CodeChunk := mkChunk {
  file_path : string;
  content : string;
  start_line : Z;
  end_line : Z;
  chunk_type : string
}.

(** [func_pattern.match(line)]: leading whitespace (group 1), then optionally
    [async] and at least one whitespace character, then [def], at least one
    whitespace character and at least one word character.  The result is the
    length of group 1 when the line matches.  Group 1 is the whole leading
    whitespace run, since what follows it must start with a letter; for the
    same reason the greedy repetitions never give a character back. *)
Definition def_tail (s : string) : bool :=
  match PyStr.strip_prefix "def" s with
  | None => false
  | Some r =>
      match PyStr.span PyStr.is_space r with
      | (EmptyString, _) => false
      | (_, String c _) => PyStr.is_word c
      | (_, EmptyString) => false
      end
  end.

Definition func_pattern (line : string) : option Z :=
  let '(ws, r) := PyStr.span PyStr.is_space line in
  let r' :=
    match PyStr.strip_prefix "async" r with
    | Some r1 =>
        match PyStr.span PyStr.is_space r1 with
        | (EmptyString, _) => r
        | (_, r2) => r2
        end
    | None => r
    end in
  if def_tail r' then Some (PyStr.len ws) else None.

(** [class_pattern.match(line)]: leading whitespace (group 1), then [class],
    at least one whitespace character and at least one word character. *)
Definition class_pattern (line : string) : option Z :=
  let '(ws, r) := PyStr.span PyStr.is_space line in
  match PyStr.strip_prefix "class" r with
  | None => None
  | Some r1 =>
      match PyStr.span PyStr.is_space r1 with
      | (EmptyString, _) => None
      | (_, String c _) => if PyStr.is_word c then Some (PyStr.len ws) else None
      | (_, EmptyString) => None
      end
  end.

Definition is_def (line : string) : bool :=
  match func_pattern line, class_pattern line with
  | None, None => false
  | _, _ => true
  end.

(** [len(next_line) - len(next_line.lstrip())] *)
Definition indent_of (line : string) : Z :=
  PyStr.len line - PyStr.len (PyStr.lstrip line).

(** [next_line.strip()] is the empty string. *)
Definition is_blank (line : string) : bool :=
  match PyStr.strip line with EmptyString => true | _ => false end.

(** The test under which the body loop of [extract_python_chunks] executes
    [break] on a line that is not blank (lines 117-123). *)
Definition body_stops (base_indent : Z) (next_line : string) : bool :=
  let current_indent := indent_of next_line in
  if negb (is_blank next_line) && (current_indent <=? base_indent) then
    if is_def next_line then true
    else current_indent <? base_indent
  else false.

(** The loop state of [extract_python_chunks] when the outer [while] exits:
    [chunks], [current_chunk], [current_start], [current_type]. *)
Definition loop_result : Type :=
  list CodeChunk * list string * Z * string.

(** The outer [while i < len(lines)] of [extract_python_chunks] (lines
    83-132), on the lines from index [i] on; the inner [while] (lines
    109-126) is the local [body]. *)
Fixpoint main_loop (fp : string) (rest : list string) (i : Z)
    (chunks : list CodeChunk) (current_chunk : list string)
    (current_start : Z) (current_type : string) : loop_result :=
  match rest with
  | [] => (chunks, current_chunk, current_start, current_type)
  | line :: rest' =>
      let func_match := func_pattern line in
      let class_match := class_pattern line in
      if is_def line then
        let chunks' :=
          if PyList.truthy current_chunk then
            chunks ++ [mkChunk fp (PyStr.join_lines current_chunk)
                         current_start i current_type]
          else chunks in
        let current_start' := i + 1 in
        let current_type' :=
          match func_match with Some _ => "function" | None => "class" end in
        let base_indent :=
          match func_match, class_match with
          | Some n, _ => n
          | None, Some n => n
          | None, None => 0
          end in
        (fix body (l : list string) (i : Z) (current_chunk : list string)
           {struct l} : loop_result :=
           match l with
           | [] => (chunks', current_chunk, current_start', current_type')
           | next_line :: l' =>
               if is_blank next_line then
                 body l' (i + 1) (current_chunk ++ [next_line])
               else if body_stops base_indent next_line then
                 main_loop fp l i chunks' current_chunk
                   current_start' current_type'
               else body l' (i + 1) (current_chunk ++ [next_line])
           end) rest' (i + 1) [line]
      else
        main_loop fp rest' (i + 1) chunks (current_chunk ++ [line])
          current_start current_type
  end.

Definition extract_python_chunks (content file_path : string)
    : list CodeChunk :=
  let lines := PyStr.split_lines content in
  let '(chunks, current_chunk, current_start, current_type) :=
    main_loop file_path lines 0 [] [] 1 "block" in
  if PyList.truthy current_chunk then
    chunks ++ [mkChunk file_path (PyStr.join_lines current_chunk)
                 current_start (PyList.len lines) current_type]
  else chunks.

(** The body loop alone (lines 109-126): the lines it appends to the chunk of
    the definition, and the lines from the one it breaks on. *)
Fixpoint collect_body (base_indent : Z) (l : list string)
    : list string * list string :=
  match l with
  | [] => ([], [])
  | next_line :: l' =>
      if is_blank next_line then
        let '(taken, remaining) := collect_body base_indent l' in
        (next_line :: taken, remaining)
      else if body_stops base_indent next_line then ([], l)
      else
        let '(taken, remaining) := collect_body base_indent l' in
        (next_line :: taken, remaining)
  end.

(** [base_indent] as line 104 computes it at a definition line. *)
Definition def_indent (line : string) : Z :=
  match func_pattern line, class_pattern line with
  | Some n, _ => n
  | None, Some n => n
  | None, None => 0
  end.

(** [current_type] as line 103 computes it at a definition line. *)
Definition def_type (line : string) : string :=
  match func_pattern line with Some _ => "function" | None => "class" end.

(** The overlap window of [chunk_by_size] (lines 173-179), over
    [reversed(current_chunk)]. *)
Fixpoint overlap_loop (overlap : Z) (rev_chunk overlap_lines : list string)
    (overlap_chars : Z) : list string * Z :=
  match rev_chunk with
  | [] => (overlap_lines, overlap_chars)
  | ln :: r =>
      if overlap_chars + PyStr.len ln >? overlap then
        (overlap_lines, overlap_chars)
      else
        overlap_loop overlap r (ln :: overlap_lines)
          (overlap_chars + PyStr.len ln + 1)
  end.

(** The [for i, line in enumerate(lines, 1)] of [chunk_by_size] (lines
    159-183) for a target size and an overlap budget. *)
Fixpoint size_loop (size overlap : Z) (fp : string) (rest : list string)
    (i : Z) (chunks : list CodeChunk) (current_chunk : list string)
    (current_chars current_start : Z)
    : list CodeChunk * list string * Z :=
  match rest with
  | [] => (chunks, current_chunk, current_start)
  | line :: rest' =>
      let current_chunk := current_chunk ++ [line] in
      let current_chars := current_chars + PyStr.len line + 1 in
      if current_chars >=? size then
        let chunks :=
          chunks ++ [mkChunk fp (PyStr.join_lines current_chunk)
                       current_start i "block"] in
        let '(overlap_lines, overlap_chars) :=
          overlap_loop overlap (rev current_chunk) [] 0 in
        size_loop size overlap fp rest' (i + 1) chunks overlap_lines
          overlap_chars (i - PyList.len overlap_lines + 1)
      else
        size_loop size overlap fp rest' (i + 1) chunks current_chunk
          current_chars current_start
  end.

(** [chunk_by_size] with the two configuration constants as arguments. *)
Definition chunk_by_size_with (size overlap : Z) (content file_path : string)
    : list CodeChunk :=
  let lines := PyStr.split_lines content in
  let '(chunks, current_chunk, current_start) :=
    size_loop size overlap file_path lines 1 [] [] 0 1 in
  if PyList.truthy current_chunk then
    chunks ++ [mkChunk file_path (PyStr.join_lines current_chunk)
                 current_start (PyList.len lines) "block"]
  else chunks.

Definition chunk_by_size : string -> string -> list CodeChunk :=
  chunk_by_size_with CHUNK_SIZE CHUNK_OVERLAP.

Section ChunkCode.

(** [Path(file_path).suffix.lower()] *)
Variable suffix_lower : string -> string.

Definition chunk_code (content file_path : string) : list CodeChunk :=
  let ext := suffix_lower file_path in
  if String.eqb ext ".py" then
    let chunks := extract_python_chunks content file_path in
    match chunks with
    | [c] =>
        if PyStr.len (Ingest.content c) >? CHUNK_SIZE * 2 then
          chunk_by_size content file_path
        else chunks
    | _ => chunks
    end
  else chunk_by_size content file_path.

End ChunkCode.

End Ingest.

(** ** Exceptions and state

    A method of a Python object is a function from the object's state to an
    outcome and the state it leaves: what was assigned before a [raise]
    stays assigned. *)

Inductive exn :=
  | ValueError
  | ImportError
  | IndexError
  | KeyError (key : string)
  | CorruptFile.

Definition M (S A : Type) : Type := S -> (exn + A) * S.

Definition ret {S A} (a : A) : M S A := fun s => (inr a, s).

Definition raise {S A} (e : exn) : M S A := fun s => (inl e, s).

Definition bind {S A B} (m : M S A) (k : A -> M S B) : M S B :=
  fun s =>
    match m s with
    | (inl e, s') => (inl e, s')
    | (inr a, s') => k a s'
    end.

Definition get {S} : M S S := fun s => (inr s, s).

Definition modify {S} (f : S -> S) : M S unit := fun s => (inr tt, f s).

(** Run a computation that cannot touch the state, such as a list
    comprehension that may raise. *)
Definition lift {S A} (r : exn + A) : M S A := fun s => (r, s).

Declare Scope py_scope.
Delimit Scope py_scope with py.
Notation "x <- c ;; k" := (bind c (fun x => k))
  (at level 100, c at next level, right associativity) : py_scope.
Notation "c ;;; k" := (bind c (fun _ => k))
  (at level 100, right associativity) : py_scope.

(** [l[idx]] on a Python list or a one-dimensional array: negative indices
    count from the end, anything out of range raises [IndexError]. *)
Definition py_index {A} (l : list A) (idx : Z) : exn + A :=
  let n := PyList.len l in
  let pos := if idx <? 0 then n + idx else idx in
  if (0 <=? pos) && (pos <? n) then
    match l !! Z.to_nat pos with
    | Some a => inr a
    | None => inl IndexError
    end
  else inl IndexError.

(** A list comprehension whose element expression may raise. *)
Fixpoint comprehension {A B} (f : A -> exn + B) (l : list A)
    : exn + list B :=
  match l with
  | [] => inr []
  | a :: l' =>
      match f a with
      | inl e => inl e
      | inr b =>
          match comprehension f l' with
          | inl e => inl e
          | inr bs => inr (b :: bs)
          end
      end
  end.

(** ** tools.py *)

Module Tools.

(** [config.SUPPORTED_EXTENSIONS], [config.MAX_FILE_SIZE] *)
Definition SUPPORTED_EXTENSIONS : list string :=
  [".py"; ".ts"; ".js"; ".jsx"; ".tsx"; ".java"; ".go"; ".rs"; ".cpp"; ".c";
   ".h"].
Definition MAX_FILE_SIZE : Z := 100 * 1024.

(** A path is the sequence of its components ([Path.parts]). *)
Definition Path : Type := list string.

(** [p / name] for a [name] that is one component: an entry that [os.walk]
    lists, or one of the file names of the store. *)
Definition path_join (p : Path) (name : string) : Path := p ++ [name].

(** [s.split("/")] *)
Fixpoint split_slash (s : string) : list string :=
  match s with
  | EmptyString => [EmptyString]
  | String c s' =>
      if Ascii.eqb c "/" then EmptyString :: split_slash s'
      else match split_slash s' with
           | [] => [String c EmptyString]
           | h :: t => String c h :: t
           end
  end.

(** The components pathlib reads in a path written as [s]: the empty ones
    and the ones that are a single dot are dropped, [..] is kept. *)
Definition components (s : string) : list string :=
  List.filter (fun c => negb (String.eqb c "") && negb (String.eqb c "."))
    (split_slash s).

(** The root of a path written as [s] when it is absolute: [//] for exactly
    two leading slashes, [/] for one and for three or more. *)
Definition root_of (s : string) : option string :=
  match s with
  | String "/" (String "/" (String "/" _)) => Some "/"
  | String "/" (String "/" _) => Some "//"
  | String "/" _ => Some "/"
  | _ => None
  end.

(** [p / s] for any string [s], as [PurePosixPath] joins: the components of
    [s] are added to [p], and an absolute [s] replaces [p]. *)
Definition path_div (p : Path) (s : string) : Path :=
  match root_of s with
  | Some r => r :: components s
  | None => p ++ components s
  end.

(** [str(path)] on a POSIX system. *)
Fixpoint join_parts (parts : list string) : string :=
  match parts with
  | [] => EmptyString
  | [x] => x
  | x :: rest => x +:+ "/" +:+ join_parts rest
  end.

Definition path_str (p : Path) : string :=
  match p with
  | [] => "."
  | "/" :: rest => "/" +:+ join_parts rest
  | _ => join_parts p
  end.

(** What one [open(path, "r", encoding=...)] followed by [f.read()] does. *)
Inductive read_outcome :=
  | ReadOk (text : string)
  | UnicodeDecodeError
  | OSErrorOnRead.

(** A regular file as the scanner sees it: its name, the size [stat()]
    reports ([None] when [stat()] raises [OSError]) and the outcome of
    reading it under each encoding. *)
Record file_entry := mkFile {
  name : string;
  st_size : option Z;
  read_with : string -> read_outcome
}.

Section Suffix.

(** [Path(p).suffix.lower()], on [str(p)]. *)
Variable suffix_lower : string -> string.

Definition is_supported_file (path : Path) : bool :=
  existsb (String.eqb (suffix_lower (path_str path))) SUPPORTED_EXTENSIONS.

End Suffix.

Definition is_file_too_large (f : file_entry) : bool :=
  match st_size f with
  | Some size => size >? MAX_FILE_SIZE
  | None => true
  end.

(** The [for encoding in encodings] of [read_file_content]. *)
Fixpoint read_loop (f : file_entry) (encodings : list string)
    : option string :=
  match encodings with
  | [] => None
  | encoding :: rest =>
      match read_with f encoding with
      | ReadOk text => Some text
      | UnicodeDecodeError => read_loop f rest
      | OSErrorOnRead => None
      end
  end.

Definition read_file_content (f : file_entry) : option string :=
  read_loop f ["utf-8"; "utf-8-sig"; "latin-1"; "cp1252"].

(** [file_path.relative_to(base_path)]: [None] for [ValueError]. *)
Fixpoint relative_to (file_path base_path : Path) : option Path :=
  match base_path, file_path with
  | [] , _ => Some file_path
  | b :: base', x :: file' =>
      if String.eqb b x then relative_to file' base' else None
  | _ :: _, [] => None
  end.

Definition get_relative_path (file_path base_path : Path) : string :=
  match relative_to file_path base_path with
  | Some rel => path_str rel
  | None => path_str file_path
  end.

Definition estimate_tokens (text : string) : Z := PyStr.len text / 4.

End Tools.

(** ** ingest.py: scanning *)

Module Scan.

Import Ingest Tools.

(** A directory: its name, its sub-directories and its regular files, in the
    order [os.walk] lists them. *)
#[warnings="-register-all"] Inductive dir_tree :=
  | Dir (dirname : string) (dirs : list dir_tree)
      (filenames : list file_entry).

Definition name_of (t : dir_tree) : string :=
  match t with Dir d _ _ => d end.

(** The directory names [load_files] prunes (line 47). *)
Definition ignored_dirs : list string :=
  ["node_modules"; ".git"; "venv"; ".venv"; "__pycache__"; ".pytest_cache";
   "dist"; "build"; ".next"; "target"; ".idea"; ".vscode"].

Definition ignored (d : string) : bool := existsb (String.eqb d) ignored_dirs.

Definition triple : Type := Path * string * string.

Section Scan.

Variable suffix_lower : string -> string.

(** One turn of [for name in filenames] (lines 49-62): what it yields. *)
Definition load_file (repo root : Path) (f : file_entry) : list triple :=
  let file_path := path_join root (name f) in
  if negb (is_supported_file suffix_lower file_path) then []
  else if is_file_too_large f then []
  else
    match read_file_content f with
    | Some (String c s) =>
        let content := String c s in
        [(file_path, get_relative_path file_path repo, content)]
    | Some EmptyString => []
    | None => []
    end.

(** [for root, dirs, filenames in os.walk(repo)] (lines 45-62) on the
    directory [t] found at [root]: the files of [root] first, then the
    sub-directories that were not pruned, top-down. *)
Fixpoint walk (repo root : Path) (t : dir_tree) : list triple :=
  match t with
  | Dir _ dirs filenames =>
      flat_map (load_file repo root) filenames ++
      (fix descend (ds : list dir_tree) : list triple :=
         match ds with
         | [] => []
         | sub :: ds' =>
             if ignored (name_of sub) then descend ds'
             else walk repo (path_join root (name_of sub)) sub ++ descend ds'
         end) dirs
  end.

(** [load_files]: [fs] is the directory at [repo], [None] when the path does
    not exist. *)
Definition load_files (repo : Path) (fs : option dir_tree)
    : exn + list triple :=
  match fs with
  | None => inl ValueError
  | Some t => inr (walk repo repo t)
  end.

(** [ingest_repository]: [all_chunks.extend(chunk_code(content,
    relative_path))] for every triple. *)
Definition ingest_repository (repo : Path) (fs : option dir_tree)
    : exn + list CodeChunk :=
  match load_files repo fs with
  | inl e => inl e
  | inr triples =>
      inr (flat_map
             (fun '(_, relative_path, content) =>
                chunk_code suffix_lower content relative_path) triples)
  end.

End Scan.

End Scan.

(** ** embed.py *)

Module Embed.

Import Ingest Tools.

(** One chunk record of [chunks.json]: a JSON object whose values are
    strings and integers. *)
Inductive jval :=
  | JStr (s : string)
  | JInt (z : Z).

Section VectorStore.

(** Rows of an embedding matrix, similarity scores, the embedding model and
    the FAISS index: the types of the libraries the store is built on. *)
Variable vec : Type.
Variable score : Type.
Variable model : Type.
Variable faiss_index : Type.

(** A numpy array of embeddings: its rows, and [shape[1]], which raises
    [IndexError] ([None]) on an array with a single axis. *)
Record ndarray := mkArray {
  rows : list vec;
  shape1 : option Z
}.

(** The operations of those libraries, where their calls return.
    - sentence-transformers: the model [SentenceTransformer(EMBEDDING_MODEL)],
      or [None] when the [try] of [_load_model] ends in [ImportError], and
      [model.encode] on a list of texts and on a single query;
    - numpy: the product of one row with the query, and [np.argsort];
    - FAISS: whether [import faiss] succeeds, [IndexFlatIP(dimension)],
      [index.add], and [index.search], which gives (index, score) pairs
      (for a number of neighbours of at least one).
    An exception of another kind inside one of these calls is outside this
    description. *)
Record backend := mkBackend {
  import_sentence_transformer : option model;
  encode : model -> list string -> ndarray;
  encode_query : model -> string -> vec;
  dot : vec -> vec -> score;
  argsort : list score -> list Z;
  faiss_available : bool;
  IndexFlatIP : Z -> faiss_index;
  index_add : faiss_index -> ndarray -> faiss_index;
  index_search : faiss_index -> vec -> Z -> list (Z * score)
}.

Variable B : backend.

Record VectorStore := mkStore {
  store_dir : Path;
  model_ : option model;
  index : option faiss_index;
  chunks : list CodeChunk;
  embeddings : option ndarray
}.

(** [VectorStore(store_dir)] *)
Definition init (dir : Path) : VectorStore :=
  mkStore dir None None [] None.

Definition set_model (m : model) (s : VectorStore) : VectorStore :=
  mkStore (store_dir s) (Some m) (index s) (chunks s) (embeddings s).
Definition set_index (ix : option faiss_index) (s : VectorStore)
    : VectorStore :=
  mkStore (store_dir s) (model_ s) ix (chunks s) (embeddings s).
Definition set_chunks (cs : list CodeChunk) (s : VectorStore) : VectorStore :=
  mkStore (store_dir s) (model_ s) (index s) cs (embeddings s).
Definition set_embeddings (e : ndarray) (s : VectorStore) : VectorStore :=
  mkStore (store_dir s) (model_ s) (index s) (chunks s) (Some e).

Local Open Scope py_scope.

Definition _load_model : M VectorStore model :=
  s <- get ;;
  match model_ s with
  | Some m => ret m
  | None =>
      match import_sentence_transformer B with
      | Some m => modify (set_model m) ;;; ret m
      | None => raise ImportError
      end
  end.

Definition _init_faiss_index (dimension : Z) : M VectorStore unit :=
  if faiss_available B then modify (set_index (Some (IndexFlatIP B dimension)))
  else modify (set_index None).

(** The text embedded for a chunk (line 74). *)
Definition embed_text (c : CodeChunk) : string :=
  "File: " +:+ file_path c +:+ String PyStr.newline (content c).

Definition embed_chunks (cs : list CodeChunk) : M VectorStore ndarray :=
  m <- _load_model ;;
  modify (set_chunks cs) ;;;
  let texts := map embed_text cs in
  let embs := encode B m texts in
  modify (set_embeddings embs) ;;;
  dimension <- lift (match shape1 embs with
                     | Some d => inr d
                     | None => inl IndexError
                     end) ;;
  _init_faiss_index dimension ;;;
  s <- get ;;
  match index s with
  | Some ix => modify (set_index (Some (index_add B ix embs)))
  | None => ret tt
  end ;;;
  ret embs.

(** [similarities = np.dot(self.embeddings, query_embedding.T).flatten()] *)
Definition similarities (e : ndarray) (q : vec) : list score :=
  map (fun row => dot B row q) (rows e).

(** [np.argsort(similarities)[-top_k:][::-1]] *)
Definition top_indices (sims : list score) (top_k : Z) : list Z :=
  rev (PyList.slice_last top_k (argsort B sims)).

Definition search (query : string) (top_k : Z)
    : M VectorStore (list (CodeChunk * score)) :=
  s <- get ;;
  match embeddings s with
  | None => raise ValueError
  | Some embs =>
      if PyList.len (chunks s) =? 0 then raise ValueError
      else
        (* [_load_model] assigns [self.model] and nothing else *)
        m <- _load_model ;;
        let query_embedding := encode_query B m query in
        match index s with
        | Some ix =>
            let found :=
              index_search B ix query_embedding
                (Z.min top_k (PyList.len (chunks s))) in
            lift (comprehension
                    (fun '(idx, sc) =>
                       match py_index (chunks s) idx with
                       | inl e => inl e
                       | inr c => inr (c, sc)
                       end) found)
        | None =>
            let sims := similarities embs query_embedding in
            lift (comprehension
                    (fun idx =>
                       match py_index (chunks s) idx with
                       | inl e => inl e
                       | inr c =>
                           match py_index sims idx with
                           | inl e => inl e
                           | inr sc => inr (c, sc)
                           end
                       end) (top_indices sims top_k))
        end
  end.

(** *** Persistence

    The store directory holds directories and files.  A file holds what the
    library that wrote it serialised: an array ([np.save]), a JSON document
    ([json.dump]) or a FAISS index ([faiss.write_index]); reading a file
    with the loader of another format fails.  A path names what is at the
    path as it is written: this describes a file system without symbolic
    links and paths written without [..], where different paths are
    different places.  [mkdir] and the writes of the libraries are
    described where they succeed. *)
Inductive payload :=
  | NpyFile (a : ndarray)
  | JsonFile (doc : list (gmap string jval))
  | FaissFile (ix : faiss_index).

Record filesystem := mkFs {
  dirs : gset Path;
  files : gmap Path payload
}.

(** [p] and the paths above it. *)
Definition ancestors (p : Path) : list Path :=
  map (fun k => take k p) (seq 1 (length p)).

(** [p.mkdir(parents=True, exist_ok=True)] when it succeeds: [p] and the
    paths above it are directories afterwards. *)
Definition mkdir (p : Path) (fs : filesystem) : filesystem :=
  mkFs ((list_to_set (ancestors p) : gset Path) ∪ dirs fs) (files fs).

(** [p.exists()]: a directory or a regular file is there; the current
    directory and the root always are. *)
Definition exists_path (fs : filesystem) (p : Path) : bool :=
  bool_decide (p = []) || bool_decide (p = ["/"]) || bool_decide (p = ["//"])
  || bool_decide (p ∈ dirs fs) || bool_decide (is_Some (files fs !! p)).

Definition write (p : Path) (x : payload) (fs : filesystem) : filesystem :=
  mkFs (dirs fs) (<[p := x]> (files fs)).

(** The dictionary [save] builds for one chunk (lines 142-148). *)
Definition chunk_to_dict (c : CodeChunk) : gmap string jval :=
  <["file_path" := JStr (file_path c)]>
  (<["content" := JStr (content c)]>
  (<["start_line" := JInt (start_line c)]>
  (<["end_line" := JInt (end_line c)]>
  (<["chunk_type" := JStr (chunk_type c)]> ∅)))).

Definition save (name : string) (s : VectorStore) (fs : filesystem)
    : filesystem :=
  let save_path := path_div (store_dir s) name in
  let fs := mkdir save_path fs in
  let fs :=
    match embeddings s with
    | Some e => write (path_join save_path "embeddings.npy") (NpyFile e) fs
    | None => fs
    end in
  let chunks_data := map chunk_to_dict (chunks s) in
  let fs := write (path_join save_path "chunks.json") (JsonFile chunks_data) fs in
  match index s with
  | Some ix => write (path_join save_path "index.faiss") (FaissFile ix) fs
  | None => fs
  end.

(** [c[key]] for a key that must hold a string, or an integer: the fields of
    a chunk are typed here, and a record with a value of the other type
    counts as a damaged file. *)
Definition get_str (d : gmap string jval) (key : string) : exn + string :=
  match d !! key with
  | Some (JStr s) => inr s
  | Some (JInt _) => inl CorruptFile
  | None => inl (KeyError key)
  end.

Definition get_int (d : gmap string jval) (key : string) : exn + Z :=
  match d !! key with
  | Some (JInt z) => inr z
  | Some (JStr _) => inl CorruptFile
  | None => inl (KeyError key)
  end.

(** The [CodeChunk(...)] that [load] builds from one record (lines
    180-186). *)
Definition chunk_of_dict (d : gmap string jval) : exn + CodeChunk :=
  match get_str d "file_path", get_str d "content", get_int d "start_line",
        get_int d "end_line", get_str d "chunk_type" with
  | inr fp, inr c, inr sl, inr el, inr ty => inr (mkChunk fp c sl el ty)
  | inl e, _, _, _, _ => inl e
  | _, inl e, _, _, _ => inl e
  | _, _, inl e, _, _ => inl e
  | _, _, _, inl e, _ => inl e
  | _, _, _, _, inl e => inl e
  end.

Definition load (name : string) (fs : filesystem) : M VectorStore bool :=
  s <- get ;;
  let load_path := path_div (store_dir s) name in
  if negb (exists_path fs load_path) then ret false
  else
    match files fs !! path_join load_path "embeddings.npy" with
    | Some (NpyFile e) => modify (set_embeddings e)
    | Some _ => raise CorruptFile
    | None => ret tt
    end ;;;
    match files fs !! path_join load_path "chunks.json" with
    | Some (JsonFile chunks_data) =>
        cs <- lift (comprehension chunk_of_dict chunks_data) ;;
        modify (set_chunks cs)
    | Some _ => raise CorruptFile
    | None => ret tt
    end ;;;
    match files fs !! path_join load_path "index.faiss" with
    | Some f =>
        if faiss_available B then
          match f with
          | FaissFile ix => modify (set_index (Some ix))
          | _ => raise CorruptFile
          end
        else
          s' <- get ;;
          dimension <- lift (match embeddings s' with
                             | Some e =>
                                 match shape1 e with
                                 | Some d => inr d
                                 | None => inl IndexError
                                 end
                             | None => inr 384
                             end) ;;
          _init_faiss_index dimension
    | None => ret tt
    end ;;;
    ret true.

End VectorStore.

Arguments mkBackend {vec score model faiss_index} _ _ _ _ _ _ _ _ _.
Arguments import_sentence_transformer {vec score model faiss_index} _.
Arguments encode {vec score model faiss_index} _ _ _.
Arguments encode_query {vec score model faiss_index} _ _ _.
Arguments dot {vec score model faiss_index} _ _ _.
Arguments argsort {vec score model faiss_index} _ _.
Arguments faiss_available {vec score model faiss_index} _.
Arguments IndexFlatIP {vec score model faiss_index} _ _.
Arguments index_add {vec score model faiss_index} _ _ _.
Arguments index_search {vec score model faiss_index} _ _ _ _.
Arguments mkArray {vec} _ _.
Arguments rows {vec} _.
Arguments shape1 {vec} _.
Arguments mkStore {vec model faiss_index} _ _ _ _ _.
Arguments store_dir {vec model faiss_index} _.
Arguments model_ {vec model faiss_index} _.
Arguments index {vec model faiss_index} _.
Arguments chunks {vec model faiss_index} _.
Arguments embeddings {vec model faiss_index} _.
Arguments init {vec model faiss_index} _.
Arguments mkFs {vec faiss_index} _ _.
Arguments dirs {vec faiss_index} _.
Arguments files {vec faiss_index} _.
Arguments exists_path {vec faiss_index} _ _.
Arguments mkdir {vec faiss_index} _ _.
Arguments write {vec faiss_index} _ _ _.
Arguments NpyFile {vec faiss_index} _.
Arguments JsonFile {vec faiss_index} _.
Arguments FaissFile {vec faiss_index} _.
Arguments save {vec model faiss_index} _ _ _.
Arguments load {vec score model faiss_index} _ _ _ _.
Arguments search {vec score model faiss_index} _ _ _ _.
Arguments embed_chunks {vec score model faiss_index} _ _ _.
Arguments _load_model {vec score model faiss_index} _ _.
Arguments _init_faiss_index {vec score model faiss_index} _ _ _.
Arguments similarities {vec score model faiss_index} _ _ _.
Arguments top_indices {vec score model faiss_index} _ _ _.

End Embed.

(** ** retrieve.py *)

Module Retrieve.

Import Ingest Tools.

(** [list.sort(key=lambda c: c.start_line)]: the sort is stable, so its
    result is the one of any stable sort; this one inserts from the right. *)
Fixpoint insert_by_start (c : CodeChunk) (l : list CodeChunk)
    : list CodeChunk :=
  match l with
  | [] => [c]
  | d :: l' =>
      if start_line c <=? start_line d then c :: d :: l'
      else d :: insert_by_start c l'
  end.

Definition sort_by_start (l : list CodeChunk) : list CodeChunk :=
  foldr insert_by_start [] l.

(** The [for chunk in matching_chunks] of [get_file_context] (lines
    130-139). *)
Fixpoint combine_loop (cs : list CodeChunk) (combined : list string)
    (last_end : Z) : list string :=
  match cs with
  | [] => combined
  | chunk :: rest =>
      let combined' :=
        if start_line chunk >? last_end then combined ++ [content chunk]
        else if end_line chunk >? last_end then
          let lines := PyStr.split_lines (content chunk) in
          let new_start := last_end - start_line chunk + 1 in
          if new_start <? PyList.len lines then
            combined ++ [PyStr.join_lines (PyList.slice_from new_start lines)]
          else combined
        else combined in
      combine_loop rest combined' (Z.max last_end (end_line chunk))
  end.

(** [get_file_context], on [self.store.chunks]. *)
Definition get_file_context (store_chunks : list CodeChunk) (fp : string)
    : option string :=
  let matching_chunks :=
    List.filter (fun chunk => String.eqb (file_path chunk) fp) store_chunks in
  if negb (PyList.truthy matching_chunks) then None
  else
    Some (PyStr.join_lines
            (combine_loop (sort_by_start matching_chunks) [] 0)).

Section Retriever.

Variable vec : Type.
Variable score : Type.
Variable model : Type.
Variable faiss_index : Type.
Variable B : Embed.backend vec score model faiss_index.

(** [hash] on strings. *)
Variable hash : string -> Z.

Definition result : Type := CodeChunk * score.

(** The fingerprint [retrieve] computes (line 54). *)
Definition content_hash (chunk : CodeChunk) : Z :=
  hash (PyStr.prefix 500 (content chunk)).

(** The [for chunk, score in results] of [retrieve] (lines 52-68). *)
Fixpoint filter_loop (top_k max_tokens : Z) (results : list result)
    (seen_content : gset Z) (filtered_results : list result)
    (total_tokens : Z) : list result :=
  match results with
  | [] => filtered_results
  | (chunk, sc) :: rest =>
      if bool_decide (content_hash chunk ∈ seen_content) then
        filter_loop top_k max_tokens rest seen_content filtered_results
          total_tokens
      else
        let seen_content := {[content_hash chunk]} ∪ seen_content in
        let chunk_tokens := estimate_tokens (content chunk) in
        if total_tokens + chunk_tokens >? max_tokens then
          filter_loop top_k max_tokens rest seen_content filtered_results
            total_tokens
        else
          let filtered_results := filtered_results ++ [(chunk, sc)] in
          let total_tokens := total_tokens + chunk_tokens in
          if PyList.len filtered_results >=? top_k then filtered_results
          else
            filter_loop top_k max_tokens rest seen_content filtered_results
              total_tokens
  end.

Local Open Scope py_scope.

(** [retrieve]; the state is [self.store]. *)
Definition retrieve (query : string) (top_k max_tokens : Z)
    : M (Embed.VectorStore vec model faiss_index) (list result) :=
  results <- Embed.search B query (top_k * 2) ;;
  ret (filter_loop top_k max_tokens results ∅ [] 0).

End Retriever.

Arguments content_hash hash chunk : assert.
Arguments filter_loop {score} hash _ _ _ _ _ _.
Arguments retrieve {vec score model faiss_index} B hash _ _ _ _.

End Retrieve.

(** ** Vocabulary of the chunker's properties *)

Module ChunkSpec.

Import Ingest.

(** Lines [s..e] of [L], numbered from 1, both ends included. *)
Definition slice (L : list string) (s e : Z) : list string :=
  take (Z.to_nat (e - s + 1)) (drop (Z.to_nat (s - 1)) L).

(** Line [k] lies in the line range of [c]. *)
Definition covers (k : Z) (c : CodeChunk) : bool :=
  (start_line c <=? k) && (k <=? end_line c).

(** The lines a chunk holds. *)
Definition lines_of (c : CodeChunk) : list string :=
  PyStr.split_lines (content c).

(** The characters [chunk_by_size] counts for a list of lines: each line
    and one newline after it. *)
Definition chars_of (ls : list string) : Z :=
  foldr (fun l n => PyStr.len l + 1 + n) 0 ls.

(** The overlap window of a chunk with the lines [ls]: the lines that seed
    the next chunk. *)
Definition window (overlap : Z) (ls : list string) : list string :=
  fst (overlap_loop overlap (rev ls) [] 0).

(** How the first line of a chunk relates to the range [s..e] of the chunk
    before it: right after it, where its overlap window starts, or anywhere
    from its first line to the line after its last. *)
Definition adjacent : Z -> Z -> Z -> Prop :=
  fun _ e start => start = e + 1.

Definition windowed (overlap : Z) (L : list string) : Z -> Z -> Z -> Prop :=
  fun s e start => start = e - PyList.len (window overlap (slice L s e)) + 1.

Definition touching : Z -> Z -> Z -> Prop :=
  fun s e start => s <= start <= e + 1.

(** The overlap window in the words of the claim about it.  A run of last
    lines is admitted by the overlap budget when it is empty or when, joined
    by newlines, it has at most [overlap] characters; [w] is the longest run
    of the last lines of [ls] that the budget admits when it is such a run
    and no admitted run of last lines of [ls] has more lines. *)
Definition admitted (overlap : Z) (w : list string) : Prop :=
  w = [] \/ PyStr.len (PyStr.join_lines w) <= overlap.

Definition longest_admitted (overlap : Z) (ls w : list string) : Prop :=
  w `suffix_of` ls /\ admitted overlap w /\
  forall w', w' `suffix_of` ls -> admitted overlap w' ->
             (length w' <= length w)%nat.

(** [chain link fp L s e cs s' e']: the chunks [cs] of the file [fp] with the
    lines [L] follow a chunk with the range [s..e], each linked to the one
    before it by [link], each holding the lines of its own range, and the
    last of them has the range [s'..e']. *)
Fixpoint chain (link : Z -> Z -> Z -> Prop) (fp : string) (L : list string)
    (s e : Z) (cs : list CodeChunk) (s_final e_final : Z) : Prop :=
  match cs with
  | [] => s = s_final /\ e = e_final
  | c :: cs' =>
      link s e (start_line c) /\
      1 <= start_line c <= end_line c /\
      e <= end_line c <= PyList.len L /\
      file_path c = fp /\
      content c = PyStr.join_lines (slice L (start_line c) (end_line c)) /\
      chain link fp L (start_line c) (end_line c) cs' s_final e_final
  end.

(** A line the body loop of a definition with the indentation [base] takes:
    blank, indented deeper, or at [base] without opening a definition. *)
Definition absorbed (base : Z) (l : string) : Prop :=
  is_blank l = true \/ base < indent_of l \/
  (indent_of l = base /\ is_def l = false).

(** A line the body loop breaks on: not blank, and either indented less than
    [base] or opening a definition at [base] or to its left. *)
Definition halts (base : Z) (l : string) : Prop :=
  is_blank l = false /\ indent_of l <= base /\
  (is_def l = true \/ indent_of l < base).

(** The state of the outer loop of [extract_python_chunks] after the lines
    [done]: the chunks emitted so far tile the lines before [current_chunk],
    and [current_chunk] holds the lines since. *)
Definition main_inv (fp : string) (L done : list string)
    (chunks : list CodeChunk) (cur : list string) (cstart : Z) : Prop :=
  exists pre s1,
    done = pre ++ cur /\ cstart = PyList.len pre + 1 /\
    chain adjacent fp L 1 0 chunks s1 (PyList.len pre).

(** The state of the loop of [chunk_by_size] after the lines [done]: the
    chunks emitted so far are linked by their overlap windows, each but the
    last was emitted with a count of at least [size], and [current_chunk]
    holds the window of the last one and the lines since. *)
Definition size_inv (size overlap : Z) (fp : string) (L done : list string)
    (chunks : list CodeChunk) (cur : list string) (chars cstart : Z) : Prop :=
  exists pre s1 e1,
    done = pre ++ cur /\ cstart = PyList.len pre + 1 /\
    chars = chars_of cur /\
    chain (windowed overlap L) fp L 1 0 chunks s1 e1 /\
    windowed overlap L s1 e1 cstart /\
    e1 <= PyList.len done /\
    Forall (fun c => size <= PyStr.len (content c) + 1) chunks.

(** A group of lines with at least one line. *)
Definition nonempty_group (g : list string) : Prop := g <> [].

(** Type and line range of a chunk. *)
Definition summary (c : CodeChunk) : string * Z * Z :=
  (chunk_type c, start_line c, end_line c).

(** The bound on fixed-size chunks read with the content length alone and
    with an overlap that is never empty: every chunk but the last has at
    least [size] characters, and with a positive budget two neighbours share
    at least one line, at the end of the first and the head of the second. *)
Definition sized_with_shared_lines (size overlap : Z) (cs : list CodeChunk)
    : Prop :=
  (forall i c, cs !! i = Some c -> (S i < length cs)%nat ->
               size <= PyStr.len (content c)) /\
  (0 < overlap ->
   forall i c1 c2, cs !! i = Some c1 -> cs !! S i = Some c2 ->
     exists w, w <> [] /\ w `suffix_of` lines_of c1 /\
               w `prefix_of` lines_of c2).

End ChunkSpec.

(** ** Vocabulary of the store's and the retriever's properties *)

Module StoreSpec.

Import Ingest Tools Embed.

Section Spec.

Context {vec score model faiss_index : Type}.
Variable B : backend vec score model faiss_index.

(** The model [_load_model] returns on the store [s]: the one already
    loaded, else the one the import gives. *)
Definition loaded_model (s : VectorStore vec model faiss_index)
    : option model :=
  match model_ s with
  | Some m => Some m
  | None => import_sentence_transformer B
  end.

(** The store [_load_model] leaves. *)
Definition with_model (m : model) (s : VectorStore vec model faiss_index)
    : VectorStore vec model faiss_index :=
  match model_ s with
  | Some _ => s
  | None => mkStore (store_dir s) (Some m) (index s) (chunks s) (embeddings s)
  end.

(** The file [index.faiss] that [load] finds after [save] can be handled,
    for a store whose embeddings are [e]: there is none (the store has no
    index and none was there before); or FAISS can be imported and the file
    holds a FAISS index (the store's, or one that was there before); or FAISS
    cannot be imported and [e] has a second axis. *)
Definition index_file_readable (s : VectorStore vec model faiss_index)
    (name : string) (fs : filesystem vec faiss_index) (e : ndarray vec)
    : Prop :=
  match index s,
        files fs !! path_join (path_div (store_dir s) name) "index.faiss"
  with
  | None, None => True
  | Some _, _ =>
      if faiss_available B then True else is_Some (shape1 e)
  | None, Some f =>
      if faiss_available B then
        match f with FaissFile _ => True | _ => False end
      else is_Some (shape1 e)
  end.

Variable score_leb : score -> score -> bool.

(** Scores from the highest down, and from the lowest up. *)
Definition descending (l : list score) : Prop :=
  StronglySorted (fun a b => score_leb b a = true) l.

Definition ascending (l : list score) : Prop :=
  StronglySorted (fun a b => score_leb a b = true) l.

(** The values of [l] at the positions [p]. *)
Definition values_at (l : list score) (p : list Z) : list score :=
  omap (fun idx => l !! Z.to_nat idx) p.

(** What [np.argsort] promises for the array [l]: the positions of [l], each
    once, ordered so that the values ascend. *)
Definition argsort_ok (l : list score) (p : list Z) : Prop :=
  p ≡ₚ map Z.of_nat (seq 0 (length l)) /\ ascending (values_at l p).

(** What [index.search] promises for an index over [n] vectors: positions
    below [n], scores from the highest down. *)
Definition index_search_ok (n : nat) (found : list (Z * score)) : Prop :=
  Forall (fun '(idx, _) => 0 <= idx < Z.of_nat n) found /\
  descending (map snd found).

(** [scores] are the [k] highest values of [l], from the highest down: as
    many as [k] allows, drawn from [l], none below a value left out. *)
Definition top_scores (k : Z) (l scores : list score) : Prop :=
  descending scores /\
  PyList.len scores = Z.min k (PyList.len l) /\
  exists others,
    scores ++ others ≡ₚ l /\
    Forall (fun a => Forall (fun b => score_leb b a = true) others) scores.

End Spec.

(** The tokens [retrieve] counts for a list of results. *)
Definition total_tokens {score} (out : list (CodeChunk * score)) : Z :=
  foldr (fun r n => estimate_tokens (content (fst r)) + n) 0 out.

End StoreSpec.

(** ** Vocabulary of the scanner's properties *)

Module ScanSpec.

Import Tools Scan.

(** The regular files the walk reaches from the directory [t] at [root],
    each with the directory it is in: those of [root], then those below the
    sub-directories whose name is not pruned. *)
Fixpoint visited (root : Path) (t : dir_tree) : list (Path * file_entry) :=
  match t with
  | Dir _ dirs filenames =>
      map (fun f => (root, f)) filenames ++
      (fix descend (ds : list dir_tree) : list (Path * file_entry) :=
         match ds with
         | [] => []
         | sub :: ds' =>
             if ignored (name_of sub) then descend ds'
             else visited (path_join root (name_of sub)) sub ++ descend ds'
         end) dirs
  end.

(** A file whose content is read as the empty string. *)
Definition reads_empty (f : file_entry) : bool :=
  match read_file_content f with
  | Some EmptyString => true
  | _ => false
  end.

(** The directory [t] without the files that are read as the empty
    string. *)
Fixpoint without_empty (t : dir_tree) : dir_tree :=
  match t with
  | Dir d dirs filenames =>
      Dir d (map without_empty dirs)
        (List.filter (fun f => negb (reads_empty f)) filenames)
  end.

End ScanSpec.

(** ** Concrete inputs *)

Module Examples.

Import Ingest Tools.

(** The suffix of a plain ASCII path without a trailing separator, in lower
    case: what [Path(p).suffix.lower()] gives for it. *)
Fixpoint after_last (sep : ascii) (s : string) : option string :=
  match s with
  | EmptyString => None
  | String c s' =>
      match after_last sep s' with
      | Some r => Some r
      | None => if Ascii.eqb c sep then Some s' else None
      end
  end.

Definition lower_char (c : ascii) : ascii :=
  let n := N_of_ascii c in
  if ((65 <=? n) && (n <=? 90))%N then ascii_of_N (n + 32) else c.

Fixpoint lower (s : string) : string :=
  match s with
  | EmptyString => EmptyString
  | String c s' => String (lower_char c) (lower s')
  end.

Definition suffix_lower (p : string) : string :=
  let name := match after_last "/" p with Some r => r | None => p end in
  match after_last "." name with
  | None => EmptyString
  | Some EmptyString => EmptyString
  | Some ext =>
      if (String.length ext + 1 <? String.length name)%nat then
        lower (String "." ext)
      else EmptyString
  end.

(** A 50-line module: four lines of preamble, a top-level function on lines
    5-20, four top-level lines, a top-level class on lines 25-45, five
    top-level lines. *)
Definition scenario_lines : list string :=
  ["import os"; "import sys"; ""; "LIMIT = 10"] ++
  ["def compute(x):"] ++ repeat "    x = x + 1" 14 ++ ["    return x"] ++
  ["total = compute(LIMIT)"; "print(total)"; ""; "# shapes"] ++
  ["class Shape:"; "    sides = 0"; ""; "    def area(self):";
   "        return 0"; ""; "    def name(self):"; "        return self.sides"] ++
  repeat "    scale = 1" 13 ++
  ["shape = Shape()"; "print(shape.area())"; "print(shape.name())"; "";
   "print(total)"].

Definition scenario : string := PyStr.join_lines scenario_lines.

(** A three-line module whose last line is neither blank nor indented. *)
Definition short_module : string :=
  PyStr.join_lines ["def f():"; "    pass"; "x = 1"].

Fixpoint repeat_char (c : ascii) (n : nat) : string :=
  match n with
  | O => EmptyString
  | S n' => String c (repeat_char c n')
  end.

(** Two lines: 1499 characters, then one. *)
Definition long_line_file : string :=
  PyStr.join_lines [repeat_char "a" 1499; "b"].

(** A store over integer scores: vectors are integers, the product is the
    integer product, [argsort] sorts positions by insertion, a FAISS index
    is the list of the vectors added to it, and FAISS cannot be imported. *)
Fixpoint insert_pos (l : list Z) (i : Z) (p : list Z) : list Z :=
  match p with
  | [] => [i]
  | j :: p' =>
      if (default 0 (l !! Z.to_nat i)) <=? (default 0 (l !! Z.to_nat j))
      then i :: j :: p'
      else j :: insert_pos l i p'
  end.

Definition argsort (l : list Z) : list Z :=
  foldr (insert_pos l) [] (map Z.of_nat (seq 0 (length l))).

(** The exact inner-product search of a flat index: the positions of the
    stored vectors with their products, from the highest down, the first
    [k] of them. *)
Fixpoint insert_desc (x : Z * Z) (l : list (Z * Z)) : list (Z * Z) :=
  match l with
  | [] => [x]
  | y :: l' =>
      if snd y <=? snd x then x :: y :: l' else y :: insert_desc x l'
  end.

Definition flat_search (ix : list Z) (q k : Z) : list (Z * Z) :=
  take (Z.to_nat k)
    (foldr insert_desc [] (imap (fun i v => (Z.of_nat i, v * q)) ix)).

Definition numpy_only : Embed.backend Z Z unit (list Z) :=
  @Embed.mkBackend Z Z unit (list Z)
    (Some tt)
    (fun _ texts => Embed.mkArray (map PyStr.len texts) (Some 1))
    (fun _ query => PyStr.len query)
    Z.mul
    argsort
    false
    (fun _ => [])
    (fun ix e => ix ++ Embed.rows e)
    flat_search.

(** The same store when FAISS can be imported. *)
Definition with_faiss : Embed.backend Z Z unit (list Z) :=
  @Embed.mkBackend Z Z unit (list Z)
    (Some tt)
    (fun _ texts => Embed.mkArray (map PyStr.len texts) (Some 1))
    (fun _ query => PyStr.len query)
    Z.mul
    argsort
    true
    (fun _ => [])
    (fun ix e => ix ++ Embed.rows e)
    flat_search.

Definition three_chunks : list CodeChunk :=
  [mkChunk "a.py" "def f(): pass" 1 1 "function";
   mkChunk "b.py" "x = 1" 1 1 "block";
   mkChunk "c.py" "class C: pass" 1 1 "class"].

Definition populated : Embed.VectorStore Z unit (list Z) :=
  Embed.mkStore ["store"] None None three_chunks
    (Some (Embed.mkArray [3; 1; 2] (Some 1))).

Definition populated_faiss : Embed.VectorStore Z unit (list Z) :=
  Embed.mkStore ["store"] None (Some [3; 1; 2]) three_chunks
    (Some (Embed.mkArray [3; 1; 2] (Some 1))).

Definition empty_fs : Embed.filesystem Z (list Z) :=
  Embed.mkFs ∅ ∅.

(** A repository with one Python file that is empty, one that is not, a
    text file, and a pruned directory. *)
Definition reads (text : string) : string -> read_outcome :=
  fun _ => ReadOk text.

Definition small_repo : Scan.dir_tree :=
  Scan.Dir "repo"
    [Scan.Dir ".git" [] [mkFile "hook.py" (Some 10) (reads "x = 1")];
     Scan.Dir "pkg" [] [mkFile "__init__.py" (Some 0) (reads "")]]
    [mkFile "main.py" (Some 5) (reads "x = 1");
     mkFile "notes.txt" (Some 5) (reads "hello")].

End Examples.

(** ** More vocabulary for the chunker *)

Module ChunkSpecMore.

Import Ingest ChunkSpec.

(** The lines [ls] start with a line that opens a definition, and [ty] is
    the type of chunk that line gives. *)
Definition opens_definition (ls : list string) (ty : string) : Prop :=
  exists d body, ls = d :: body /\ is_def d = true /\ ty = def_type d.

(** What the outer loop of [extract_python_chunks] keeps about types: the
    chunk in progress opens a definition of its type, unless nothing was
    emitted yet and it is the leading block; so does every emitted chunk,
    except that the first may be a block. *)
Definition typed_state (chunks : list CodeChunk) (cur : list string)
    (ty : string) : Prop :=
  match chunks with
  | [] => True
  | c0 :: cs =>
      (opens_definition (lines_of c0) (chunk_type c0) \/
       chunk_type c0 = "block") /\
      Forall (fun c => opens_definition (lines_of c) (chunk_type c)) cs
  end /\
  (opens_definition cur ty \/ (chunks = [] /\ ty = "block")) /\
  Forall (fun l => PyStr.has_newline l = false) cur.

(** The lines [ls] are some lines counting less than [size] characters and
    one more line. *)
Definition stops_at_size (size : Z) (ls : list string) : Prop :=
  exists init last, ls = init ++ [last] /\ chars_of init < size.

End ChunkSpecMore.

(** ** tools.py: the remaining helpers *)

Module ToolsMore.

Import Tools.

(** [s[:n]], with Python's reading of a negative [n]. *)
Definition slice_to (n : Z) (s : string) : string :=
  if n <? 0 then PyStr.prefix (Z.to_nat (PyStr.len s + n)) s
  else PyStr.prefix (Z.to_nat n) s.

(** The marker [truncate_content] appends: a newline and 15 characters. *)
Definition truncated_marker : string :=
  String PyStr.newline "... [truncated]".

Definition truncate_content (content : string) (max_chars : Z) : string :=
  if PyStr.len content <=? max_chars then content
  else slice_to max_chars content +:+ truncated_marker.

(** [config.IGNORE_DIRS] *)
Definition IGNORE_DIRS : list string :=
  [".git"; "node_modules"; "venv"; ".venv"; "__pycache__"; ".pytest_cache";
   "dist"; "build"; ".next"; "target"; ".idea"; ".vscode"].

(** [any(ignore_dir in parts for ignore_dir in IGNORE_DIRS)] on
    [path.parts]. *)
Definition should_ignore_path (path : Path) : bool :=
  existsb (fun ignore_dir => existsb (String.eqb ignore_dir) path) IGNORE_DIRS.

(** [str(n)] for an integer. *)
Definition str_of_int (n : Z) : string := NilZero.string_of_int (Z.to_int n).

End ToolsMore.


(** ** retrieve.py: the context document *)

Module Context.

Import Ingest Tools ToolsMore Embed Retrieve.

(** [config.TOP_K_CHUNKS] *)
Definition TOP_K_CHUNKS : Z := 10.

Definition nl : string := String PyStr.newline EmptyString.

Definition no_relevant_code : string :=
  "No relevant code found in the repository.".

Definition context_header : string :=
  "Here are the most relevant code sections from the repository:" +:+ nl.


Section Context.

Context {vec score model faiss_index : Type}.
Variable B : backend vec score model faiss_index.
Variable hash : string -> Z.

(** The format [.2f] of a score. *)
Variable format_score : score -> string.

(** [location] (line 99). *)
Definition location (chunk : CodeChunk) : string :=
  file_path chunk +:+ ":" +:+ str_of_int (start_line chunk) +:+ "-" +:+
  str_of_int (end_line chunk).

(** The two strings appended for the result number [i] (lines 100-101). *)
Definition banner (i : Z) (chunk : CodeChunk) (sc : score) : string :=
  nl +:+ "--- [" +:+ str_of_int i +:+ "] " +:+ location chunk +:+
  " (relevance: " +:+ format_score sc +:+ ") ---" +:+ nl.

Definition fenced (chunk : CodeChunk) : string :=
  "```" +:+ nl +:+ content chunk +:+ nl +:+ "```" +:+ nl.

(** [for i, (chunk, score) in enumerate(results, 1)] (lines 98-101). *)
Fixpoint parts_loop (results : list (CodeChunk * score)) (i : Z)
    (context_parts : list string) : list string :=
  match results with
  | [] => context_parts
  | (chunk, sc) :: rest =>
      let context_parts := context_parts ++ [banner i chunk sc] in
      let context_parts := context_parts ++ [fenced chunk] in
      parts_loop rest (i + 1) context_parts
  end.

(** [retrieve_as_context] from [results] on (lines 91-103). *)
Definition format_context (results : list (CodeChunk * score)) : string :=
  if negb (PyList.truthy results) then no_relevant_code
  else PyStr.join_lines (parts_loop results 1 [context_header]).

Local Open Scope py_scope.

Definition retrieve_as_context (query : string) (top_k max_tokens : Z)
    : M (VectorStore vec model faiss_index) string :=
  results <- retrieve B hash query top_k max_tokens ;;
  ret (format_context results).

(** [CodeRetriever.load_index] *)
Definition load_index (name : string) (fs : filesystem vec faiss_index)
    : M (VectorStore vec model faiss_index) bool :=
  load B name fs.

(** [VectorStore(store_dir)] with what it does to the file system: the
    directory is created. *)
Definition new_store (dir : Path) (fs : filesystem vec faiss_index)
    : VectorStore vec model faiss_index * filesystem vec faiss_index :=
  (init dir, mkdir dir fs).


End Context.

End Context.

(** ** embed.py: indexing a repository *)

Module Indexing.

Import Ingest Tools Scan Embed.

Section Indexing.

Context {vec score model faiss_index : Type}.
Variable B : backend vec score model faiss_index.
Variable suffix_lower : string -> string.

(** [index_repository]: [repo] is the resolved repository path, [tree] the
    directory found there, [dir] is [config.VECTOR_STORE_DIR].  What it
    returns or raises, and the file system it leaves. *)
Definition index_repository (repo : Path) (tree : option dir_tree)
    (store_name : string) (dir : Path) (fs : filesystem vec faiss_index)
    : (exn + VectorStore vec model faiss_index) *
      filesystem vec faiss_index :=
  match ingest_repository suffix_lower repo tree with
  | inl e => (inl e, fs)
  | inr chunks =>
      let '(store, fs) := Context.new_store dir fs in
      match embed_chunks B chunks store with
      | (inl e, _) => (inl e, fs)
      | (inr _, store) => (inr store, save store_name store fs)
      end
  end.

End Indexing.

End Indexing.

(** ** llm.py: the prompt of [LLM.analyze_code] *)

Module Llm.

Definition SYSTEM_PROMPT : string :=
"You are a senior software engineer and expert code reviewer.
You analyze code carefully and provide precise, actionable suggestions.
When suggesting fixes:
1. Explain the issue clearly
2. Show the exact code changes needed
3. Use diff format when showing changes
4. Consider edge cases and potential side effects

Be concise but thorough. Focus on the specific task at hand.".

(** The prompt [analyze_code] builds (lines 201-213). *)
Definition analyze_code_prompt (code_context user_prompt : string) : string :=
"## Relevant Code from Repository

" +:+ code_context +:+ "

## User Request

" +:+ user_prompt +:+ "

## Instructions

Analyze the code above and respond to the user's request.
If suggesting code changes, show them in a clear diff format.
".

(** The prompt [suggest_fix] builds (lines 228-242). *)
Definition suggest_fix_prompt (code_context issue_description : string)
    : string :=
"## Problem

" +:+ issue_description +:+ "

## Relevant Code

" +:+ code_context +:+ "

## Task

1. Identify the root cause of the issue
2. Explain why this is happening
3. Provide the exact fix in diff format
4. Note any potential side effects of the fix
".

Section Llm.

(** [self.provider.generate(prompt, system_prompt)]: the call to the model
    provider. *)
Variable generate : string -> string -> exn + string.

Definition analyze_code (code_context user_prompt : string) : exn + string :=
  generate (analyze_code_prompt code_context user_prompt) SYSTEM_PROMPT.

Definition suggest_fix (code_context issue_description : string)
    : exn + string :=
  generate (suggest_fix_prompt code_context issue_description) SYSTEM_PROMPT.

End Llm.

End Llm.

(** ** agent.py *)

Module Agent.

Import Ingest Tools Scan Embed Retrieve Context Indexing.

Definition not_indexed : string :=
  "Error: Repository not indexed. Please index first.".

Section Agent.

Context {vec score model faiss_index : Type}.
Variable B : backend vec score model faiss_index.
Variable suffix_lower : string -> string.
Variable hash : string -> Z.
Variable format_score : score -> string.
Variable generate : string -> string -> exn + string.

(** The file system outside the store: [Path(p).resolve()] and the directory
    there, [None] when the path does not exist. *)
Variable resolve : string -> Path.
Variable tree_at : Path -> option dir_tree.

(** [config.VECTOR_STORE_DIR] *)
Variable VECTOR_STORE_DIR : Path.

(** A [CodingAgent]: [self.retriever.store] is [store]. *)
Record CodingAgent := mkAgent {
  repo_path : option string;
  index_name : string;
  store : VectorStore vec model faiss_index;
  indexed : bool
}.

(** The agent and the file system of the store. *)
Record world := mkWorld {
  agent : CodingAgent;
  fs : filesystem vec faiss_index
}.

Definition set_store (s : VectorStore vec model faiss_index) (w : world)
    : world :=
  mkWorld (mkAgent (repo_path (agent w)) (index_name (agent w)) s
             (indexed (agent w))) (fs w).

Definition set_indexed (b : bool) (w : world) : world :=
  mkWorld (mkAgent (repo_path (agent w)) (index_name (agent w))
             (store (agent w)) b) (fs w).

Definition set_fs (f : filesystem vec faiss_index) (w : world) : world :=
  mkWorld (agent w) f.

(** Run a method of the retriever's store. *)
Definition on_store {A} (m : M (VectorStore vec model faiss_index) A)
    : M world A :=
  fun w =>
    let '(r, s) := m (store (agent w)) in
    (r, set_store s w).

(** [bool(self.repo_path)] *)
Definition has_repo_path (a : CodingAgent) : option string :=
  match repo_path a with
  | Some (String c p) => Some (String c p)
  | Some EmptyString => None
  | None => None
  end.

Local Open Scope py_scope.

(** [CodingAgent.index] *)
Definition index (force : bool) : M world bool :=
  w <- get ;;
  match has_repo_path (agent w) with
  | None => ret false
  | Some path =>
      loaded <-
        (if force then ret false
         else on_store (load_index B (index_name (agent w)) (fs w))) ;;
      if loaded then modify (set_indexed true) ;;; ret true
      else
        w <- get ;;
        let repo := resolve path in
        match index_repository B suffix_lower repo (tree_at repo)
                (index_name (agent w)) VECTOR_STORE_DIR (fs w) with
        | (inr s, fs') =>
            modify (set_fs fs') ;;;
            modify (set_store s) ;;;
            modify (set_indexed true) ;;;
            ret true
        | (inl _, fs') =>
            modify (set_fs fs') ;;;
            ret false
        end
  end.

(** The first lines of [query] and of [suggest_fix]: index when that was
    not done; [false] when it fails. *)
Definition ensure_indexed : M world bool :=
  w <- get ;;
  if indexed (agent w) then ret true else index false.

(** [CodingAgent.query] *)
Definition query (prompt : string) (top_k : Z) : M world string :=
  ok <- ensure_indexed ;;
  if negb ok then ret not_indexed
  else
    context <- on_store (retrieve_as_context B hash format_score prompt
                           top_k 8000) ;;
    results <- on_store (retrieve B hash prompt top_k 8000) ;;
    lift (Llm.analyze_code generate context prompt).

(** [CodingAgent.suggest_fix] *)
Definition suggest_fix (issue : string) (top_k : Z) : M world string :=
  ok <- ensure_indexed ;;
  if negb ok then ret not_indexed
  else
    context <- on_store (retrieve_as_context B hash format_score issue
                           top_k 8000) ;;
    lift (Llm.suggest_fix generate context issue).

End Agent.

End Agent.

(** ** More vocabulary for the scanner *)

Module ScanSpecMore.

Import Ingest Tools Scan.

(** The chunks [ingest_repository] collects from the triples it is given:
    those of the first file, then those of the second, and so on. *)
Definition chunks_of (suffix_lower : string -> string)
    (triples : list triple) : list CodeChunk :=
  flat_map (fun '(_, relative_path, content) =>
              chunk_code suffix_lower content relative_path) triples.

End ScanSpecMore.

(** ** More examples *)

Module ExamplesMore.

Import Tools.

(** A repository with a file two directories down, a file at the top and a
    pruned directory. *)
Definition nested_repo : Scan.dir_tree :=
  Scan.Dir "repo"
    [Scan.Dir "node_modules" []
       [mkFile "dep.js" (Some 7) (Examples.reads "x = 1;")];
     Scan.Dir "src"
       [Scan.Dir "app" []
          [mkFile "util.py" (Some 23)
             (Examples.reads (PyStr.join_lines ["def f():"; "    return 1"]))]]
       []]
    [mkFile "main.py" (Some 5) (Examples.reads "x = 1")].

(** A file that is not UTF-8 and is read as Latin-1. *)
Definition latin1_file : file_entry :=
  mkFile "legacy.c" (Some 9)
    (fun encoding =>
       if String.eqb encoding "latin-1" then ReadOk "int x;"
       else if String.eqb encoding "cp1252" then ReadOk "int y;"
       else UnicodeDecodeError).

(** An index directory whose [chunks.json] holds something else. *)
Definition corrupt_fs : Embed.filesystem Z (list Z) :=
  Embed.write ["store"; "default"; "chunks.json"]
    (Embed.NpyFile (Embed.mkArray [1] (Some 1)))
    (Embed.mkdir ["store"; "default"] Examples.empty_fs).

(** The format [.2f] on scores that are integers. *)
Definition format_score (sc : Z) : string :=
  ToolsMore.str_of_int sc +:+ ".00".

(** A provider that answers with the prompt it was given. *)
Definition echo (prompt system_prompt : string) : exn + string :=
  inr prompt.

(** The paths outside the store: only [repo] exists. *)
Definition resolve (p : string) : Path := [p].

Definition tree_at (p : Path) : option Scan.dir_tree :=
  if bool_decide (p = ["repo"]) then Some nested_repo else None.

(** An agent that was just created, and one whose index is in memory. *)
Definition new_agent (repo : option string)
    (fs : Embed.filesystem Z (list Z)) : @Agent.world Z unit (list Z) :=
  Agent.mkWorld (Agent.mkAgent repo "default" (Embed.init ["store"]) false)
    fs.

Definition ready_agent : @Agent.world Z unit (list Z) :=
  Agent.mkWorld
    (Agent.mkAgent (Some "repo") "default" Examples.populated true)
    Examples.empty_fs.

End ExamplesMore.

Import ListNotations Ingest.
Local Open Scope string_scope.
Local Open Scope list_scope.
Local Open Scope Z_scope.

(** * Properties *)

(** ** Strings and lines *)

Module StrFacts.
Import PyStr.

Lemma append_cons c l s : String c l +:+ s = String c (l +:+ s).
Proof. reflexivity. Qed.

Lemma append_nil s : "" +:+ s = s.
Proof. reflexivity. Qed.

Lemma append_assoc (a b c : string) : (a +:+ b) +:+ c = a +:+ (b +:+ c).
Proof. induction a as [|x a IH]; [reflexivity|]. rewrite !append_cons. now rewrite IH. Qed.

Lemma length_append (a b : string) :
  String.length (a +:+ b) = (String.length a + String.length b)%nat.
Proof. induction a as [|x a IH]; [reflexivity|]. rewrite append_cons. cbn. now rewrite IH. Qed.

Lemma split_lines_nonempty s : split_lines s <> [].
Proof.
  destruct s as [|c s]; cbn; [discriminate|].
  destruct (Ascii.eqb c newline); [discriminate|].
  destruct (split_lines s); discriminate.
Qed.

Lemma join_cons l ls : ls <> [] -> join_lines (l :: ls) = l +:+ String newline (join_lines ls).
Proof. destruct ls; [congruence|reflexivity]. Qed.

Lemma join_split s : join_lines (split_lines s) = s.
Proof.
  induction s as [|c s IH]; [reflexivity|].
  cbn [split_lines]. destruct (Ascii.eqb_spec c newline) as [->|Hc].
  - rewrite join_cons by apply split_lines_nonempty. rewrite IH. reflexivity.
  - pose proof (split_lines_nonempty s) as Hne.
    destruct (split_lines s) as [|h t]; [congruence|].
    destruct t as [|h' t].
    + cbn in *. congruence.
    + rewrite <- IH. rewrite !join_cons by discriminate. reflexivity.
Qed.

Lemma split_lines_no_newline s : Forall (fun l => has_newline l = false) (split_lines s).
Proof.
  induction s as [|c s IH]; cbn [split_lines].
  - repeat constructor.
  - destruct (Ascii.eqb c newline) eqn:Hc.
    + constructor; [reflexivity|assumption].
    + destruct (split_lines s) as [|h t]; [repeat constructor; cbn; now rewrite Hc|].
      inversion IH; subst. constructor; [|assumption]. cbn. now rewrite Hc.
Qed.

Lemma split_app_line l s : has_newline l = false ->
  split_lines (l +:+ String newline s) = l :: split_lines s.
Proof.
  induction l as [|c l IH]; intros Hl; cbn [split_lines String.append has_newline] in *.
  - reflexivity.
  - apply orb_false_iff in Hl as [Hc Hl]. rewrite append_cons. cbn [split_lines].
    rewrite Hc, IH by assumption. reflexivity.
Qed.

Lemma split_single l : has_newline l = false -> split_lines l = [l].
Proof.
  induction l as [|c l IH]; intros Hl; cbn [split_lines has_newline] in *; [reflexivity|].
  apply orb_false_iff in Hl as [Hc Hl]. rewrite Hc, IH by assumption. reflexivity.
Qed.

Lemma split_join ls : ls <> [] -> Forall (fun l => has_newline l = false) ls ->
  split_lines (join_lines ls) = ls.
Proof.
  induction ls as [|l ls IH]; intros Hne Hall; [congruence|].
  inversion Hall; subst. destruct ls as [|l' ls].
  - cbn. now apply split_single.
  - rewrite join_cons by discriminate. rewrite split_app_line by assumption.
    rewrite IH; [reflexivity|discriminate|assumption].
Qed.

Lemma join_app l1 l2 : l1 <> [] -> l2 <> [] ->
  join_lines (l1 ++ l2) = join_lines l1 +:+ String newline (join_lines l2).
Proof.
  induction l1 as [|x l1 IH]; intros H1 H2; [congruence|].
  destruct l1 as [|y l1].
  - cbn [app]. now rewrite join_cons.
  - change ((x :: y :: l1) ++ l2) with (x :: ((y :: l1) ++ l2)).
    rewrite join_cons by discriminate. rewrite IH by (discriminate || assumption).
    rewrite (join_cons x (y :: l1)) by discriminate.
    rewrite append_assoc. reflexivity.
Qed.

Lemma join_concat gs : Forall (fun g => g <> []) gs ->
  join_lines (map join_lines gs) = join_lines (concat gs).
Proof.
  induction gs as [|g gs IH]; intros Hall; [reflexivity|].
  inversion Hall; subst. destruct gs as [|g' gs].
  - cbn. now rewrite app_nil_r.
  - cbn [map concat]. rewrite join_cons by discriminate.
    change (join_lines (map join_lines (g' :: gs))) with (join_lines (join_lines g' :: map join_lines gs)).
    cbn [map] in IH. rewrite IH by assumption.
    rewrite join_app; [reflexivity|assumption|].
    inversion H2; subst. cbn [concat]. destruct g'; [congruence|discriminate].
Qed.

End StrFacts.

Module ChunkFacts.
Import PyStr ChunkSpec StrFacts.

Lemma len_app {A} (l1 l2 : list A) :
  PyList.len (l1 ++ l2) = PyList.len l1 + PyList.len l2.
Proof. unfold PyList.len. rewrite length_app. lia. Qed.

Lemma len_cons {A} (x : A) (l : list A) : PyList.len (x :: l) = 1 + PyList.len l.
Proof. unfold PyList.len. cbn [length]. lia. Qed.

Lemma len_nonneg {A} (l : list A) : 0 <= PyList.len l.
Proof. unfold PyList.len. lia. Qed.

Ltac len_lia :=
  unfold PyList.len in *;
  repeat rewrite length_app in *; cbn [length] in *; lia.

Lemma slice_mid (pre cur post : list string) s e :
  s = PyList.len pre + 1 -> e = PyList.len pre + PyList.len cur ->
  slice (pre ++ cur ++ post) s e = cur.
Proof.
  intros -> ->. unfold slice, PyList.len.
  replace (Z.to_nat (Z.of_nat (length pre) + 1 - 1)) with (length pre) by lia.
  replace (Z.to_nat _) with (length cur) by lia.
  rewrite drop_app_length. apply take_app_length.
Qed.

Lemma slice_length L s e :
  1 <= s -> s <= e + 1 -> e <= PyList.len L ->
  PyList.len (slice L s e) = e - s + 1.
Proof.
  intros H1 H2 H3. unfold slice, PyList.len in *.
  rewrite length_take, length_drop. rewrite Nat.min_l by lia. lia.
Qed.

Lemma slice_nonempty L s e :
  1 <= s <= e -> e <= PyList.len L -> slice L s e <> [].
Proof.
  intros H1 H2 Hnil.
  assert (H : PyList.len (slice L s e) = e - s + 1) by (apply slice_length; lia).
  rewrite Hnil in H. change (PyList.len []) with 0 in H. lia.
Qed.

Lemma take_slice L e e' :
  0 <= e <= e' -> 
  take (Z.to_nat e) L ++ slice L (e + 1) e' = take (Z.to_nat e') L.
Proof.
  intros H. unfold slice.
  replace (Z.to_nat (e + 1 - 1)) with (Z.to_nat e) by lia.
  rewrite take_take_drop. f_equal. lia.
Qed.

Lemma drop_slice L s e e' :
  1 <= s -> s <= e + 1 -> e <= e' ->
  drop (Z.to_nat (e - s + 1)) (slice L s e') = slice L (e + 1) e'.
Proof.
  intros H1 H2 H3. unfold slice.
  replace (Z.to_nat (e + 1 - 1)) with (Z.to_nat (s - 1) + Z.to_nat (e - s + 1))%nat by lia.
  rewrite <- drop_drop.
  set (M := drop (Z.to_nat (s - 1)) L).
  rewrite (take_drop_commute M).
  f_equal. f_equal. lia.
Qed.

Lemma chain_snoc link fp L s e cs s1 e1 c :
  chain link fp L s e cs s1 e1 ->
  link s1 e1 (start_line c) ->
  1 <= start_line c <= end_line c ->
  e1 <= end_line c <= PyList.len L ->
  file_path c = fp ->
  content c = join_lines (slice L (start_line c) (end_line c)) ->
  chain link fp L s e (cs ++ [c]) (start_line c) (end_line c).
Proof.
  revert s e. induction cs as [|d cs IH]; intros s e Hc H1 H2 H3 H4 H5; cbn in *.
  - destruct Hc as [-> ->]. repeat split; try assumption; lia.
  - destruct Hc as (A & B & C & D & E & F). repeat split; try assumption; try lia.
    now apply IH.
Qed.

Lemma chain_mono (link1 link2 : Z -> Z -> Z -> Prop) fp L :
  (forall s e st, s <= e + 1 -> 1 <= s -> e <= PyList.len L ->
                  link1 s e st -> link2 s e st) ->
  forall cs s e s1 e1,
    s <= e + 1 -> 1 <= s -> e <= PyList.len L ->
    chain link1 fp L s e cs s1 e1 -> chain link2 fp L s e cs s1 e1.
Proof.
  intros Himp. induction cs as [|c cs IH]; intros s e s1 e1 H1 H2 H3 Hc; cbn in *.
  - assumption.
  - destruct Hc as (A & B & C & D & E & F). repeat split; try assumption; try lia.
    + now apply Himp.
    + apply IH; [lia..|assumption].
Qed.

Lemma chain_elem link fp L cs : forall s e s1 e1,
  chain link fp L s e cs s1 e1 ->
  forall c, c ∈ cs ->
    1 <= start_line c <= end_line c /\ end_line c <= PyList.len L /\
    content c = join_lines (slice L (start_line c) (end_line c)).
Proof.
  induction cs as [|x cs IH]; intros s e s1 e1 Hc c Hin.
  - inversion Hin.
  - cbn in Hc. destruct Hc as (A & B & C & D & E & F).
    apply elem_of_cons in Hin as [->|Hin]; [repeat split; (lia || assumption)|].
    eapply IH; eassumption.
Qed.

Lemma chain_end_le link fp L cs : forall s e s1 e1,
  chain link fp L s e cs s1 e1 -> e <= e1.
Proof.
  induction cs as [|c cs IH]; intros s e s1 e1 Hc; cbn in Hc.
  - lia.
  - destruct Hc as (A & B & C & D & E & F). apply IH in F. lia.
Qed.

(** *** The structural chunker *)

Lemma collect_body_app base l :
  let '(taken, remaining) := collect_body base l in l = taken ++ remaining.
Proof.
  induction l as [|x l IH]; cbn [collect_body]; [reflexivity|].
  destruct (collect_body base l) as [t r].
  destruct (is_blank x); [cbn; congruence|].
  destruct (body_stops base x); [reflexivity|cbn; congruence].
Qed.

Lemma main_loop_def_eq fp line rest i chunks cur cstart ctype :
  is_def line = true ->
  main_loop fp (line :: rest) i chunks cur cstart ctype =
  let chunks' :=
    if PyList.truthy cur then
      chunks ++ [mkChunk fp (join_lines cur) cstart i ctype]
    else chunks in
  let '(taken, remaining) := collect_body (def_indent line) rest in
  main_loop fp remaining (i + 1 + PyList.len taken) chunks' ([line] ++ taken)
    (i + 1) (def_type line).
Proof.
  intros Hd. cbn [main_loop]. rewrite Hd.
  fold (def_indent line). fold (def_type line).
  set (chunks' := if PyList.truthy cur then _ else _).
  cbv zeta.
  match goal with
  | |- ?f rest ?j ?c = _ =>
      enough (H : forall l k c0,
        f l k c0 =
        let '(taken, remaining) := collect_body (def_indent line) l in
        main_loop fp remaining (k + PyList.len taken) chunks' (c0 ++ taken)
          (i + 1) (def_type line))
  end.
  { rewrite H. destruct (collect_body _ _). reflexivity. }
  induction l as [|x l IH]; intros k c0.
  - cbn. rewrite app_nil_r. reflexivity.
  - cbn [collect_body]. destruct (is_blank x).
    + rewrite IH. destruct (collect_body _ l) as [t r].
      rewrite <- app_assoc. cbn [app]. f_equal.
      rewrite len_cons. lia.
    + destruct (body_stops _ x).
      * cbn. rewrite app_nil_r, Z.add_0_r. reflexivity.
      * rewrite IH. destruct (collect_body _ l) as [t r].
        rewrite <- app_assoc. cbn [app]. f_equal.
        rewrite len_cons. lia.
Qed.

Lemma main_loop_nodef_eq fp line rest i chunks cur cstart ctype :
  is_def line = false ->
  main_loop fp (line :: rest) i chunks cur cstart ctype =
  main_loop fp rest (i + 1) chunks (cur ++ [line]) cstart ctype.
Proof. intros Hd. cbn [main_loop]. rewrite Hd. reflexivity. Qed.

Lemma main_inv_emit fp L pre cur post chunks s1 e ctype :
  L = pre ++ cur ++ post -> cur <> [] ->
  e = PyList.len pre + PyList.len cur ->
  chain adjacent fp L 1 0 chunks s1 (PyList.len pre) ->
  chain adjacent fp L 1 0
    (chunks ++ [mkChunk fp (join_lines cur) (PyList.len pre + 1) e ctype])
    (PyList.len pre + 1) e.
Proof.
  intros HL Hne He Hch.
  set (c := mkChunk fp (join_lines cur) (PyList.len pre + 1) e ctype).
  refine (chain_snoc adjacent fp L 1 0 chunks s1 (PyList.len pre) c Hch _ _ _ _ _);
    subst c; cbn [start_line end_line content file_path].
  - reflexivity.
  - destruct cur; [congruence|]. len_lia.
  - subst L. len_lia.
  - reflexivity.
  - f_equal. symmetry. subst L. now apply slice_mid.
Qed.

Lemma main_loop_inv fp L n :
  forall rest, (length rest <= n)%nat ->
  forall done i chunks cur cstart ctype,
    L = done ++ rest -> i = PyList.len done ->
    main_inv fp L done chunks cur cstart ->
    let '(chunks', cur', cstart', _) :=
      main_loop fp rest i chunks cur cstart ctype in
    main_inv fp L L chunks' cur' cstart'.
Proof.
  induction n as [|n IH]; intros rest Hlen done i chunks cur cstart ctype HL Hi Hinv.
  - destruct rest; [|cbn in Hlen; lia]. cbn. rewrite app_nil_r in HL. now subst.
  - destruct rest as [|line rest].
    { cbn. rewrite app_nil_r in HL. now subst. }
    cbn [length] in Hlen.
    destruct (is_def line) eqn:Hd.
    + rewrite main_loop_def_eq by assumption. cbv zeta.
      pose proof (collect_body_app (def_indent line) rest) as Happ.
      destruct (collect_body (def_indent line) rest) as [taken remaining].
      apply (IH remaining) with (done := done ++ [line] ++ taken).
      * subst rest. rewrite length_app in Hlen. lia.
      * subst rest. rewrite HL. rewrite <- !app_assoc. reflexivity.
      * len_lia.
      * destruct Hinv as (pre & s1 & Hdone & Hcs & Hch).
        destruct cur as [|x cur].
        -- cbn [PyList.truthy]. exists done, s1. rewrite app_nil_r in Hdone. subst pre.
           repeat split; [lia|assumption].
        -- cbn [PyList.truthy]. exists done, cstart. split; [reflexivity|]. split; [lia|].
           subst cstart. replace (PyList.len done) with i by lia.
           eapply main_inv_emit with (post := line :: rest); try eassumption.
           ++ rewrite HL, Hdone, <- app_assoc. reflexivity.
           ++ discriminate.
           ++ subst done. len_lia.
    + rewrite main_loop_nodef_eq by assumption.
      apply (IH rest) with (done := done ++ [line]).
      * lia.
      * rewrite HL, <- app_assoc. reflexivity.
      * len_lia.
      * destruct Hinv as (pre & s1 & Hdone & Hcs & Hch).
        exists pre, s1. subst done. rewrite <- app_assoc. auto.
Qed.

Lemma extract_chain content fp :
  exists s1,
    chain adjacent fp (split_lines content) 1 0
      (extract_python_chunks content fp) s1 (PyList.len (split_lines content)).
Proof.
  unfold extract_python_chunks. cbv zeta.
  set (L := split_lines content).
  pose proof (main_loop_inv fp L (length L) L (le_n _) [] 0 [] [] 1 "block"
                eq_refl eq_refl) as H.
  destruct (main_loop fp L 0 [] [] 1 "block") as [[[chunks cur] cstart] ctype].
  destruct H as (pre & s1 & HL & Hcs & Hch).
  { exists [], 1. cbn. repeat split; lia. }
  destruct cur as [|x cur]; cbn [PyList.truthy].
  - rewrite app_nil_r in HL. subst pre. eauto.
  - exists cstart. subst cstart.
    eapply main_inv_emit with (post := []); try eassumption.
    + rewrite app_nil_r. assumption.
    + discriminate.
    + rewrite HL. len_lia.
Qed.

(** *** The fixed-size chunker *)

Lemma chars_of_app l1 l2 : chars_of (l1 ++ l2) = chars_of l1 + chars_of l2.
Proof. induction l1 as [|x l1 IH]; cbn; [reflexivity|]. fold (chars_of (l1 ++ l2)). fold (chars_of l1). lia. Qed.

Lemma chars_of_cons x l : chars_of (x :: l) = PyStr.len x + 1 + chars_of l.
Proof. reflexivity. Qed.

Lemma join_chars ls : ls <> [] -> PyStr.len (join_lines ls) + 1 = chars_of ls.
Proof.
  induction ls as [|l ls IH]; intros Hne; [congruence|].
  destruct ls as [|l' ls].
  - cbn. lia.
  - rewrite join_cons by discriminate. rewrite chars_of_cons.
    rewrite <- IH by discriminate. unfold PyStr.len.
    rewrite length_append. cbn [String.length]. lia.
Qed.

Lemma overlap_loop_spec overlap r : forall acc n,
  exists taken rest,
    r = taken ++ rest /\
    overlap_loop overlap r acc n = (rev taken ++ acc, n + chars_of taken).
Proof.
  induction r as [|ln r IH]; intros acc n; cbn [overlap_loop].
  - exists [], []. cbn. split; [reflexivity|]. f_equal. lia.
  - destruct (n + PyStr.len ln >? overlap).
    + exists [], (ln :: r). cbn. split; [reflexivity|]. f_equal. lia.
    + destruct (IH (ln :: acc) (n + PyStr.len ln + 1)) as (taken & rest & -> & Heq).
      exists (ln :: taken), rest. split; [reflexivity|].
      rewrite Heq. cbn [rev]. rewrite <- app_assoc. cbn [app].
      f_equal. rewrite chars_of_cons. lia.
Qed.

Lemma chars_of_rev l : chars_of (rev l) = chars_of l.
Proof.
  induction l as [|x l IH]; [reflexivity|].
  cbn [rev]. rewrite chars_of_app, IH, !chars_of_cons. cbn. lia.
Qed.

Lemma window_spec overlap ls :
  exists p,
    ls = p ++ window overlap ls /\
    overlap_loop overlap (rev ls) [] 0 =
      (window overlap ls, chars_of (window overlap ls)).
Proof.
  unfold window.
  destruct (overlap_loop_spec overlap (rev ls) [] 0) as (taken & rest & Hr & Heq).
  rewrite Heq. cbn [fst]. rewrite app_nil_r.
  exists (rev rest). split.
  - rewrite <- (rev_involutive ls), Hr, rev_app_distr. reflexivity.
  - f_equal. rewrite chars_of_rev. lia.
Qed.

Lemma window_snoc overlap ls x :
  window overlap (ls ++ [x]) <> [] <-> PyStr.len x <= overlap.
Proof.
  unfold window. rewrite rev_app_distr. cbn [rev app overlap_loop].
  rewrite Z.add_0_l.
  destruct (PyStr.len x >? overlap) eqn:Hx.
  - cbn. split; [congruence|lia].
  - destruct (overlap_loop_spec overlap (rev ls) [x] (PyStr.len x + 1))
      as (taken & rest & _ & Heq).
    rewrite Heq. cbn [fst]. split; [lia|]. intros _.
    destruct (rev taken); discriminate.
Qed.

(** The loop of the overlap stops at a line only when the line does not
    fit, and what it has taken then fits. *)
Lemma overlap_loop_max overlap r : forall acc n,
  exists taken rest,
    r = taken ++ rest /\
    overlap_loop overlap r acc n = (rev taken ++ acc, n + chars_of taken) /\
    (taken <> [] -> n + chars_of taken - 1 <= overlap) /\
    (forall ln rest', rest = ln :: rest' ->
       overlap < n + chars_of taken + PyStr.len ln).
Proof.
  induction r as [|ln r IH]; intros acc n; cbn [overlap_loop].
  - exists [], []. cbn. split; [reflexivity|]. split; [f_equal; lia|].
    split; [congruence|discriminate].
  - destruct (n + PyStr.len ln >? overlap) eqn:Hgt.
    + exists [], (ln :: r). cbn. split; [reflexivity|].
      split; [f_equal; lia|]. split; [congruence|].
      intros ln' rest' [= <- <-]. lia.
    + destruct (IH (ln :: acc) (n + PyStr.len ln + 1))
        as (taken & rest & -> & Heq & Hfit & Hstop).
      exists (ln :: taken), rest. split; [reflexivity|].
      split; [|split].
      * rewrite Heq. cbn [rev]. rewrite <- app_assoc. cbn [app].
        f_equal. rewrite chars_of_cons. lia.
      * intros _. rewrite chars_of_cons.
        destruct taken as [|t taken]; [cbn; lia|].
        specialize (Hfit ltac:(discriminate)). lia.
      * intros ln' rest' Hrest. specialize (Hstop ln' rest' Hrest).
        rewrite chars_of_cons. lia.
Qed.

Lemma chars_of_lower ls : 0 <= chars_of ls.
Proof.
  induction ls as [|l ls IH]; [cbn; lia|].
  rewrite chars_of_cons. unfold PyStr.len. lia.
Qed.

Lemma app_longer {A} (l2 : list A) : forall l1 k1 k2,
  l1 ++ k1 = l2 ++ k2 -> (length l2 < length l1)%nat ->
  exists x t, l1 = l2 ++ x :: t /\ k2 = x :: t ++ k1.
Proof.
  induction l2 as [|y l2 IH]; intros l1 k1 k2 Heq Hlen.
  - destruct l1 as [|x t]; [cbn in Hlen; lia|].
    exists x, t. cbn in Heq |- *. auto.
  - destruct l1 as [|x l1]; [cbn in Hlen; lia|].
    cbn in Heq. injection Heq as -> Heq.
    destruct (IH l1 k1 k2 Heq) as (x & t & -> & ->); [cbn in Hlen; lia|].
    exists x, t. auto.
Qed.

(** The window the loop computes is the longest run of last lines that the
    budget admits. *)
Lemma window_longest overlap ls :
  longest_admitted overlap ls (window overlap ls).
Proof.
  unfold window.
  destruct (overlap_loop_max overlap (rev ls) [] 0)
    as (taken & rest & Hr & Heq & Hfit & Hstop).
  rewrite Heq. cbn [fst]. rewrite app_nil_r.
  assert (Hls : ls = rev rest ++ rev taken)
    by (rewrite <- (rev_involutive ls), Hr, rev_app_distr; reflexivity).
  split; [exists (rev rest); exact Hls|]. split.
  - destruct taken as [|t taken]; [left; reflexivity|right].
    specialize (Hfit ltac:(discriminate)).
    assert (Hne : rev (t :: taken) <> [])
      by (cbn [rev]; destruct (rev taken); discriminate).
    pose proof (join_chars _ Hne) as Hj. rewrite chars_of_rev in Hj. lia.
  - intros w' [p' Hp'] Hadm.
    destruct (Nat.le_gt_cases (length w') (length (rev taken)))
      as [Hle|Hgt]; [exact Hle|exfalso].
    assert (Hrev : rev w' ++ rev p' = taken ++ rest)
      by (rewrite <- rev_app_distr, <- Hp', <- Hr; reflexivity).
    destruct (app_longer taken (rev w') (rev p') rest Hrev)
      as (x & t & Hw & Hrest).
    { rewrite length_rev in *. lia. }
    specialize (Hstop x (t ++ rev p') Hrest).
    destruct Hadm as [->|Hadm]; [destruct taken; discriminate|].
    assert (Hne : w' <> []) by (intros ->; destruct taken; discriminate).
    pose proof (join_chars _ Hne) as Hj.
    rewrite <- (chars_of_rev w'), Hw, chars_of_app, chars_of_cons in Hj.
    pose proof (chars_of_lower t). lia.
Qed.

Lemma size_loop_inv size overlap fp L :
  forall rest done i chunks cur chars cstart,
    L = done ++ rest -> i = PyList.len done + 1 ->
    size_inv size overlap fp L done chunks cur chars cstart ->
    let '(chunks', cur', cstart') :=
      size_loop size overlap fp rest i chunks cur chars cstart in
    exists chars', size_inv size overlap fp L L chunks' cur' chars' cstart'.
Proof.
  induction rest as [|line rest IH]; intros done i chunks cur chars cstart HL Hi Hinv.
  - cbn. rewrite app_nil_r in HL. subst L. eauto.
  - cbn [size_loop]. cbv zeta.
    destruct Hinv as (pre & s1 & e1 & Hdone & Hcs & Hchars & Hch & Hlink & He1 & Hall).
    assert (HL' : L = pre ++ (cur ++ [line]) ++ rest).
    { rewrite HL, Hdone, <- !app_assoc. reflexivity. }
    destruct (chars + PyStr.len line + 1 >=? size) eqn:Hsz.
    + destruct (window_spec overlap (cur ++ [line])) as (p & Hp & Hov).
      rewrite Hov.
      set (w := window overlap (cur ++ [line])) in *.
      set (c := mkChunk fp (join_lines (cur ++ [line])) cstart i "block").
      assert (Hslice : slice L cstart i = cur ++ [line]).
      { rewrite HL'. apply slice_mid; [assumption|]. subst done. len_lia. }
      apply (IH (done ++ [line])).
      * rewrite HL, <- app_assoc. reflexivity.
      * len_lia.
      * exists (pre ++ p), cstart, i. repeat split.
        -- rewrite Hdone, <- !app_assoc. f_equal. exact Hp.
        -- assert (PyList.len (cur ++ [line]) = PyList.len p + PyList.len w)
             by (rewrite Hp at 1; apply len_app).
           subst done. len_lia.
        -- refine (chain_snoc _ fp L 1 0 chunks s1 e1 c Hch _ _ _ _ _);
             subst c; cbn [start_line end_line content file_path].
           ++ exact Hlink.
           ++ subst done. len_lia.
           ++ subst done L. len_lia.
           ++ reflexivity.
           ++ now rewrite Hslice.
        -- unfold windowed. rewrite Hslice. reflexivity.
        -- len_lia.
        -- apply Forall_app. split; [assumption|]. constructor; [|constructor].
           subst c. cbn [content]. rewrite join_chars by (destruct cur; discriminate).
           rewrite chars_of_app, chars_of_cons. cbn [chars_of foldr]. lia.
    + apply (IH (done ++ [line])).
      * rewrite HL, <- app_assoc. reflexivity.
      * len_lia.
      * exists pre, s1, e1. repeat split; try assumption.
        -- rewrite Hdone, <- app_assoc. reflexivity.
        -- rewrite chars_of_app, chars_of_cons. cbn [chars_of foldr]. lia.
        -- len_lia.
Qed.

Lemma size_chain size overlap content fp :
  let L := split_lines content in
  let cs := chunk_by_size_with size overlap content fp in
  exists s1,
    chain (windowed overlap L) fp L 1 0 cs s1 (PyList.len L) /\
    (forall i c, cs !! i = Some c -> (S i < length cs)%nat ->
                 size <= PyStr.len (Ingest.content c) + 1).
Proof.
  cbv zeta. unfold chunk_by_size_with. cbv zeta.
  set (L := split_lines content).
  pose proof (size_loop_inv size overlap fp L L [] 1 [] [] 0 1 eq_refl eq_refl) as H.
  destruct (size_loop size overlap fp L 1 [] [] 0 1) as [[chunks cur] cstart].
  destruct H as (chars & pre & s1 & e1 & HL & Hcs & Hchars & Hch & Hlink & He1 & Hall).
  { exists [], 1, 0. repeat split; try (cbn; lia); try constructor.
    apply len_nonneg. }
  destruct cur as [|x cur]; cbn [PyList.truthy].
  - exists s1. rewrite app_nil_r in HL. subst pre. split.
    + replace (PyList.len L) with e1; [assumption|].
      unfold windowed in Hlink. pose proof (len_nonneg (window overlap (slice L s1 e1))). lia.
    + intros i c Hi _. rewrite Forall_forall in Hall. apply Hall.
      eapply list_elem_of_lookup_2. eassumption.
  - exists cstart. split.
    + set (c := mkChunk fp (join_lines (x :: cur)) cstart (PyList.len L) "block").
      refine (chain_snoc _ fp L 1 0 chunks s1 e1 c Hch _ _ _ _ _);
        subst c; cbn [start_line end_line Ingest.content file_path].
      * exact Hlink.
      * rewrite HL. len_lia.
      * lia.
      * reflexivity.
      * f_equal. symmetry. rewrite HL at 1. rewrite <- (app_nil_r (x :: cur)) at 1.
        apply slice_mid; [assumption|]. rewrite HL. len_lia.
    + intros i c Hi Hlt. rewrite length_app in Hlt. cbn [length] in Hlt.
      rewrite lookup_app_l in Hi by lia.
      rewrite Forall_forall in Hall. apply Hall.
      eapply list_elem_of_lookup_2. eassumption.
Qed.

(** *** What a chain of adjacent chunks gives *)

Lemma chain_adjacent_after fp L cs : forall s e s1 e1,
  chain adjacent fp L s e cs s1 e1 ->
  forall d, d ∈ cs ->
    e < start_line d /\ start_line d <= end_line d /\ end_line d <= e1.
Proof.
  induction cs as [|c cs IH]; intros s e s1 e1 Hc d Hd.
  - inversion Hd.
  - cbn in Hc. destruct Hc as (A & B & C & D & E & F). unfold adjacent in A.
    pose proof (chain_end_le _ _ _ _ _ _ _ _ F) as Hle.
    apply elem_of_cons in Hd as [->|Hd].
    + lia.
    + destruct (IH _ _ _ _ F d Hd) as (G & H & I). lia.
Qed.

Lemma chain_adjacent_ascending fp L cs : forall s e s1 e1,
  chain adjacent fp L s e cs s1 e1 ->
  forall i j c d, cs !! i = Some c -> cs !! j = Some d -> (i < j)%nat ->
    end_line c < start_line d.
Proof.
  induction cs as [|x cs IH]; intros s e s1 e1 Hc i j c d Hi Hj Hlt.
  - discriminate.
  - cbn in Hc. destruct Hc as (A & B & C & D & E & F).
    destruct j as [|j]; [lia|]. cbn in Hj.
    destruct i as [|i].
    + cbn in Hi. injection Hi as <-.
      apply (chain_adjacent_after _ _ _ _ _ _ _ F).
      eapply list_elem_of_lookup_2. eassumption.
    + cbn in Hi. eapply IH; try eassumption. lia.
Qed.

Lemma chain_adjacent_cover fp L cs : forall s e s1 e1,
  chain adjacent fp L s e cs s1 e1 ->
  forall k,
    (k <= e -> List.filter (covers k) cs = []) /\
    (e < k <= e1 -> length (List.filter (covers k) cs) = 1%nat).
Proof.
  induction cs as [|c cs IH]; intros s e s1 e1 Hc k.
  - cbn in Hc. cbn. split; [reflexivity|lia].
  - cbn in Hc. destruct Hc as (A & B & C & D & E & F). unfold adjacent in A.
    destruct (IH _ _ _ _ F k) as [IH1 IH2].
    cbn [List.filter]. destruct (covers k c) eqn:Hcov; unfold covers in Hcov.
    + apply andb_true_iff in Hcov as [H1 H2]. split; [lia|].
      intros Hk. rewrite IH1 by lia. reflexivity.
    + apply andb_false_iff in Hcov. split; [intros; apply IH1; lia|].
      intros Hk. apply IH2. lia.
Qed.

(** *** Rebuilding a file from a chain of touching chunks *)

Lemma window_length overlap ls :
  0 <= PyList.len (window overlap ls) <= PyList.len ls.
Proof.
  destruct (window_spec overlap ls) as (p & Hp & _).
  split; [apply len_nonneg|]. rewrite Hp at 2. len_lia.
Qed.

Lemma adjacent_touching fp L cs s e s1 e1 :
  s <= e + 1 -> 1 <= s -> e <= PyList.len L ->
  chain adjacent fp L s e cs s1 e1 -> chain touching fp L s e cs s1 e1.
Proof.
  apply chain_mono. unfold adjacent, touching. intros. lia.
Qed.

Lemma windowed_touching overlap fp L cs s e s1 e1 :
  s <= e + 1 -> 1 <= s -> e <= PyList.len L ->
  chain (windowed overlap L) fp L s e cs s1 e1 ->
  chain touching fp L s e cs s1 e1.
Proof.
  apply chain_mono. unfold windowed, touching. intros s0 e0 st H1 H2 H3 ->.
  pose proof (window_length overlap (slice L s0 e0)) as Hw.
  rewrite slice_length in Hw by lia. lia.
Qed.

Lemma sort_by_start_chain fp L cs : forall s e s1 e1,
  chain touching fp L s e cs s1 e1 -> Retrieve.sort_by_start cs = cs.
Proof.
  induction cs as [|c cs IH]; intros s e s1 e1 Hc; [reflexivity|].
  cbn in Hc. destruct Hc as (A & B & C & D & E & F).
  cbn [Retrieve.sort_by_start foldr].
  fold (Retrieve.sort_by_start cs). rewrite (IH _ _ _ _ F).
  destruct cs as [|d cs]; [reflexivity|].
  cbn in F. destruct F as (A' & _). unfold touching in A'.
  cbn [Retrieve.insert_by_start].
  replace (start_line c <=? start_line d) with true by lia. reflexivity.
Qed.

Lemma filter_path_chain link fp L cs : forall s e s1 e1,
  chain link fp L s e cs s1 e1 ->
  List.filter (fun chunk => String.eqb (file_path chunk) fp) cs = cs.
Proof.
  induction cs as [|c cs IH]; intros s e s1 e1 Hc; [reflexivity|].
  cbn in Hc. destruct Hc as (A & B & C & D & E & F).
  cbn [List.filter]. rewrite D, String.eqb_refl. f_equal. eauto.
Qed.

Lemma combine_loop_chain fp L :
  Forall (fun l => has_newline l = false) L ->
  forall cs s e s1 e1 gs,
    chain touching fp L s e cs s1 e1 -> 0 <= e ->
    Forall nonempty_group gs -> concat gs = take (Z.to_nat e) L ->
    exists gs',
      Retrieve.combine_loop cs (map join_lines gs) e = map join_lines gs' /\
      Forall nonempty_group gs' /\ concat gs' = take (Z.to_nat e1) L.
Proof.
  intros Hnl. induction cs as [|c cs IH]; intros s e s1 e1 gs Hc He Hgs Hcat.
  - cbn in Hc. destruct Hc as [_ <-]. exists gs. cbn. auto.
  - cbn in Hc. destruct Hc as (A & B & C & D & E & F). unfold touching in A.
    cbn [Retrieve.combine_loop]. cbv zeta.
    replace (Z.max e (end_line c)) with (end_line c) by lia.
    assert (Hext : forall g, g = slice L (e + 1) (end_line c) -> e < end_line c ->
              exists gs', Retrieve.combine_loop cs (map join_lines gs ++ [join_lines g]) (end_line c)
                          = map join_lines gs' /\
                          Forall nonempty_group gs' /\ concat gs' = take (Z.to_nat e1) L).
    { intros g Hg Hlt.
      replace (map join_lines gs ++ [join_lines g]) with (map join_lines (gs ++ [g]))
        by (rewrite map_app; reflexivity).
      eapply IH; [eassumption|lia| |].
      - apply Forall_app. split; [assumption|]. constructor; [|constructor].
        subst g. apply slice_nonempty; lia.
      - rewrite concat_app. cbn [concat]. rewrite app_nil_r, Hcat, Hg.
        apply take_slice. lia. }
    destruct (start_line c >? e) eqn:H1.
    + assert (start_line c = e + 1) as Hs by lia.
      rewrite E, Hs. apply Hext; [reflexivity|lia].
    + destruct (end_line c >? e) eqn:H2.
      * assert (Hsplit : split_lines (content c) = slice L (start_line c) (end_line c)).
        { rewrite E. apply split_join; [apply slice_nonempty; lia|].
          unfold slice. apply Forall_take, Forall_drop. assumption. }
        rewrite Hsplit. rewrite slice_length by lia.
        replace (e - start_line c + 1 <? end_line c - start_line c + 1) with true by lia.
        unfold PyList.slice_from.
        replace (e - start_line c + 1 <? 0) with false by lia.
        rewrite drop_slice by lia.
        apply Hext; [reflexivity|lia].
      * assert (end_line c = e) as Hee by lia. rewrite Hee in F |- *.
        eapply IH; eauto.
Qed.

Lemma get_file_context_chain fp content cs s1 :
  chain touching fp (split_lines content) 1 0 cs s1
    (PyList.len (split_lines content)) ->
  Retrieve.get_file_context cs fp = Some content.
Proof.
  intros Hc. unfold Retrieve.get_file_context. cbv zeta.
  rewrite (filter_path_chain _ _ _ _ _ _ _ _ Hc).
  assert (Hne : cs <> []).
  { intros ->. cbn in Hc. destruct Hc as [_ Hc].
    pose proof (split_lines_nonempty content) as Hn.
    destruct (split_lines content); [congruence|]. cbn in Hc. len_lia. }
  destruct cs as [|c cs]; [congruence|]. cbn [PyList.truthy negb].
  rewrite (sort_by_start_chain _ _ _ _ _ _ _ Hc).
  destruct (combine_loop_chain fp (split_lines content)
              (split_lines_no_newline content) (c :: cs) 1 0 s1 _ [] Hc)
    as (gs' & Heq & Hgs & Hcat); [lia|constructor|reflexivity|].
  cbn [map] in Heq. rewrite Heq. f_equal.
  rewrite join_concat by exact Hgs.
  rewrite Hcat. unfold PyList.len. rewrite Nat2Z.id, firstn_all.
  apply join_split.
Qed.

(** *** Neighbours in a chain *)

Lemma chain_consecutive link fp L cs : forall s e s1 e1,
  chain link fp L s e cs s1 e1 ->
  forall i c1 c2, cs !! i = Some c1 -> cs !! S i = Some c2 ->
    link (start_line c1) (end_line c1) (start_line c2) /\
    end_line c1 <= end_line c2.
Proof.
  induction cs as [|x cs IH]; intros s e s1 e1 Hc i c1 c2 H1 H2.
  - discriminate.
  - cbn in Hc. destruct Hc as (A & B & C & D & E & F).
    destruct i as [|i].
    + cbn in H1. injection H1 as <-. cbn in H2.
      destruct cs as [|y cs]; [discriminate|]. cbn in H2. injection H2 as <-.
      cbn in F. destruct F as (A' & B' & C' & _). split; [assumption|lia].
    + cbn in H1, H2. eapply IH; eassumption.
Qed.

Lemma lines_of_chain link fp L cs s e s1 e1 c :
  Forall (fun l => has_newline l = false) L ->
  chain link fp L s e cs s1 e1 -> c ∈ cs ->
  lines_of c = slice L (start_line c) (end_line c).
Proof.
  intros Hnl Hc Hin.
  destruct (chain_elem _ _ _ _ _ _ _ _ Hc c Hin) as (A & B & C).
  unfold lines_of. rewrite C. apply split_join.
  - apply slice_nonempty; lia.
  - unfold slice. apply Forall_take, Forall_drop. assumption.
Qed.

Lemma slice_split L s m e :
  1 <= s -> s <= m + 1 -> m <= e ->
  slice L s e = slice L s m ++ slice L (m + 1) e.
Proof.
  intros H1 H2 H3. unfold slice.
  replace (Z.to_nat (m + 1 - 1)) with (Z.to_nat (s - 1) + Z.to_nat (m - s + 1))%nat by lia.
  rewrite <- drop_drop. rewrite take_take_drop. f_equal. lia.
Qed.

Lemma slice_tail L s e p w :
  1 <= s -> s <= e + 1 -> e <= PyList.len L ->
  slice L s e = p ++ w ->
  slice L (e - PyList.len w + 1) e = w.
Proof.
  intros H1 H2 H3 Heq.
  assert (Hlen : PyList.len p + PyList.len w = e - s + 1).
  { rewrite <- len_app, <- Heq. apply slice_length; lia. }
  pose proof (len_nonneg p). pose proof (len_nonneg w).
  pose proof (drop_slice L s (s + PyList.len p - 1) e) as Hd.
  replace (s + PyList.len p - 1 + 1) with (e - PyList.len w + 1) in Hd by lia.
  rewrite <- Hd by lia. rewrite Heq.
  replace (Z.to_nat (s + PyList.len p - 1 - s + 1)) with (length p)
    by (unfold PyList.len; lia).
  apply drop_app_length.
Qed.

End ChunkFacts.

(** ** The chunker *)

Module Chunker.

Import PyStr ChunkSpec StrFacts ChunkFacts Examples.

(** C1: the chunks of [extract_python_chunks] partition the lines of the
    file.  Taken in order, every chunk ends before the next one starts
    (ascending, no overlap), every chunk is a non-empty range of lines of
    the file, every line of the file lies in exactly one chunk, and a chunk
    holds the lines of its range. *)
Theorem extract_python_chunks_partition (content fp : string) :
  let L := split_lines content in
  let cs := extract_python_chunks content fp in
  (forall i j c d, cs !! i = Some c -> cs !! j = Some d -> (i < j)%nat ->
     end_line c < start_line d) /\
  (forall c, c ∈ cs ->
     1 <= start_line c <= end_line c /\ end_line c <= PyList.len L /\
     Ingest.content c = join_lines (slice L (start_line c) (end_line c))) /\
  (forall k, 1 <= k <= PyList.len L ->
     length (List.filter (covers k) cs) = 1%nat).
Proof.
  cbv zeta. destruct (extract_chain content fp) as (s1 & Hc).
  split; [|split].
  - exact (chain_adjacent_ascending _ _ _ _ _ _ _ Hc).
  - intros c Hin.
    destruct (chain_adjacent_after _ _ _ _ _ _ _ Hc c Hin) as (A & B & C).
    destruct (chain_elem _ _ _ _ _ _ _ _ Hc c Hin) as (D & E & F).
    repeat split; try lia. exact F.
  - intros k Hk.
    apply (chain_adjacent_cover _ _ _ _ _ _ _ Hc k). lia.
Qed.

(** Line 2 of the three-line module lies in exactly one chunk. *)
Lemma extract_python_chunks_partition_witness :
  length (List.filter (covers 2)
            (extract_python_chunks short_module "m.py")) = 1%nat.
Proof.
  apply (proj2 (proj2 (extract_python_chunks_partition short_module "m.py"))).
  vm_compute. split; discriminate.
Defined.

(** *** The body of a definition *)

Lemma body_stops_halts base l : body_stops base l = true <-> halts base l.
Proof.
  unfold body_stops, halts. cbv zeta.
  destruct (is_blank l), (is_def l); cbn [negb andb];
    destruct (Z.leb_spec (indent_of l) base), (Z.ltb_spec (indent_of l) base);
    intuition (try congruence; try lia).
Qed.

Lemma absorbed_not_stops base l :
  absorbed base l -> is_blank l = true \/ body_stops base l = false.
Proof.
  unfold absorbed. intros H.
  destruct (is_blank l) eqn:Hb; [now left|right].
  destruct (body_stops base l) eqn:Hs; [|reflexivity].
  apply body_stops_halts in Hs. unfold halts in Hs.
  destruct H as [H|[H|[H1 H2]]]; [congruence|lia|].
  destruct Hs as (_ & _ & [Hs|Hs]); [congruence|lia].
Qed.

Lemma collect_body_extent base body rest :
  Forall (absorbed base) body ->
  match rest with [] => True | stop :: _ => halts base stop end ->
  collect_body base (body ++ rest) = (body, rest).
Proof.
  intros Hbody Hrest. induction Hbody as [|x body Hx _ IH].
  - destruct rest as [|stop tail]; [reflexivity|].
    cbn [app collect_body]. destruct Hrest as (Hb & Hrest).
    rewrite Hb.
    assert (body_stops base stop = true) as ->
      by (apply body_stops_halts; split; assumption).
    reflexivity.
  - cbn [app collect_body]. rewrite IH.
    destruct (absorbed_not_stops _ _ Hx) as [->| ->]; [reflexivity|].
    destruct (is_blank x); reflexivity.
Qed.

(** C2, as the code has it: at a definition line [d] the chunker closes the
    chunk in progress and opens one of the definition's type at [d]; it adds
    the following lines to it as long as each is blank, indented deeper
    than [d], or at the indentation of [d] without opening a definition
    itself, and goes back to the outer loop at the first line that is not
    blank and either is indented less than [d] or opens a definition at the
    indentation of [d] or to its left (or at the end of the file); when
    that line opens a definition, the chunk of [d] is [d] and the lines
    added to it.  On the
    50-line module with a top-level function on lines 5-20 and a top-level
    class on lines 25-45 this gives block 1-4, function 5-24, class
    25-50. *)
Theorem definition_body_extent :
  (forall fp d body rest i chunks cur cstart ctype,
     is_def d = true ->
     Forall (absorbed (def_indent d)) body ->
     match rest with
     | [] => True
     | stop :: _ => halts (def_indent d) stop
     end ->
     main_loop fp (d :: body ++ rest) i chunks cur cstart ctype =
     main_loop fp rest (i + 1 + PyList.len body)
       (if PyList.truthy cur then
          chunks ++ [mkChunk fp (join_lines cur) cstart i ctype]
        else chunks)
       (d :: body) (i + 1) (def_type d)) /\
  (forall fp d body stop tail i chunks cur cstart ctype,
     is_def d = true ->
     Forall (absorbed (def_indent d)) body ->
     halts (def_indent d) stop -> is_def stop = true ->
     exists taken remaining,
       collect_body (def_indent stop) tail = (taken, remaining) /\
       main_loop fp (d :: body ++ stop :: tail) i chunks cur cstart ctype =
       main_loop fp remaining (i + 1 + PyList.len body + 1 + PyList.len taken)
         ((if PyList.truthy cur then
             chunks ++ [mkChunk fp (join_lines cur) cstart i ctype]
           else chunks) ++
          [mkChunk fp (join_lines (d :: body)) (i + 1)
             (i + 1 + PyList.len body) (def_type d)])
         (stop :: taken) (i + 1 + PyList.len body + 1) (def_type stop)) /\
  map summary (extract_python_chunks scenario "scenario.py") =
    [("block", 1, 4); ("function", 5, 24); ("class", 25, 50)].
Proof.
  assert (Hbody : forall fp d body rest i chunks cur cstart ctype,
     is_def d = true ->
     Forall (absorbed (def_indent d)) body ->
     match rest with
     | [] => True
     | stop :: _ => halts (def_indent d) stop
     end ->
     main_loop fp (d :: body ++ rest) i chunks cur cstart ctype =
     main_loop fp rest (i + 1 + PyList.len body)
       (if PyList.truthy cur then
          chunks ++ [mkChunk fp (join_lines cur) cstart i ctype]
        else chunks)
       (d :: body) (i + 1) (def_type d)).
  { intros fp d body rest i chunks cur cstart ctype Hd Hb Hrest.
    rewrite main_loop_def_eq by assumption. cbv zeta.
    rewrite collect_body_extent by assumption. reflexivity. }
  split; [exact Hbody|]. split; [|vm_compute; reflexivity].
  intros fp d body stop tail i chunks cur cstart ctype Hd Hb Hstop Hds.
  rewrite (Hbody fp d body (stop :: tail)) by assumption.
  rewrite main_loop_def_eq by assumption. cbv zeta.
  destruct (collect_body (def_indent stop) tail) as [taken remaining].
  exists taken, remaining. split; [reflexivity|]. reflexivity.
Qed.

(** The body of [def f():] takes an indented line and a top-level statement
    and stops at [def g():]. *)
Lemma definition_body_extent_witness :
  main_loop "m.py" ("def f():" :: ["    pass"; "x = 1"] ++ ["def g():"])
    0 [] [] 1 "block" =
  main_loop "m.py" ["def g():"] 3 [] ["def f():"; "    pass"; "x = 1"] 1
    "function".
Proof.
  apply (proj1 definition_body_extent "m.py" "def f():"
           ["    pass"; "x = 1"] ["def g():"] 0 [] [] 1 "block").
  - reflexivity.
  - constructor; [|constructor; [|constructor]].
    + right; left. vm_compute. reflexivity.
    + right; right. split; vm_compute; reflexivity.
  - change (halts (def_indent "def f():") "def g():").
    split; [vm_compute; reflexivity|].
    split; [vm_compute; discriminate|].
    left. vm_compute. reflexivity.
Defined.

(** C2, as stated, fails on the 50-line module: the four top-level lines
    after the function and the five after the class are not chunks of
    their own. *)
Lemma scenario_not_five_chunks :
  map summary (extract_python_chunks scenario "scenario.py") <>
    [("block", 1, 4); ("function", 5, 20); ("block", 21, 24);
     ("class", 25, 45); ("block", 46, 50)].
Proof. vm_compute. discriminate. Qed.

(** *** Chunking, then rebuilding the file *)

Lemma chunk_by_size_with_context size overlap content fp :
  Retrieve.get_file_context (chunk_by_size_with size overlap content fp) fp =
    Some content.
Proof.
  destruct (size_chain size overlap content fp) as (s1 & Hc & _).
  eapply get_file_context_chain.
  eapply windowed_touching; [lia..| |eassumption].
  apply len_nonneg.
Qed.

Lemma extract_python_chunks_context content fp :
  Retrieve.get_file_context (extract_python_chunks content fp) fp =
    Some content.
Proof.
  destruct (extract_chain content fp) as (s1 & Hc).
  eapply get_file_context_chain.
  eapply adjacent_touching; [lia..| |eassumption].
  apply len_nonneg.
Qed.

(** C3: chunking a file and rebuilding it with [get_file_context] gives the
    file back, for the structural chunker, for the fixed-size chunker with
    its overlap (whatever the target size and the overlap budget), and for
    [chunk_code], which chooses between them. *)
Theorem chunk_then_get_file_context
    (suffix_lower : string -> string) (content fp : string) :
  Retrieve.get_file_context (extract_python_chunks content fp) fp =
    Some content /\
  Retrieve.get_file_context (chunk_by_size content fp) fp = Some content /\
  (forall size overlap,
     Retrieve.get_file_context
       (chunk_by_size_with size overlap content fp) fp = Some content) /\
  Retrieve.get_file_context (chunk_code suffix_lower content fp) fp =
    Some content.
Proof.
  split; [apply extract_python_chunks_context|].
  split; [apply chunk_by_size_with_context|].
  split; [intros; apply chunk_by_size_with_context|].
  unfold chunk_code. cbv zeta.
  destruct (String.eqb (suffix_lower fp) ".py");
    [|apply chunk_by_size_with_context].
  pose proof (extract_python_chunks_context content fp) as H.
  destruct (extract_python_chunks content fp) as [|c [|d cs]]; try exact H.
  destruct (PyStr.len (Ingest.content c) >? CHUNK_SIZE * 2);
    [apply chunk_by_size_with_context|exact H].
Qed.

(** *** The empty text *)

(** C9, as stated, fails: the chunk sequence of the empty text is not
    empty, for a Python path and for another one. *)
Lemma chunk_code_empty_text_not_nil :
  chunk_code suffix_lower "" "empty.py" <> [] /\
  chunk_code suffix_lower "" "empty.txt" <> [].
Proof. split; vm_compute; discriminate. Qed.

(** *** The fixed-size chunker *)

(** C8, as the code has it: every chunk of [chunk_by_size] but the last has
    a content of at least [size - 1] characters (the count that reaches
    [size] has one newline for every line, the content has none after its
    last line); and a chunk starts with the overlap window of the chunk
    before it, the last lines of that chunk that the budget admits, which
    has a line exactly when the last line of that chunk has at most
    [overlap] characters.  The window is the longest run of the last lines
    of that chunk that the budget admits: joined by newlines it has at most
    [overlap] characters, and no run of last lines with more lines has. *)
Theorem chunk_by_size_with_bounds (size overlap : Z) (content fp : string) :
  let cs := chunk_by_size_with size overlap content fp in
  (forall i c, cs !! i = Some c -> (S i < length cs)%nat ->
     size <= PyStr.len (Ingest.content c) + 1) /\
  (forall i c1 c2, cs !! i = Some c1 -> cs !! S i = Some c2 ->
     let w := window overlap (lines_of c1) in
     w `suffix_of` lines_of c1 /\ w `prefix_of` lines_of c2 /\
     start_line c2 = end_line c1 - PyList.len w + 1 /\
     (w <> [] <->
      exists x, last (lines_of c1) = Some x /\ PyStr.len x <= overlap) /\
     longest_admitted overlap (lines_of c1) w).
Proof.
  cbv zeta. destruct (size_chain size overlap content fp) as (s1 & Hc & Hsz).
  split; [exact Hsz|].
  intros i c1 c2 H1 H2.
  set (L := split_lines content) in *.
  pose proof (split_lines_no_newline content) as Hnl. fold L in Hnl.
  assert (Hin1 : c1 ∈ chunk_by_size_with size overlap content fp)
    by (eapply list_elem_of_lookup_2; eassumption).
  assert (Hin2 : c2 ∈ chunk_by_size_with size overlap content fp)
    by (eapply list_elem_of_lookup_2; eassumption).
  rewrite (lines_of_chain _ _ _ _ _ _ _ _ c1 Hnl Hc Hin1).
  rewrite (lines_of_chain _ _ _ _ _ _ _ _ c2 Hnl Hc Hin2).
  destruct (chain_elem _ _ _ _ _ _ _ _ Hc c1 Hin1) as (A1 & B1 & _).
  destruct (chain_elem _ _ _ _ _ _ _ _ Hc c2 Hin2) as (A2 & B2 & _).
  destruct (chain_consecutive _ _ _ _ _ _ _ _ Hc i c1 c2 H1 H2) as (Hlink & Hle).
  unfold windowed in Hlink.
  set (ls := slice L (start_line c1) (end_line c1)) in *.
  destruct (window_spec overlap ls) as (p & Hp & _).
  set (w := window overlap ls) in *.
  split; [exists p; exact Hp|].
  split.
  - exists (slice L (end_line c1 + 1) (end_line c2)).
    rewrite (slice_split L (start_line c2) (end_line c1) (end_line c2)) by
      (pose proof (len_nonneg w); lia).
    f_equal. rewrite Hlink. eapply slice_tail; [| | |exact Hp]; lia.
  - split; [exact Hlink|].
    split; [|apply window_longest].
    assert (Hne : ls <> []) by (apply slice_nonempty; lia).
    destruct (exists_last Hne) as (ls' & x & Hls).
    subst w. rewrite Hls. rewrite last_snoc.
    rewrite window_snoc. split.
    + intros Hx. exists x. split; [reflexivity|assumption].
    + intros (y & Hy & Hlen). injection Hy as <-. assumption.
Qed.

(** With the target size 10 and the budget 5, the second of four short
    lines closes the first chunk and seeds the second. *)
Lemma chunk_by_size_with_bounds_witness :
  let c1 := mkChunk "f" (join_lines ["abcdefg"; "hi"]) 1 2 "block" in
  let c2 := mkChunk "f" (join_lines ["hi"; "jk"; "l"]) 2 4 "block" in
  10 <= PyStr.len (Ingest.content c1) + 1 /\
  window 5 (lines_of c1) `prefix_of` lines_of c2 /\
  start_line c2 = end_line c1 - PyList.len (window 5 (lines_of c1)) + 1 /\
  longest_admitted 5 (lines_of c1) (window 5 (lines_of c1)).
Proof.
  intros c1 c2.
  pose proof (chunk_by_size_with_bounds 10 5
                (join_lines ["abcdefg"; "hi"; "jk"; "l"]) "f") as [H1 H2].
  split.
  - apply (H1 0%nat c1); [reflexivity|vm_compute; lia].
  - destruct (H2 0%nat c1 c2 eq_refl eq_refl) as (_ & Hp & Hs & _ & Hmax).
    split; [exact Hp|]. split; [exact Hs|exact Hmax].
Defined.

(** C8, as stated, fails on a file whose first line has 1499 characters:
    with the target size 1500 and the overlap budget 200 the first chunk is
    that line alone, 1499 characters, and shares no line with the second. *)
Lemma long_line_not_sized :
  ~ sized_with_shared_lines CHUNK_SIZE CHUNK_OVERLAP
      (chunk_by_size long_line_file "a.txt").
Proof.
  intros [H _].
  assert (Hcs : chunk_by_size long_line_file "a.txt" =
                [mkChunk "a.txt" (repeat_char "a" 1499) 1 1 "block";
                 mkChunk "a.txt" "b" 2 2 "block"])
    by (vm_compute; reflexivity).
  rewrite Hcs in H.
  specialize (H 0%nat _ eq_refl ltac:(cbn; lia)).
  vm_compute in H. apply H. reflexivity.
Qed.

End Chunker.

(** ** The scanner *)

Module Scanner.

Import Tools Scan ScanSpec Examples.

Lemma dir_tree_nested_ind (P : dir_tree -> Prop) :
  (forall d dirs filenames, Forall P dirs -> P (Dir d dirs filenames)) ->
  forall t, P t.
Proof.
  intros H. fix IH 1. intros [d dirs filenames]. apply H.
  induction dirs as [|sub dirs IHdirs]; constructor; [apply IH|exact IHdirs].
Qed.

Section Scanner.

Variable suffix_lower : string -> string.

Lemma walk_visited repo t : forall root,
  walk suffix_lower repo root t =
  flat_map (fun '(r, f) => load_file suffix_lower repo r f) (visited root t).
Proof.
  induction t as [d dirs filenames IH] using dir_tree_nested_ind.
  intros root. cbn [walk visited]. rewrite flat_map_app. f_equal.
  - induction filenames as [|f fs IHf]; [reflexivity|].
    cbn [flat_map map]. now rewrite IHf.
  - induction IH as [|sub dirs Hsub _ IHdirs]; [reflexivity|].
    destruct (ignored (name_of sub)); [exact IHdirs|].
    rewrite flat_map_app, Hsub, IHdirs. reflexivity.
Qed.

Lemma load_file_elem repo root f p rel content :
  (p, rel, content) ∈ load_file suffix_lower repo root f <->
  p = path_join root (name f) /\ rel = get_relative_path p repo /\
  is_supported_file suffix_lower p = true /\ is_file_too_large f = false /\
  read_file_content f = Some content /\ content <> "".
Proof.
  unfold load_file. cbv zeta.
  destruct (is_supported_file suffix_lower (path_join root (name f))) eqn:Hs;
    cbn [negb].
  2:{ split; [intros H; inversion H|]. intros (-> & _ & H & _). congruence. }
  destruct (is_file_too_large f) eqn:Hl.
  { split; [intros H; inversion H|]. intros (_ & _ & _ & H & _). congruence. }
  destruct (read_file_content f) as [[|c s]|] eqn:Hr.
  - split; [intros H; inversion H|]. intros (_ & _ & _ & _ & H & Hne). congruence.
  - rewrite list_elem_of_singleton. split.
    + intros [= -> -> ->]. repeat split; congruence.
    + intros (-> & -> & _ & _ & [= ->] & _). reflexivity.
  - split; [intros H; inversion H|]. intros (_ & _ & _ & _ & H & _). congruence.
Qed.

(** C10: [load_files] yields a triple only for a file it reaches that is
    supported, not too large and read with a content that is not the empty
    string, and it yields one for every such file: a file whose reading
    fails and a file whose content is the empty string give nothing.  So
    every chunk of [ingest_repository] comes from a file with a non-empty
    content. *)
Theorem load_files_nonempty_content (repo : Path) (fs : option dir_tree) :
  (forall root f,
     read_file_content f = None \/ read_file_content f = Some "" ->
     load_file suffix_lower repo root f = []) /\
  (forall triples, load_files suffix_lower repo fs = inr triples ->
     forall p rel content,
       (p, rel, content) ∈ triples <->
       exists t root f,
         fs = Some t /\ (root, f) ∈ visited repo t /\
         p = path_join root (name f) /\ rel = get_relative_path p repo /\
         is_supported_file suffix_lower p = true /\
         is_file_too_large f = false /\
         read_file_content f = Some content /\ content <> "") /\
  (forall chunks, ingest_repository suffix_lower repo fs = inr chunks ->
     forall c, c ∈ chunks ->
       exists p rel content triples,
         load_files suffix_lower repo fs = inr triples /\
         (p, rel, content) ∈ triples /\ content <> "" /\
         c ∈ chunk_code suffix_lower content rel).
Proof.
  assert (Hyield : forall t p rel content,
    (p, rel, content) ∈ walk suffix_lower repo repo t <->
    exists root f, (root, f) ∈ visited repo t /\
      p = path_join root (name f) /\ rel = get_relative_path p repo /\
      is_supported_file suffix_lower p = true /\
      is_file_too_large f = false /\
      read_file_content f = Some content /\ content <> "").
  { intros t p rel content. rewrite walk_visited.
    rewrite list_elem_of_In, in_flat_map. split.
    - intros ([root f] & Hin & Hy). exists root, f.
      apply list_elem_of_In in Hin, Hy. split; [assumption|].
      now apply load_file_elem.
    - intros (root & f & Hin & Hy). exists (root, f).
      rewrite <- !list_elem_of_In. split; [assumption|].
      now apply load_file_elem. }
  split; [|split].
  - intros root f Hr. unfold load_file. cbv zeta.
    destruct (is_supported_file _ _); cbn [negb]; [|reflexivity].
    destruct (is_file_too_large f); [reflexivity|].
    destruct Hr as [-> | ->]; reflexivity.
  - intros triples Hload p rel content.
    destruct fs as [t|]; [|discriminate]. cbn in Hload. injection Hload as <-.
    rewrite Hyield. split.
    + intros (root & f & H). exists t, root, f. split; [reflexivity|exact H].
    + intros (t' & root & f & [= <-] & H). exists root, f. exact H.
  - intros chunks Hing c Hc. unfold ingest_repository in Hing.
    destruct fs as [t|]; [|discriminate]. cbn [load_files] in *.
    injection Hing as <-.
    apply list_elem_of_In, in_flat_map in Hc as ([[p rel] content] & Hin & Hc).
    apply list_elem_of_In in Hin, Hc.
    exists p, rel, content, (walk suffix_lower repo repo t).
    split; [reflexivity|]. split; [assumption|]. split; [|assumption].
    apply Hyield in Hin as (root & f & _ & _ & _ & _ & _ & _ & Hne). exact Hne.
Qed.

End Scanner.

(** In the small repository the empty [__init__.py] yields nothing and
    [main.py] yields its triple. *)
Lemma load_files_nonempty_content_witness :
  load_file suffix_lower ["repo"] ["repo"; "pkg"]
    (mkFile "__init__.py" (Some 0) (reads "")) = [] /\
  ((["repo"; "main.py"], "main.py", "x = 1") ∈
     walk suffix_lower ["repo"] ["repo"] small_repo).
Proof.
  pose proof (load_files_nonempty_content suffix_lower ["repo"]
                (Some small_repo)) as (H1 & H2 & _).
  split.
  - apply H1. right. reflexivity.
  - apply (H2 _ eq_refl).
    exists small_repo, ["repo"], (mkFile "main.py" (Some 5) (reads "x = 1")).
    split; [reflexivity|].
    split; [vm_compute; apply list_elem_of_here|].
    repeat split; try reflexivity. discriminate.
Defined.

End Scanner.

(** ** Empty texts and empty files *)

Module EmptyFiles.

Import Tools Scan ScanSpec.

Section EmptyFiles.

Variable suffix_lower : string -> string.

Lemma load_file_reads_empty repo root f :
  reads_empty f = true -> load_file suffix_lower repo root f = [].
Proof.
  unfold reads_empty, load_file. cbv zeta. intros Hr.
  destruct (is_supported_file _ _); cbn [negb]; [|reflexivity].
  destruct (is_file_too_large f); [reflexivity|].
  destruct (read_file_content f) as [[|c r]|]; try discriminate. reflexivity.
Qed.

Lemma flat_map_filter_nil {A C} (p : A -> bool) (g : A -> list C) l :
  (forall x, p x = false -> g x = []) ->
  flat_map g (List.filter p l) = flat_map g l.
Proof.
  intros Hg. induction l as [|x l IH]; [reflexivity|].
  cbn [List.filter flat_map]. destruct (p x) eqn:Hp.
  - cbn [flat_map]. now rewrite IH.
  - now rewrite (Hg x Hp), IH.
Qed.

Lemma name_of_without_empty t : name_of (without_empty t) = name_of t.
Proof. destruct t. reflexivity. Qed.

Lemma walk_without_empty repo t : forall root,
  walk suffix_lower repo root (without_empty t) =
  walk suffix_lower repo root t.
Proof.
  induction t as [d dirs filenames IH] using Scanner.dir_tree_nested_ind.
  intros root. cbn [without_empty walk]. f_equal.
  - apply flat_map_filter_nil. intros f Hf.
    apply load_file_reads_empty. now destruct (reads_empty f).
  - induction IH as [|sub dirs Hsub _ IHdirs]; [reflexivity|].
    cbn [map]. rewrite name_of_without_empty.
    destruct (ignored (name_of sub)); [exact IHdirs|].
    now rewrite Hsub, IHdirs.
Qed.

(** C9, as the code has it: for the empty text [chunk_code] returns one
    chunk, a block with empty content on line 1, whatever the path and its
    extension.  In [ingest_repository] empty files give no chunks all the
    same, because [load_files] drops them before [chunk_code] is called: a
    file read as the empty string yields nothing, so the triples and the
    chunks of a repository are those of the repository without its empty
    files, and every chunk comes from a call of [chunk_code] on a content
    that is not empty. *)
Theorem chunk_code_empty_text :
  (forall fp,
     chunk_code suffix_lower "" fp = [mkChunk fp "" 1 1 "block"]) /\
  (forall repo root f,
     read_file_content f = Some "" ->
     load_file suffix_lower repo root f = []) /\
  (forall repo t,
     load_files suffix_lower repo (Some (without_empty t)) =
       load_files suffix_lower repo (Some t) /\
     ingest_repository suffix_lower repo (Some (without_empty t)) =
       ingest_repository suffix_lower repo (Some t)) /\
  (forall repo fs chunks,
     ingest_repository suffix_lower repo fs = inr chunks ->
     forall c, c ∈ chunks ->
       exists rel content,
         content <> "" /\ c ∈ chunk_code suffix_lower content rel).
Proof.
  split; [|split; [|split]].
  - intros fp. unfold chunk_code. cbv zeta.
    destruct (String.eqb (suffix_lower fp) ".py"); reflexivity.
  - intros repo root f Hr. apply load_file_reads_empty.
    unfold reads_empty. now rewrite Hr.
  - intros repo t. unfold ingest_repository, load_files.
    now rewrite walk_without_empty.
  - intros repo fs chunks Hing c Hc. unfold ingest_repository in Hing.
    destruct fs as [t|]; [|discriminate]. cbn [load_files] in Hing.
    injection Hing as <-.
    apply list_elem_of_In, in_flat_map in Hc as ([[p rel] content] & Hin & Hc).
    apply list_elem_of_In in Hc. exists rel, content. split; [|exact Hc].
    rewrite Scanner.walk_visited in Hin.
    apply in_flat_map in Hin as ([root f] & _ & Hy).
    apply list_elem_of_In, Scanner.load_file_elem in Hy.
    tauto.
Qed.

End EmptyFiles.

(** The small repository: its empty file yields nothing, and the chunks are
    those of the repository without it. *)
Lemma chunk_code_empty_text_witness :
  load_file Examples.suffix_lower ["repo"] ["repo"; "pkg"]
    (mkFile "__init__.py" (Some 0) (Examples.reads "")) = [] /\
  ingest_repository Examples.suffix_lower ["repo"]
    (Some (without_empty Examples.small_repo)) =
  ingest_repository Examples.suffix_lower ["repo"]
    (Some Examples.small_repo).
Proof.
  pose proof (chunk_code_empty_text Examples.suffix_lower)
    as (_ & Hdrop & Hsame & _).
  split.
  - apply Hdrop. reflexivity.
  - apply (Hsame ["repo"] Examples.small_repo).
Defined.

End EmptyFiles.

(** ** The vector store *)

Module Store.

Import PyStr Tools Embed StoreSpec ChunkFacts.

Section Store.

Context {vec score model faiss_index : Type}.
Variable B : backend vec score model faiss_index.

Abbreviation store := (VectorStore vec model faiss_index).

Lemma load_model_run (s : store) m :
  loaded_model B s = Some m ->
  _load_model B s = (inr m, with_model m s).
Proof.
  unfold loaded_model, _load_model, with_model, bind, get, modify, ret.
  destruct (model_ s) as [m0|] eqn:Hm.
  - intros [= ->]. reflexivity.
  - intros ->. reflexivity.
Qed.

Lemma search_raises (s : store) q k :
  embeddings s = None \/ chunks s = [] ->
  search B q k s = (inl ValueError, s).
Proof.
  intros H. unfold search, bind, get, raise.
  destruct (embeddings s) as [e|]; [|reflexivity].
  destruct H as [H|H]; [discriminate|]. rewrite H. reflexivity.
Qed.

Lemma embed_no_chunks (s : store) m :
  loaded_model B s = Some m ->
  chunks (snd (embed_chunks B [] s)) = [].
Proof.
  intros Hm. unfold embed_chunks, bind. rewrite (load_model_run s m Hm).
  unfold modify, lift, get, ret, _init_faiss_index, modify.
  cbn [map]. destruct (shape1 (encode B m [])); [|reflexivity].
  destruct (faiss_available B); reflexivity.
Qed.

(** C7: [search] raises [ValueError] on a store that was never built or
    loaded, on any store without embeddings or without chunks, and on the
    store left by building from no chunks; the store is the same after the
    call as before it. *)
Theorem search_on_empty_store :
  (forall dir q k, search B q k (init dir) = (inl ValueError, init dir)) /\
  (forall (s : store) q k,
     embeddings s = None \/ chunks s = [] ->
     search B q k s = (inl ValueError, s)) /\
  (forall (s : store) m q k,
     loaded_model B s = Some m ->
     let s' := snd (embed_chunks B [] s) in
     chunks s' = [] /\ search B q k s' = (inl ValueError, s')).
Proof.
  split; [|split].
  - intros dir q k. apply search_raises. left. reflexivity.
  - apply search_raises.
  - intros s m q k Hm s'. split; [eapply embed_no_chunks; eassumption|].
    apply search_raises. right. eapply embed_no_chunks; eassumption.
Qed.

(** *** Saving and loading *)

Lemma chunk_of_dict_to_dict c : chunk_of_dict (chunk_to_dict c) = inr c.
Proof.
  destruct c as [fp ct sl el ty].
  unfold chunk_of_dict, chunk_to_dict, get_str, get_int.
  cbn [file_path content start_line end_line chunk_type].
  repeat (rewrite lookup_insert_eq || (rewrite lookup_insert_ne by discriminate)).
  reflexivity.
Qed.

Lemma comprehension_dicts cs :
  comprehension chunk_of_dict (map chunk_to_dict cs) = inr cs.
Proof.
  induction cs as [|c cs IH]; [reflexivity|].
  cbn [map comprehension]. rewrite chunk_of_dict_to_dict, IH. reflexivity.
Qed.

Lemma path_join_inj (p : Path) a b : path_join p a = path_join p b -> a = b.
Proof.
  unfold path_join. intros H. apply app_inv_head in H. congruence.
Qed.

Lemma ancestors_prefix (q p : Path) :
  q ∈ ancestors p <-> q <> [] /\ q `prefix_of` p.
Proof.
  unfold ancestors. rewrite list_elem_of_In, in_map_iff. split.
  - intros (k & <- & Hk). apply in_seq in Hk. split.
    + intros H. apply (f_equal (@length string)) in H.
      rewrite length_take in H. cbn in H. lia.
    + exists (drop k p). symmetry. apply take_drop.
  - intros (Hne & r & ->). exists (length q). split.
    + now rewrite take_app_length.
    + apply in_seq. rewrite length_app.
      destruct q; [congruence|cbn; lia].
Qed.

Lemma exists_path_true (fs : filesystem vec faiss_index) (p : Path) :
  exists_path fs p = true <->
  p = [] \/ p = ["/"] \/ p = ["//"] \/ p ∈ dirs fs \/
  is_Some (files fs !! p).
Proof.
  unfold exists_path. rewrite !orb_true_iff, !bool_decide_eq_true. tauto.
Qed.

Lemma mkdir_dirs (p q : Path) (fs : filesystem vec faiss_index) :
  q ∈ dirs (mkdir p fs) <-> (q <> [] /\ q `prefix_of` p) \/ q ∈ dirs fs.
Proof.
  cbn [mkdir dirs]. rewrite elem_of_union, elem_of_list_to_set.
  now rewrite ancestors_prefix.
Qed.

Lemma save_dirs name (s : store) (fs : filesystem vec faiss_index) :
  dirs (save name s fs) = dirs (mkdir (path_div (store_dir s) name) fs).
Proof.
  unfold save. cbv zeta. destruct (embeddings s), (index s); reflexivity.
Qed.

Lemma save_exists name (s : store) (fs : filesystem vec faiss_index) :
  exists_path (save name s fs) (path_div (store_dir s) name) = true.
Proof.
  apply exists_path_true.
  destruct (path_div (store_dir s) name) as [|c p] eqn:Hp; [auto|].
  right. right. right. left. rewrite save_dirs, Hp. apply mkdir_dirs.
  left. split; [discriminate|reflexivity].
Qed.

(** C4: after [save(name)] on a store with embeddings, [load(name)] into a
    fresh store on the same directory leaves a store with the chunks that
    were saved, field by field, and the embeddings that were saved; it
    returns [True] when the index file can be handled. *)
Theorem save_then_load (s : store) (name : string)
    (fs : filesystem vec faiss_index) (e : ndarray vec) :
  embeddings s = Some e ->
  let fs' := save name s fs in
  let '(r, s') := load B name fs' (init (store_dir s)) in
  chunks s' = chunks s /\ embeddings s' = Some e /\
  (index_file_readable B s name fs e -> r = inr true).
Proof.
  intros He. cbv zeta.
  set (dir := path_div (store_dir s) name).
  assert (Hdir : exists_path (save name s fs) dir = true)
    by apply save_exists.
  assert (Hemb : files (save name s fs) !! path_join dir "embeddings.npy" =
                 Some (NpyFile e)).
  { unfold save. cbv zeta. fold dir. rewrite He.
    destruct (index s); cbn [files write mkdir];
      repeat (rewrite lookup_insert_ne
                by (intros H; apply path_join_inj in H; discriminate));
      apply lookup_insert_eq. }
  assert (Hjson : files (save name s fs) !! path_join dir "chunks.json" =
                  Some (JsonFile (map chunk_to_dict (chunks s)))).
  { unfold save. cbv zeta. fold dir. rewrite He.
    destruct (index s); cbn [files write mkdir];
      repeat (rewrite lookup_insert_ne
                by (intros H; apply path_join_inj in H; discriminate));
      apply lookup_insert_eq. }
  assert (Hix : files (save name s fs) !! path_join dir "index.faiss" =
                match index s with
                | Some ix => Some (FaissFile ix)
                | None => files fs !! path_join dir "index.faiss"
                end).
  { unfold save. cbv zeta. fold dir. rewrite He.
    destruct (index s); cbn [files write mkdir].
    - apply lookup_insert_eq.
    - repeat (rewrite lookup_insert_ne
                by (intros H'; apply path_join_inj in H'; discriminate)).
      reflexivity. }
  unfold load, bind, get. cbn [init store_dir]. fold dir.
  rewrite Hdir. cbn [negb].
  rewrite Hemb, Hjson. unfold modify at 1. unfold lift at 1, modify at 1.
  rewrite comprehension_dicts. rewrite Hix.
  unfold index_file_readable. fold dir.
  destruct (index s) as [ix|];
    [|destruct (files fs !! path_join dir "index.faiss") as [f|]];
    destruct (faiss_available B) eqn:Hf;
    unfold _init_faiss_index, modify, raise, ret, lift, get;
    cbn [embeddings set_chunks set_embeddings chunks];
    try rewrite Hf;
    try (destruct f);
    try (destruct (shape1 e) eqn:Hsh);
    cbn;
    (split; [reflexivity|]); (split; [reflexivity|]);
    intros H; try reflexivity; try contradiction;
    try (destruct H as [? H]; discriminate).
Qed.

(** *** Searching *)

Lemma comprehension_Forall2 {A C} (f : A -> exn + C) (P : A -> C -> Prop) l :
  Forall (fun x => exists y, f x = inr y /\ P x y) l ->
  exists ys, comprehension f l = inr ys /\ Forall2 P l ys.
Proof.
  induction 1 as [|x l (y & Hy & HP) _ (ys & Hys & HF)].
  - exists []. split; [reflexivity|constructor].
  - exists (y :: ys). cbn [comprehension]. rewrite Hy, Hys.
    split; [reflexivity|]. constructor; assumption.
Qed.

Lemma py_index_lookup {A} (l : list A) (i : nat) a :
  l !! i = Some a -> py_index l (Z.of_nat i) = inr a.
Proof.
  intros H. pose proof (lookup_lt_Some _ _ _ H) as Hlt.
  unfold py_index, PyList.len. cbv zeta.
  replace (Z.of_nat i <? 0) with false by lia.
  replace ((0 <=? Z.of_nat i) && (Z.of_nat i <? Z.of_nat (length l)))
    with true by lia.
  rewrite Nat2Z.id, H. reflexivity.
Qed.

Lemma omap_rev {A C} (f : A -> option C) l : omap f (rev l) = rev (omap f l).
Proof.
  induction l as [|x l IH]; [reflexivity|].
  cbn [rev]. rewrite omap_app, IH. cbn [omap list_omap].
  destruct (f x); cbn; [reflexivity|now rewrite app_nil_r].
Qed.

Lemma values_at_all (l : list score) :
  values_at l (map Z.of_nat (seq 0 (length l))) = l.
Proof.
  unfold values_at.
  enough (H : forall suf pre,
            omap (fun idx => (pre ++ suf) !! Z.to_nat idx)
              (map Z.of_nat (seq (length pre) (length suf))) = suf)
    by (apply (H l [])).
  induction suf as [|x suf IH]; intros pre; [reflexivity|].
  cbn [length seq map omap list_omap]. rewrite Nat2Z.id.
  rewrite list_lookup_middle by reflexivity.
  f_equal. specialize (IH (pre ++ [x])).
  rewrite <- app_assoc, length_app in IH. cbn [app length] in IH.
  rewrite Nat.add_1_r in IH. exact IH.
Qed.

Lemma values_at_Forall2 {C} (l : list score) p (rs : list (C * score)) :
  Forall2 (fun idx r => l !! Z.to_nat idx = Some (snd r)) p rs ->
  values_at l p = map snd rs.
Proof.
  induction 1 as [|idx r p rs H _ IH]; [reflexivity|].
  unfold values_at in *. cbn [omap list_omap map]. rewrite H, IH. reflexivity.
Qed.

Variable score_leb : score -> score -> bool.

Lemma ascending_rev l :
  ascending score_leb l -> descending score_leb (rev l).
Proof.
  unfold ascending, descending. induction 1 as [|x l Hl IH Hx].
  - constructor.
  - cbn [rev]. apply StronglySorted_app_2; [|exact IH|repeat constructor].
    intros a b Ha Hb. apply list_elem_of_singleton in Hb as ->.
    rewrite Forall_forall in Hx. apply Hx.
    apply list_elem_of_In. apply list_elem_of_In in Ha.
    now apply in_rev.
Qed.

Lemma slice_last_drop {A} k (p : list A) :
  exists j, PyList.slice_last k p = drop j p /\
            (0 < k -> j = Z.to_nat (PyList.len p - k)).
Proof.
  unfold PyList.slice_last, PyList.slice_from.
  destruct (- k <? 0) eqn:Hk.
  - eexists. split; [reflexivity|]. intros _. f_equal; lia.
  - eexists. split; [reflexivity|]. lia.
Qed.

Lemma search_run (s : store) m E q k :
  embeddings s = Some E -> chunks s <> [] -> loaded_model B s = Some m ->
  search B q k s =
  (match index s with
   | Some ix =>
       comprehension
         (fun '(idx, sc) =>
            match py_index (chunks s) idx with
            | inl e => inl e
            | inr c => inr (c, sc)
            end)
         (index_search B ix (encode_query B m q)
            (Z.min k (PyList.len (chunks s))))
   | None =>
       comprehension
         (fun idx =>
            match py_index (chunks s) idx with
            | inl e => inl e
            | inr c =>
                match py_index (similarities B E (encode_query B m q)) idx with
                | inl e => inl e
                | inr sc => inr (c, sc)
                end
            end)
         (top_indices B (similarities B E (encode_query B m q)) k)
   end, with_model m s).
Proof.
  intros He Hc Hm. unfold search, bind, get. rewrite He.
  replace (PyList.len (chunks s) =? 0) with false
    by (destruct (chunks s); [congruence|rewrite len_cons; pose proof (len_nonneg l); lia]).
  rewrite (load_model_run s m Hm).
  destruct (index s); reflexivity.
Qed.

(** C6: on a store with embeddings and as many chunks as rows, [search]
    returns its results from the highest score down.  Without FAISS, when
    [np.argsort] orders the products of the query with the stored vectors as
    it promises, every result pairs a chunk with the product at its
    position, and for a positive [top_k] the scores are the [top_k] highest
    products (all of them when there are fewer).  With FAISS, when
    [index.search] gives positions of stored vectors with scores from the
    highest down, the scores returned are those it gave. *)
Theorem search_ranked (s : store) (m : model) (E : ndarray vec)
    (q : string) (k : Z) :
  embeddings s = Some E -> chunks s <> [] ->
  length (rows E) = length (chunks s) ->
  loaded_model B s = Some m ->
  let qv := encode_query B m q in
  let sims := similarities B E qv in
  (index s = None ->
   argsort_ok score_leb sims (argsort B sims) ->
   exists results,
     search B q k s = (inr results, with_model m s) /\
     descending score_leb (map snd results) /\
     Forall (fun '(c, sc) =>
               exists i, chunks s !! i = Some c /\ sims !! i = Some sc)
       results /\
     (0 < k -> top_scores score_leb k sims (map snd results))) /\
  (forall ix, index s = Some ix ->
     let found :=
       index_search B ix qv (Z.min k (PyList.len (chunks s))) in
     index_search_ok score_leb (length (chunks s)) found ->
     exists results,
       search B q k s = (inr results, with_model m s) /\
       descending score_leb (map snd results) /\
       map snd results = map snd found).
Proof.
  intros He Hc Hrows Hm qv sims. split.
  - intros Hix [Hperm Hasc].
    rewrite (search_run s m E q k He Hc Hm), Hix. fold qv. fold sims.
    set (p := argsort B sims) in *.
    assert (Hlen : length sims = length (chunks s)).
    { unfold sims, similarities. rewrite length_map. exact Hrows. }
    assert (Hvalid : forall idx, idx ∈ p ->
              exists i, idx = Z.of_nat i /\ (i < length sims)%nat).
    { intros idx Hin. rewrite Hperm in Hin.
      apply list_elem_of_fmap in Hin as (i & -> & Hi).
      apply elem_of_seq in Hi. exists i. split; [reflexivity|lia]. }
    destruct (slice_last_drop k p) as (j & Hj & Hjk).
    unfold top_indices. fold p. rewrite Hj.
    set (p' := rev (drop j p)).
    assert (Hsub : forall idx, idx ∈ p' -> idx ∈ p).
    { intros idx Hin. unfold p' in Hin.
      apply list_elem_of_In, in_rev, list_elem_of_In in Hin.
      rewrite <- (take_drop j p). apply elem_of_app. now right. }
    destruct (comprehension_Forall2
      (fun idx =>
         match py_index (chunks s) idx with
         | inl e => inl e
         | inr c =>
             match py_index sims idx with
             | inl e => inl e
             | inr sc => inr (c, sc)
             end
         end)
      (fun idx (r : CodeChunk * score) =>
         chunks s !! Z.to_nat idx = Some (fst r) /\
         sims !! Z.to_nat idx = Some (snd r)) p') as (results & Hres & HF).
    { apply Forall_forall. intros idx Hin.
      destruct (Hvalid idx (Hsub idx Hin)) as (i & -> & Hi).
      destruct (lookup_lt_is_Some_2 sims i Hi) as [sc Hsc].
      destruct (lookup_lt_is_Some_2 (chunks s) i ltac:(lia)) as [c Hcs].
      exists (c, sc). rewrite (py_index_lookup _ _ _ Hcs).
      rewrite (py_index_lookup _ _ _ Hsc). rewrite Nat2Z.id. auto. }
    exists results. split; [now rewrite Hres|].
    assert (Hscores : map snd results = rev (values_at sims (drop j p))).
    { rewrite <- (values_at_Forall2 sims p' results).
      - unfold values_at, p'. apply omap_rev.
      - eapply Forall2_impl; [exact HF|]. cbn. intros ? ? [_ H]. exact H. }
    assert (Hsplit : values_at sims p =
                     values_at sims (take j p) ++ values_at sims (drop j p)).
    { unfold values_at. rewrite <- omap_app, take_drop. reflexivity. }
    assert (Hasc' : ascending score_leb
                      (values_at sims (take j p) ++ values_at sims (drop j p)))
      by (rewrite <- Hsplit; exact Hasc).
    apply StronglySorted_app in Hasc' as (HAB & HA & HB).
    assert (Hdesc : descending score_leb (map snd results))
      by (rewrite Hscores; apply ascending_rev; exact HB).
    split; [exact Hdesc|]. split.
    + apply Forall_forall. intros [c sc] Hin.
      apply list_elem_of_lookup in Hin as (n & Hn).
      destruct (Forall2_lookup_r _ _ _ _ _ HF Hn) as (idx & _ & H1 & H2).
      exists (Z.to_nat idx). auto.
    + intros Hk. split; [exact Hdesc|]. split.
      * specialize (Hjk Hk).
        assert (Hlp : length p = length sims).
        { rewrite Hperm, length_map, length_seq. reflexivity. }
        pose proof (Forall2_length _ _ _ HF) as HlF.
        unfold PyList.len. rewrite length_map, <- HlF. unfold p'.
        rewrite length_rev, length_drop, Hlp.
        unfold PyList.len in Hjk. rewrite Hlp in Hjk. lia.
      * exists (values_at sims (take j p)). split.
        -- rewrite Hscores.
           transitivity (values_at sims p).
           ++ rewrite Hsplit.
              transitivity (values_at sims (take j p) ++
                            rev (values_at sims (drop j p))).
              ** apply Permutation_app_comm.
              ** apply Permutation_app_head. symmetry. apply Permutation_rev.
           ++ transitivity
                (values_at sims (map Z.of_nat (seq 0 (length sims)))).
              ** unfold values_at. apply omap_Permutation. exact Hperm.
              ** rewrite values_at_all. reflexivity.
        -- rewrite Hscores. apply Forall_forall. intros a Ha.
           apply Forall_forall. intros b Hb. apply HAB; [exact Hb|].
           apply list_elem_of_In. apply list_elem_of_In in Ha.
           now apply in_rev.
  - intros ix Hix found [Hvalid Hdesc].
    rewrite (search_run s m E q k He Hc Hm), Hix. fold qv. fold found.
    destruct (comprehension_Forall2
      (fun '(idx, sc) =>
         match py_index (chunks s) idx with
         | inl e => inl e
         | inr c => inr (c, sc)
         end)
      (fun (f : Z * score) (r : CodeChunk * score) => snd r = snd f) found)
      as (results & Hres & HF).
    { eapply Forall_impl; [exact Hvalid|]. intros [idx sc] Hidx.
      destruct (lookup_lt_is_Some_2 (chunks s) (Z.to_nat idx) ltac:(lia))
        as [c Hcs].
      exists (c, sc). rewrite <- (Z2Nat.id idx) at 1 by lia.
      rewrite (py_index_lookup _ _ _ Hcs). auto. }
    exists results. split; [now rewrite Hres|].
    assert (Heq : map snd results = map snd found).
    { clear -HF. induction HF as [|f r fs rs H _ IH]; [reflexivity|].
      cbn [map]. rewrite H, IH. reflexivity. }
    split; [rewrite Heq; exact Hdesc|exact Heq].
Qed.

End Store.

(** Saving the populated store on an empty file system and loading it. *)
Lemma save_then_load_witness :
  let '(r, s') :=
    load Examples.numpy_only "default" (save "default" Examples.populated Examples.empty_fs)
      (init ["store"]) in
  chunks s' = Examples.three_chunks /\ r = inr true.
Proof.
  pose proof (save_then_load Examples.numpy_only Examples.populated "default" Examples.empty_fs
                (mkArray [3; 1; 2] (Some 1)) eq_refl) as H.
  cbv zeta in H. change (store_dir Examples.populated) with ["store"] in H.
  destruct (load Examples.numpy_only "default" (save "default" Examples.populated Examples.empty_fs)
              (init ["store"])) as [r s'].
  destruct H as (H1 & _ & H3). split; [exact H1|].
  apply H3. exact I.
Defined.

(** The two highest of the products 6, 2, 4, without FAISS and with it. *)
Lemma search_ranked_witness :
  (exists results,
     search Examples.numpy_only "ab" 2 Examples.populated =
       (inr results, with_model tt Examples.populated) /\
     descending Z.leb (map snd results) /\
     top_scores Z.leb 2 [6; 2; 4] (map snd results)) /\
  (exists results,
     search Examples.with_faiss "ab" 2 Examples.populated_faiss =
       (inr results, with_model tt Examples.populated_faiss) /\
     descending Z.leb (map snd results)).
Proof.
  split.
  - destruct (search_ranked Examples.numpy_only Z.leb Examples.populated tt
                (mkArray [3; 1; 2] (Some 1)) "ab" 2 eq_refl
                ltac:(discriminate) eq_refl eq_refl) as [H _].
    destruct (H eq_refl) as (results & H1 & H2 & _ & H4).
    + split.
      * apply (bool_decide_eq_true_1 _). vm_compute. reflexivity.
      * apply (bool_decide_eq_true_1 _). vm_compute. reflexivity.
    + exists results. split; [exact H1|]. split; [exact H2|].
      apply H4. lia.
  - destruct (search_ranked Examples.with_faiss Z.leb Examples.populated_faiss
                tt (mkArray [3; 1; 2] (Some 1)) "ab" 2 eq_refl
                ltac:(discriminate) eq_refl eq_refl) as [_ H].
    destruct (H [3; 1; 2] eq_refl) as (results & H1 & H2 & _).
    + split.
      * vm_compute. repeat constructor; discriminate.
      * apply (bool_decide_eq_true_1 _). vm_compute. reflexivity.
    + exists results. split; [exact H1|exact H2].
Defined.

(** [search] after building from no chunks, and on a store without chunks. *)
Lemma search_on_empty_store_witness :
  search Examples.numpy_only "query" 3 (snd (embed_chunks Examples.numpy_only [] Examples.populated)) =
    (inl ValueError, snd (embed_chunks Examples.numpy_only [] Examples.populated)) /\
  search Examples.numpy_only "query" 3
      (mkStore ["store"] None None [] (Some (mkArray [] (Some 1)))) =
    (inl ValueError,
     mkStore ["store"] None None [] (Some (mkArray [] (Some 1)))).
Proof.
  pose proof (search_on_empty_store Examples.numpy_only) as (_ & H2 & H3).
  split.
  - apply (H3 Examples.populated tt "query" 3). reflexivity.
  - apply H2. right. reflexivity.
Defined.

End Store.

(** ** The retriever *)

Module Retriever.

Import PyStr Tools Embed StoreSpec Retrieve ChunkFacts.

Section Retriever.

Context {vec score model faiss_index : Type}.
Variable B : backend vec score model faiss_index.
Variable hash : string -> Z.

Abbreviation fingerprint := (fun r : CodeChunk * score => content_hash hash (fst r)).

Lemma total_tokens_snoc (l : list (CodeChunk * score)) r :
  total_tokens (l ++ [r]) =
  total_tokens l + estimate_tokens (content (fst r)).
Proof.
  unfold total_tokens. induction l as [|x l IH]; cbn [app foldr]; [lia|].
  rewrite IH. lia.
Qed.

Lemma filter_loop_spec top_k max_tokens :
  forall (results : list (CodeChunk * score)) seen filtered total,
    PyList.len filtered < top_k ->
    total = total_tokens filtered -> total <= max_tokens ->
    NoDup (map fingerprint filtered) ->
    (forall r, r ∈ filtered -> fingerprint r ∈ seen) ->
    let out := filter_loop hash top_k max_tokens results seen filtered total in
    PyList.len out <= top_k /\ total_tokens out <= max_tokens /\
    NoDup (map fingerprint out) /\
    exists extra, out = filtered ++ extra /\ extra `sublist_of` results.
Proof.
  induction results as [|[chunk sc] rest IH];
    intros seen filtered total Hlen Htot Hmax Hnd Hseen; cbv zeta.
  - cbn [filter_loop]. unfold result in *.
    (split; [|split; [|split]]); try lia; try assumption.
    exists []. rewrite app_nil_r. split; [reflexivity|constructor].
  - cbn [filter_loop]. cbv zeta. unfold result in *.
    destruct (bool_decide (content_hash hash chunk ∈ seen)) eqn:Hdup.
    { destruct (IH seen filtered total Hlen Htot Hmax Hnd Hseen)
        as (A & C & D & extra & E & F).
      (split; [|split; [|split]]); try assumption.
      exists extra. split; [assumption|]. now apply sublist_cons. }
    apply bool_decide_eq_false in Hdup.
    assert (Hseen' : forall r, r ∈ filtered ->
              fingerprint r ∈ ({[content_hash hash chunk]} ∪ seen : gset Z))
      by (intros r Hr; apply elem_of_union_r, Hseen, Hr).
    destruct (total + estimate_tokens (content chunk) >? max_tokens) eqn:Hfit.
    { destruct (IH _ filtered total Hlen Htot Hmax Hnd Hseen')
        as (A & C & D & extra & E & F).
      (split; [|split; [|split]]); try assumption.
      exists extra. split; [assumption|]. now apply sublist_cons. }
    assert (Hnd' : NoDup (map fingerprint (filtered ++ [(chunk, sc)]))).
    { rewrite map_app. apply NoDup_app. split; [assumption|].
      split; [|cbn; apply NoDup_singleton].
      intros h Hh Hin. cbn in Hin. apply list_elem_of_singleton in Hin as ->.
      apply list_elem_of_fmap in Hh as (r & Hr & Hrin).
      apply Hdup. cbn [fst] in Hr. rewrite Hr. apply Hseen. exact Hrin. }
    assert (Htot' : total + estimate_tokens (content chunk) =
                    total_tokens (filtered ++ [(chunk, sc)]))
      by (rewrite total_tokens_snoc, Htot; reflexivity).
    destruct (PyList.len (filtered ++ [(chunk, sc)]) >=? top_k) eqn:Hfull.
    { rewrite len_app, len_cons in *. change (PyList.len []) with 0 in *.
      (split; [|split; [|split]]); try lia; try assumption.
      exists [(chunk, sc)]. split; [reflexivity|].
      apply sublist_skip, sublist_nil_l. }
    destruct (IH ({[content_hash hash chunk]} ∪ seen)
                (filtered ++ [(chunk, sc)])
                (total + estimate_tokens (content chunk)))
      as (A & C & D & extra & E & F); try assumption; try lia.
    { intros r Hr. apply elem_of_app in Hr as [Hr|Hr]; [now apply Hseen'|].
      apply list_elem_of_singleton in Hr as ->. cbn [fst].
      apply elem_of_union_l, elem_of_singleton. reflexivity. }
    (split; [|split; [|split]]); try assumption.
    exists ((chunk, sc) :: extra). split.
    + rewrite E, <- app_assoc. reflexivity.
    + now apply sublist_skip.
Qed.

Lemma descending_sublist (score_leb : score -> score -> bool)
    (l k : list score) :
  l `sublist_of` k -> descending score_leb k -> descending score_leb l.
Proof.
  unfold descending. induction 1 as [|x l k Hs IH|x l k Hs IH]; intros Hk.
  - constructor.
  - apply StronglySorted_inv in Hk as [Hk Hx]. constructor; [auto|].
    rewrite Forall_forall in Hx |- *. intros y Hy. apply Hx.
    eapply elem_of_sublist; eassumption.
  - apply StronglySorted_inv in Hk as [Hk _]. auto.
Qed.

(** C5: for a positive [top_k] and a positive [max_tokens], when [search]
    returns, [retrieve] returns at most [top_k] pairs whose estimated tokens
    sum to at most [max_tokens], no two of them with the same fingerprint of
    the first 500 characters, and they are results of [search] in the order
    [search] gave them, so from the highest score down when [search] gave
    them so.  When [search] raises, [retrieve] raises the same. *)
Theorem retrieve_bounded (s : VectorStore vec model faiss_index)
    (query : string) (top_k max_tokens : Z) :
  0 < top_k -> 0 < max_tokens ->
  (forall results s1,
     search B query (top_k * 2) s = (inr results, s1) ->
     exists out,
       retrieve B hash query top_k max_tokens s = (inr out, s1) /\
       PyList.len out <= top_k /\
       total_tokens out <= max_tokens /\
       NoDup (map fingerprint out) /\
       out `sublist_of` results /\
       (forall score_leb,
          descending score_leb (map snd results) ->
          descending score_leb (map snd out))) /\
  (forall e s1,
     search B query (top_k * 2) s = (inl e, s1) ->
     retrieve B hash query top_k max_tokens s = (inl e, s1)).
Proof.
  intros Hk Hm. split.
  - intros results s1 Hs. unfold retrieve, bind. rewrite Hs. unfold ret.
    eexists. split; [reflexivity|]. unfold result in *.
    destruct (filter_loop_spec top_k max_tokens results ∅ [] 0)
      as (A & C & D & extra & E & F);
      [change (0 < top_k); lia|reflexivity|lia|constructor| |].
    { intros r Hr. inversion Hr. }
    cbn [app] in E. rewrite <- E in F.
    (split; [|split; [|split; [|split]]]); try assumption.
    intros score_leb Hd. eapply descending_sublist; [|exact Hd].
    apply fmap_sublist. exact F.
  - intros e s1 Hs. unfold retrieve, bind. rewrite Hs. reflexivity.
Qed.

End Retriever.

(** Two results asked for within five tokens on the populated store. *)
Lemma retrieve_bounded_witness :
  exists out,
    retrieve Examples.numpy_only PyStr.len "ab" 2 5 Examples.populated =
      (inr out, with_model tt Examples.populated) /\
    PyList.len out <= 2 /\ total_tokens out <= 5.
Proof.
  destruct (retrieve_bounded Examples.numpy_only PyStr.len Examples.populated
              "ab" 2 5 ltac:(lia) ltac:(lia)) as [H _].
  destruct (H [(mkChunk "a.py" "def f(): pass" 1 1 "function", 6);
               (mkChunk "c.py" "class C: pass" 1 1 "class", 4);
               (mkChunk "b.py" "x = 1" 1 1 "block", 2)]
              (with_model tt Examples.populated))
    as (out & H1 & H2 & H3 & _).
  - vm_compute. reflexivity.
  - exists out. auto.
Defined.

End Retriever.

(** ** More on the chunker *)

Module ChunkerMore.

Import PyStr ChunkSpec ChunkSpecMore StrFacts ChunkFacts.

(** An invariant of the outer loop of [extract_python_chunks] that holds
    before the first line, is kept by a line that opens no definition and by
    a definition line with the lines its body loop takes, holds when the
    loop ends. *)
Lemma main_loop_invariant fp L
    (I : list string -> list CodeChunk -> list string -> Z -> string -> Prop) :
  I [] [] [] 1 "block" ->
  (forall done line rest chunks cur cstart ty,
     L = done ++ line :: rest -> I done chunks cur cstart ty ->
     is_def line = false ->
     I (done ++ [line]) chunks (cur ++ [line]) cstart ty) ->
  (forall done line taken rest chunks cur cstart ty,
     L = done ++ line :: taken ++ rest -> I done chunks cur cstart ty ->
     is_def line = true ->
     I (done ++ line :: taken)
       (if PyList.truthy cur then
          chunks ++ [mkChunk fp (join_lines cur) cstart (PyList.len done) ty]
        else chunks)
       (line :: taken) (PyList.len done + 1) (def_type line)) ->
  let '(chunks, cur, cstart, ty) := main_loop fp L 0 [] [] 1 "block" in
  I L chunks cur cstart ty.
Proof.
  intros Hinit Hplain Hdef.
  enough (H : forall n rest, (length rest <= n)%nat ->
            forall done chunks cur cstart ty,
              L = done ++ rest -> I done chunks cur cstart ty ->
              let '(chunks', cur', cstart', ty') :=
                main_loop fp rest (PyList.len done) chunks cur cstart ty in
              I L chunks' cur' cstart' ty').
  { apply (H (length L) L (le_n _) [] [] [] 1 "block" eq_refl Hinit). }
  induction n as [|n IH]; intros rest Hlen done chunks cur cstart ty HL Hinv.
  - destruct rest; [|cbn in Hlen; lia]. cbn. rewrite app_nil_r in HL. now subst.
  - destruct rest as [|line rest].
    { cbn. rewrite app_nil_r in HL. now subst. }
    cbn [length] in Hlen.
    destruct (is_def line) eqn:Hd.
    + rewrite main_loop_def_eq by assumption. cbv zeta.
      pose proof (collect_body_app (def_indent line) rest) as Happ.
      destruct (collect_body (def_indent line) rest) as [taken remaining].
      replace (PyList.len done + 1 + PyList.len taken)
        with (PyList.len (done ++ line :: taken)) by len_lia.
      apply IH.
      * subst rest. rewrite length_app in Hlen. lia.
      * subst rest. rewrite HL, <- app_assoc. reflexivity.
      * eapply Hdef; [|eassumption..]. subst rest. exact HL.
    + rewrite main_loop_nodef_eq by assumption.
      replace (PyList.len done + 1) with (PyList.len (done ++ [line]))
        by len_lia.
      apply IH.
      * lia.
      * rewrite HL, <- app_assoc. reflexivity.
      * eapply Hplain; eassumption.
Qed.

Lemma def_type_cases d :
  def_type d = "function" \/ def_type d = "class".
Proof. unfold def_type. destruct (func_pattern d); auto. Qed.

Lemma opens_definition_not_block ls ty :
  opens_definition ls ty -> ty <> "block".
Proof.
  intros (d & body & _ & _ & ->).
  destruct (def_type_cases d) as [-> | ->]; discriminate.
Qed.

Lemma typed_state_emit fp chunks cur cstart e ty :
  typed_state chunks cur ty -> cur <> [] ->
  match chunks ++ [mkChunk fp (join_lines cur) cstart e ty] with
  | [] => True
  | c0 :: cs =>
      (opens_definition (lines_of c0) (chunk_type c0) \/
       chunk_type c0 = "block") /\
      Forall (fun c => opens_definition (lines_of c) (chunk_type c)) cs
  end.
Proof.
  intros (Hcs & Hcur & Hnl) Hne.
  assert (Hlines : lines_of (mkChunk fp (join_lines cur) cstart e ty) = cur)
    by (unfold lines_of; cbn [content]; now apply split_join).
  destruct chunks as [|c0 cs]; cbn [app].
  - split; [|constructor]. rewrite Hlines. cbn [chunk_type].
    destruct Hcur as [H|[_ H]]; auto.
  - destruct Hcs as [H0 Hall]. split; [exact H0|].
    apply Forall_app. split; [exact Hall|]. constructor; [|constructor].
    rewrite Hlines. cbn [chunk_type].
    destruct Hcur as [H|[H _]]; [exact H|discriminate].
Qed.

Lemma main_loop_typed content fp :
  let '(chunks, cur, cstart, ty) :=
    main_loop fp (split_lines content) 0 [] [] 1 "block" in
  typed_state chunks cur ty.
Proof.
  pose proof (split_lines_no_newline content) as Hnl.
  apply (main_loop_invariant fp (split_lines content)
           (fun _ chunks cur _ ty => typed_state chunks cur ty)).
  - split; [exact I|]. split; [right; auto|constructor].
  - intros done line rest chunks cur cstart ty HL (Hcs & Hcur & Hn) Hd.
    split; [exact Hcs|]. split.
    + destruct Hcur as [(d & body & -> & H1 & H2)|H]; [left|now right].
      exists d, (body ++ [line]). auto.
    + apply Forall_app. split; [exact Hn|]. constructor; [|constructor].
      rewrite HL in Hnl. apply Forall_app in Hnl as [_ Hnl].
      now inversion Hnl.
  - intros done line taken rest chunks cur cstart ty HL Hinv Hd.
    split; [|split].
    + destruct cur as [|x cur]; cbn [PyList.truthy].
      * exact (proj1 Hinv).
      * apply typed_state_emit; [exact Hinv|discriminate].
    + left. exists line, taken. auto.
    + rewrite HL in Hnl. apply Forall_app in Hnl as [_ Hnl].
      change (line :: taken ++ rest) with ((line :: taken) ++ rest) in Hnl.
      now apply Forall_app in Hnl as [Hnl _].
Qed.

(** X1: in the chunks of [extract_python_chunks] only the first can be a
    block: every later chunk starts with a [def] or [class] line and has
    the type of that line, so lines that follow a definition never form a
    block of their own; and a chunk type is one of block, function,
    class. *)
Theorem later_chunks_open_definitions (content fp : string) :
  let cs := extract_python_chunks content fp in
  (forall i c, cs !! S i = Some c ->
     opens_definition (lines_of c) (chunk_type c) /\
     chunk_type c <> "block") /\
  (forall c, c ∈ cs ->
     chunk_type c = "block" \/ chunk_type c = "function" \/
     chunk_type c = "class").
Proof.
  cbv zeta. unfold extract_python_chunks. cbv zeta.
  pose proof (main_loop_typed content fp) as H.
  destruct (main_loop fp (split_lines content) 0 [] [] 1 "block")
    as [[[chunks cur] cstart] ty].
  set (cs := if PyList.truthy cur then _ else chunks).
  assert (Hcs : match cs with
                | [] => True
                | c0 :: cs' =>
                    (opens_definition (lines_of c0) (chunk_type c0) \/
                     chunk_type c0 = "block") /\
                    Forall (fun c => opens_definition (lines_of c)
                                       (chunk_type c)) cs'
                end).
  { subst cs. destruct cur as [|x cur]; cbn [PyList.truthy].
    - exact (proj1 H).
    - apply typed_state_emit; [exact H|discriminate]. }
  clearbody cs. destruct cs as [|c0 cs']; [split; [discriminate|]|].
  { intros c Hc. inversion Hc. }
  destruct Hcs as [H0 Hall]. rewrite Forall_forall in Hall. split.
  - intros i c Hi. cbn in Hi.
    assert (Hin : c ∈ cs') by (eapply list_elem_of_lookup_2; eassumption).
    split; [auto|]. eapply opens_definition_not_block. auto.
  - intros c Hc. apply elem_of_cons in Hc as [-> | Hc].
    + destruct H0 as [(d & _ & _ & _ & ->)|H0]; [|auto].
      destruct (def_type_cases d); auto.
    + destruct (Hall c Hc) as (d & _ & _ & _ & ->).
      destruct (def_type_cases d); auto.
Qed.

(** The second chunk of the three-line module with a leading import. *)
Lemma later_chunks_open_definitions_witness :
  chunk_type (mkChunk "m.py" (join_lines ["def f():"; "    pass"; "x = 1"])
                2 4 "function") <> "block".
Proof.
  apply (proj1 (later_chunks_open_definitions
                  (join_lines ["import os"; "def f():"; "    pass"; "x = 1"])
                  "m.py") 0%nat).
  vm_compute. reflexivity.
Defined.

Lemma chain_last link fp L cs : forall s e s1 e1 c,
  chain link fp L s e cs s1 e1 -> last cs = Some c -> end_line c = e1.
Proof.
  induction cs as [|x cs IH]; intros s e s1 e1 c Hc Hlast; [discriminate|].
  cbn in Hc. destruct Hc as (A & B & C & D & E & F).
  destruct cs as [|y cs].
  - cbn in Hlast. injection Hlast as <-. cbn in F. tauto.
  - change (last (x :: y :: cs)) with (last (y :: cs)) in Hlast.
    eapply IH; eassumption.
Qed.

(** *** The fixed-size chunker *)

(** An invariant of the loop of [chunk_by_size] that holds before the first
    line, is kept by a line that leaves the count below the target and by a
    line that closes a chunk, holds when the loop ends. *)
Lemma size_loop_invariant size overlap fp L
    (I : list string -> list CodeChunk -> list string -> Z -> Z -> Prop) :
  I [] [] [] 0 1 ->
  (forall done line rest chunks cur chars cstart,
     L = done ++ line :: rest -> I done chunks cur chars cstart ->
     chars + PyStr.len line + 1 < size ->
     I (done ++ [line]) chunks (cur ++ [line]) (chars + PyStr.len line + 1)
       cstart) ->
  (forall done line rest chunks cur chars cstart,
     L = done ++ line :: rest -> I done chunks cur chars cstart ->
     size <= chars + PyStr.len line + 1 ->
     let w := window overlap (cur ++ [line]) in
     I (done ++ [line])
       (chunks ++ [mkChunk fp (join_lines (cur ++ [line])) cstart
                     (PyList.len done + 1) "block"])
       w (chars_of w) (PyList.len done + 1 - PyList.len w + 1)) ->
  let '(chunks, cur, cstart) := size_loop size overlap fp L 1 [] [] 0 1 in
  exists chars, I L chunks cur chars cstart.
Proof.
  intros Hinit Hkeep Hemit.
  enough (H : forall rest done chunks cur chars cstart,
            L = done ++ rest -> I done chunks cur chars cstart ->
            let '(chunks', cur', cstart') :=
              size_loop size overlap fp rest (PyList.len done + 1) chunks cur
                chars cstart in
            exists chars', I L chunks' cur' chars' cstart').
  { apply (H L [] [] [] 0 1 eq_refl Hinit). }
  induction rest as [|line rest IH]; intros done chunks cur chars cstart HL Hinv.
  - cbn. rewrite app_nil_r in HL. subst L. eauto.
  - cbn [size_loop]. cbv zeta.
    destruct (chars + PyStr.len line + 1 >=? size) eqn:Hsz.
    + destruct (window_spec overlap (cur ++ [line])) as (p & _ & Hov).
      rewrite Hov.
      replace (PyList.len done + 1 + 1) with (PyList.len (done ++ [line]) + 1)
        by len_lia.
      apply IH; [rewrite HL, <- app_assoc; reflexivity|].
      eapply Hemit; [eassumption..|lia].
    + replace (PyList.len done + 1 + 1) with (PyList.len (done ++ [line]) + 1)
        by len_lia.
      apply IH; [rewrite HL, <- app_assoc; reflexivity|].
      eapply Hkeep; [eassumption..|lia].
Qed.

Lemma chars_of_nonneg ls : 0 <= chars_of ls.
Proof.
  induction ls as [|l ls IH]; [cbn; lia|].
  rewrite chars_of_cons. unfold PyStr.len. lia.
Qed.

Lemma chars_of_content s : chars_of (split_lines s) = PyStr.len s + 1.
Proof.
  rewrite <- (join_chars (split_lines s)) by apply split_lines_nonempty.
  now rewrite join_split.
Qed.

(** X2: a text whose length plus one is below the target size is one chunk
    of [chunk_by_size]: the whole text, from line 1 to its last line. *)
Theorem small_text_one_chunk (size overlap : Z) (content fp : string) :
  PyStr.len content + 1 < size ->
  chunk_by_size_with size overlap content fp =
    [mkChunk fp content 1 (PyList.len (split_lines content)) "block"].
Proof.
  intros Hsmall. unfold chunk_by_size_with. cbv zeta.
  set (L := split_lines content).
  pose proof (size_loop_invariant size overlap fp L
    (fun done chunks cur chars cstart =>
       chunks = [] /\ cur = done /\ chars = chars_of done /\ cstart = 1))
    as H.
  destruct (size_loop size overlap fp L 1 [] [] 0 1) as [[cs0 cur0] cstart0].
  destruct H as (chars0 & -> & -> & _ & ->).
  - auto.
  - intros done line rest chunks cur chars cstart HL (-> & -> & -> & ->) _.
    repeat split. rewrite chars_of_app, chars_of_cons. cbn. lia.
  - intros done line rest chunks cur chars cstart HL (-> & -> & -> & ->) Hsz.
    exfalso.
    assert (chars_of L = PyStr.len content + 1) by apply chars_of_content.
    rewrite HL in H. rewrite chars_of_app, chars_of_cons in H.
    pose proof (chars_of_nonneg rest). lia.
  - pose proof (split_lines_nonempty content) as Hne. fold L in Hne.
    destruct L as [|x L'] eqn:HL; [congruence|]. cbn [PyList.truthy app].
    rewrite <- HL. subst L. rewrite join_split. reflexivity.
Qed.

(** A text of five characters with the configured target size. *)
Lemma small_text_one_chunk_witness :
  chunk_by_size "x = 1" "a.js" = [mkChunk "a.js" "x = 1" 1 1 "block"].
Proof.
  apply (small_text_one_chunk CHUNK_SIZE CHUNK_OVERLAP "x = 1" "a.js").
  vm_compute. reflexivity.
Defined.

Lemma overlap_loop_bound overlap r : forall acc n,
  n <= Z.max 0 (overlap + 1) ->
  snd (overlap_loop overlap r acc n) <= Z.max 0 (overlap + 1).
Proof.
  induction r as [|ln r IH]; intros acc n Hn; cbn [overlap_loop].
  - exact Hn.
  - destruct (n + PyStr.len ln >? overlap) eqn:Hgt; [exact Hn|].
    rewrite Z.gtb_ltb in Hgt. apply Z.ltb_ge in Hgt. apply IH. lia.
Qed.

Lemma window_chars_bound overlap ls :
  chars_of (window overlap ls) <= Z.max 0 (overlap + 1).
Proof.
  destruct (window_spec overlap ls) as (p & _ & Hov).
  pose proof (overlap_loop_bound overlap (rev ls) [] 0 ltac:(lia)) as H.
  rewrite Hov in H. exact H.
Qed.

Lemma window_negative overlap ls : overlap < 0 -> window overlap ls = [].
Proof.
  intros Ho. unfold window. destruct (rev ls) as [|ln r]; [reflexivity|].
  cbn [overlap_loop].
  destruct (0 + PyStr.len ln >? overlap) eqn:Hgt; [reflexivity|].
  rewrite Z.gtb_ltb in Hgt. apply Z.ltb_ge in Hgt.
  unfold PyStr.len in Hgt. lia.
Qed.

(** X3: two neighbouring chunks of [chunk_by_size] share the overlap window
    of the first and nothing else: the window counts at most [overlap + 1]
    characters (each line with its newline), the number of shared lines is
    the number of lines of the window, and with a negative budget the
    second chunk starts on the line after the first. *)
Theorem overlap_within_budget (size overlap : Z) (content fp : string) :
  let cs := chunk_by_size_with size overlap content fp in
  forall i c1 c2, cs !! i = Some c1 -> cs !! S i = Some c2 ->
    let w := window overlap (lines_of c1) in
    chars_of w <= Z.max 0 (overlap + 1) /\
    end_line c1 - start_line c2 + 1 = PyList.len w /\
    (overlap < 0 -> start_line c2 = end_line c1 + 1).
Proof.
  cbv zeta. intros i c1 c2 H1 H2.
  destruct (size_chain size overlap content fp) as (s1 & Hc & _).
  pose proof (split_lines_no_newline content) as Hnl.
  assert (Hin1 : c1 ∈ chunk_by_size_with size overlap content fp)
    by (eapply list_elem_of_lookup_2; eassumption).
  rewrite (lines_of_chain _ _ _ _ _ _ _ _ c1 Hnl Hc Hin1).
  destruct (chain_consecutive _ _ _ _ _ _ _ _ Hc i c1 c2 H1 H2) as (Hl & _).
  unfold windowed in Hl. split; [apply window_chars_bound|].
  split; [lia|].
  intros Ho. rewrite window_negative in Hl by exact Ho.
  change (PyList.len []) with 0 in Hl. lia.
Qed.

(** Four short lines with the target size 10 and the budget 5. *)
Lemma overlap_within_budget_witness :
  let c1 := mkChunk "f" (join_lines ["abcdefg"; "hi"]) 1 2 "block" in
  chars_of (window 5 (lines_of c1)) <= Z.max 0 (5 + 1).
Proof.
  intros c1.
  apply (overlap_within_budget 10 5 (join_lines ["abcdefg"; "hi"; "jk"; "l"])
           "f" 0%nat c1
           (mkChunk "f" (join_lines ["hi"; "jk"; "l"]) 2 4 "block")
           eq_refl eq_refl).
Defined.

Lemma suffix_same_length {A} (p w : list A) :
  length (p ++ w) = length w -> p = [].
Proof. rewrite length_app. destruct p; [reflexivity|cbn; lia]. Qed.

(** X4: when the target size is positive and above the overlap budget plus
    one, as configured, the chunks of [chunk_by_size] advance: of two
    neighbouring chunks the second starts on a later line than the first,
    and ends no earlier. *)
Theorem chunk_by_size_advances (size overlap : Z) (content fp : string) :
  0 < size -> overlap + 1 < size ->
  let cs := chunk_by_size_with size overlap content fp in
  forall i c1 c2, cs !! i = Some c1 -> cs !! S i = Some c2 ->
    start_line c1 < start_line c2 /\ end_line c1 <= end_line c2.
Proof.
  intros Hs Ho. cbv zeta. intros i c1 c2 H1 H2.
  destruct (size_chain size overlap content fp) as (s1 & Hc & Hsz).
  pose proof (split_lines_no_newline content) as Hnl.
  assert (Hin1 : c1 ∈ chunk_by_size_with size overlap content fp)
    by (eapply list_elem_of_lookup_2; eassumption).
  destruct (chain_elem _ _ _ _ _ _ _ _ Hc c1 Hin1) as (A1 & B1 & C1).
  destruct (chain_consecutive _ _ _ _ _ _ _ _ Hc i c1 c2 H1 H2) as (Hl & Hle).
  split; [|exact Hle].
  unfold windowed in Hl.
  set (ls := slice (split_lines content) (start_line c1) (end_line c1)) in *.
  assert (Hbig : size <= chars_of ls).
  { rewrite <- (join_chars ls) by (apply slice_nonempty; lia).
    rewrite <- C1. apply (Hsz i c1 H1).
    apply lookup_lt_Some in H2. exact H2. }
  pose proof (window_chars_bound overlap ls) as Hw.
  destruct (window_spec overlap ls) as (p & Hp & _).
  assert (Hlen : PyList.len ls = end_line c1 - start_line c1 + 1)
    by (apply slice_length; lia).
  assert (Hlt : PyList.len (window overlap ls) < PyList.len ls).
  { destruct (Z_lt_ge_dec (PyList.len (window overlap ls)) (PyList.len ls))
      as [Hlt|Hge]; [exact Hlt|exfalso].
    assert (p = []).
    { apply (suffix_same_length p (window overlap ls)).
      rewrite <- Hp. rewrite Hp in Hge at 2. rewrite len_app in Hge.
      pose proof (len_nonneg p). unfold PyList.len in *.
      rewrite Hp at 1. rewrite length_app. lia. }
    subst p. cbn [app] in Hp. rewrite <- Hp in Hw. lia. }
  lia.
Qed.

(** The same four lines: the second chunk starts on line 2. *)
Lemma chunk_by_size_advances_witness :
  start_line (mkChunk "f" (join_lines ["abcdefg"; "hi"]) 1 2 "block") <
  start_line (mkChunk "f" (join_lines ["hi"; "jk"; "l"]) 2 4 "block").
Proof.
  apply (chunk_by_size_advances 10 5
           (join_lines ["abcdefg"; "hi"; "jk"; "l"]) "f"
           ltac:(lia) ltac:(lia) 0%nat _ _ eq_refl eq_refl).
Defined.

Lemma nonempty_snoc {A} (l : list A) :
  l <> [] -> exists init last, l = init ++ [last].
Proof.
  intros Hne. destruct (List.exists_last Hne) as (init & last & ->). eauto.
Qed.

Lemma stops_at_size_content size c :
  stops_at_size size (lines_of c) ->
  exists init last,
    lines_of c = init ++ [last] /\ chars_of init < size /\
    PyStr.len (content c) = chars_of init + PyStr.len last.
Proof.
  intros (init & last & Hl & Hlt). exists init, last.
  split; [exact Hl|]. split; [exact Hlt|].
  pose proof (chars_of_content (content c)) as H.
  fold (lines_of c) in H. rewrite Hl, chars_of_app, chars_of_cons in H.
  cbn in H. lia.
Qed.

(** X5: when the target size is positive and above the overlap budget plus
    one, every chunk of [chunk_by_size] stops at the line that reaches the
    target: its lines without the last count less than [size] characters
    (each with its newline), so the chunk's length is below the target plus
    the length of its last line. *)
Theorem chunk_by_size_upper_bound (size overlap : Z) (content fp : string) :
  0 < size -> overlap + 1 < size ->
  forall c, c ∈ chunk_by_size_with size overlap content fp ->
    exists init last,
      lines_of c = init ++ [last] /\ chars_of init < size /\
      PyStr.len (Ingest.content c) = chars_of init + PyStr.len last.
Proof.
  intros Hs Ho c Hin. apply stops_at_size_content.
  revert c Hin. apply Forall_forall.
  unfold chunk_by_size_with. cbv zeta.
  set (L := split_lines content).
  pose proof (split_lines_no_newline content) as Hnl. fold L in Hnl.
  pose proof (size_loop_invariant size overlap fp L
    (fun done chunks cur chars cstart =>
       chars = chars_of cur /\ chars < size /\
       Forall (fun l => has_newline l = false) cur /\
       Forall (fun c => stops_at_size size (lines_of c)) chunks)) as H.
  destruct (size_loop size overlap fp L 1 [] [] 0 1) as [[cs0 cur0] cstart0].
  destruct H as (chars0 & -> & Hlt & Hnl0 & Hcs).
  - cbn. repeat split; try constructor. lia.
  - intros done line rest chunks cur chars cstart HL (-> & Hlt & Hn & Hcs) Hsz.
    split; [rewrite chars_of_app, chars_of_cons; cbn; lia|].
    split; [exact Hsz|]. split; [|exact Hcs].
    apply Forall_app. split; [exact Hn|]. constructor; [|constructor].
    rewrite HL in Hnl. apply Forall_app in Hnl as [_ Hnl].
    now inversion Hnl.
  - intros done line rest chunks cur chars cstart HL (-> & Hlt & Hn & Hcs) Hsz.
    cbv zeta.
    assert (Hn' : Forall (fun l => has_newline l = false) (cur ++ [line])).
    { apply Forall_app. split; [exact Hn|]. constructor; [|constructor].
      rewrite HL in Hnl. apply Forall_app in Hnl as [_ Hnl].
      now inversion Hnl. }
    split; [reflexivity|].
    split; [pose proof (window_chars_bound overlap (cur ++ [line])); lia|].
    split.
    + destruct (window_spec overlap (cur ++ [line])) as (p & Hp & _).
      rewrite Hp in Hn'. apply Forall_app in Hn' as [_ Hn']. exact Hn'.
    + apply Forall_app. split; [exact Hcs|]. constructor; [|constructor].
      unfold lines_of. cbn [Ingest.content].
      rewrite split_join; [|destruct cur; discriminate|exact Hn'].
      exists cur, line. split; [reflexivity|exact Hlt].
  - assert (Hemp : cur0 = [] \/ cur0 <> [])
      by (destruct cur0; [left; reflexivity|right; discriminate]).
    destruct Hemp as [->|Hne]; [exact Hcs|].
    replace (PyList.truthy cur0) with true
      by (destruct cur0; [congruence|reflexivity]).
    apply Forall_app. split; [exact Hcs|]. constructor; [|constructor].
    unfold lines_of. cbn [Ingest.content].
    rewrite split_join; [|exact Hne|exact Hnl0].
    destruct (nonempty_snoc cur0 Hne) as (init & last & Hl).
    exists init, last. split; [exact Hl|].
    rewrite Hl, chars_of_app in Hlt. pose proof (chars_of_nonneg [last]). lia.
Qed.

(** The four short lines with the target size 10 and the budget 5: the
    first chunk is the first line and the line that reaches the target. *)
Lemma chunk_by_size_upper_bound_witness :
  exists init last,
    lines_of (mkChunk "f" (join_lines ["abcdefg"; "hi"]) 1 2 "block") =
      init ++ [last] /\ chars_of init < 10 /\
    PyStr.len (join_lines ["abcdefg"; "hi"]) = chars_of init + PyStr.len last.
Proof.
  apply (chunk_by_size_upper_bound 10 5
           (join_lines ["abcdefg"; "hi"; "jk"; "l"]) "f"
           ltac:(lia) ltac:(lia)).
  eapply (list_elem_of_lookup_2 _ 0%nat). reflexivity.
Defined.

(** *** [chunk_code] *)

Lemma chain_path link fp L cs : forall s e s1 e1,
  chain link fp L s e cs s1 e1 -> forall c, c ∈ cs -> file_path c = fp.
Proof.
  induction cs as [|x cs IH]; intros s e s1 e1 Hc c Hin.
  - inversion Hin.
  - cbn in Hc. destruct Hc as (A & B & C & D & E & F).
    apply elem_of_cons in Hin as [->|Hin]; [exact D|]. eapply IH; eassumption.
Qed.

Lemma chunk_code_chain suffix_lower content fp :
  exists s1,
    chain touching fp (split_lines content) 1 0
      (chunk_code suffix_lower content fp) s1
      (PyList.len (split_lines content)).
Proof.
  assert (Hsize : exists s1,
    chain touching fp (split_lines content) 1 0 (chunk_by_size content fp) s1
      (PyList.len (split_lines content))).
  { destruct (size_chain CHUNK_SIZE CHUNK_OVERLAP content fp) as (s1 & Hc & _).
    exists s1. eapply windowed_touching; [lia..| |exact Hc].
    apply len_nonneg. }
  assert (Hpy : exists s1,
    chain touching fp (split_lines content) 1 0
      (extract_python_chunks content fp) s1
      (PyList.len (split_lines content))).
  { destruct (extract_chain content fp) as (s1 & Hc).
    exists s1. eapply adjacent_touching; [lia..| |exact Hc].
    apply len_nonneg. }
  unfold chunk_code. cbv zeta.
  destruct (String.eqb (suffix_lower fp) ".py"); [|exact Hsize].
  destruct (extract_python_chunks content fp) as [|c [|d cs]]; try exact Hpy.
  destruct (PyStr.len (Ingest.content c) >? CHUNK_SIZE * 2);
    [exact Hsize|exact Hpy].
Qed.

(** X6: whatever chunker [chunk_code] chooses, every chunk carries the path
    it was given, a line range inside the file, and as content the lines of
    that range joined by newlines, so that the number of its lines is the
    size of the range; the chunks are listed by start line, the last one
    ends on the last line of the file, and there is at least one. *)
Theorem chunk_code_locations
    (suffix_lower : string -> string) (content fp : string) :
  let L := split_lines content in
  let cs := chunk_code suffix_lower content fp in
  cs <> [] /\
  (forall c, c ∈ cs ->
     file_path c = fp /\
     1 <= start_line c <= end_line c /\ end_line c <= PyList.len L /\
     lines_of c = slice L (start_line c) (end_line c) /\
     PyList.len (lines_of c) = end_line c - start_line c + 1) /\
  (forall i c1 c2, cs !! i = Some c1 -> cs !! S i = Some c2 ->
     start_line c1 <= start_line c2 <= end_line c1 + 1 /\
     end_line c1 <= end_line c2) /\
  (forall c, last cs = Some c -> end_line c = PyList.len L).
Proof.
  cbv zeta.
  destruct (chunk_code_chain suffix_lower content fp) as (s1 & Hc).
  pose proof (split_lines_no_newline content) as Hnl.
  pose proof (split_lines_nonempty content) as Hne.
  set (L := split_lines content) in *.
  set (cs := chunk_code suffix_lower content fp) in *.
  split; [|split; [|split]].
  - intros E. rewrite E in Hc. cbn in Hc. destruct Hc as [_ Hc].
    destruct L; [congruence|]. cbn in Hc. len_lia.
  - intros c Hin.
    destruct (chain_elem _ _ _ _ _ _ _ _ Hc c Hin) as (A & B & C).
    pose proof (lines_of_chain _ _ _ _ _ _ _ _ c Hnl Hc Hin) as Hl.
    split; [eapply chain_path; eassumption|].
    split; [exact A|]. split; [exact B|]. split; [exact Hl|].
    rewrite Hl. apply slice_length; lia.
  - intros i c1 c2 H1 H2.
    destruct (chain_consecutive _ _ _ _ _ _ _ _ Hc i c1 c2 H1 H2) as (Hl & Hle).
    unfold touching in Hl. split; [exact Hl|exact Hle].
  - intros c Hlast. eapply chain_last; eassumption.
Qed.

(** A text without a definition in a Python file: one block. *)
Lemma chunk_code_locations_witness :
  let c := mkChunk "a.py" (join_lines ["x = 1"; "y = 2"]) 1 2 "block" in
  file_path c = "a.py" /\
  1 <= start_line c <= end_line c /\
  end_line c <= PyList.len (split_lines (join_lines ["x = 1"; "y = 2"])) /\
  lines_of c =
    slice (split_lines (join_lines ["x = 1"; "y = 2"]))
      (start_line c) (end_line c) /\
  PyList.len (lines_of c) = end_line c - start_line c + 1.
Proof.
  intros c.
  apply (proj1 (proj2 (chunk_code_locations Examples.suffix_lower
                         (join_lines ["x = 1"; "y = 2"]) "a.py")) c).
  vm_compute. apply list_elem_of_here.
Defined.

End ChunkerMore.

(** ** More on the scanner *)

Module ScannerMore.

Import Tools Scan ScanSpec ToolsMore StrFacts ChunkFacts.

(** *** Reading with a fallback of encodings *)

Lemma read_loop_first_decodable f encodings text :
  read_loop f encodings = Some text <->
  exists tried enc rest,
    encodings = tried ++ enc :: rest /\
    Forall (fun e => read_with f e = UnicodeDecodeError) tried /\
    read_with f enc = ReadOk text.
Proof.
  induction encodings as [|e es IH]; cbn [read_loop].
  - split; [discriminate|]. intros (tried & enc & rest & H & _).
    destruct tried; discriminate.
  - destruct (read_with f e) eqn:He.
    + split.
      * intros [= ->]. exists [], e, es. repeat split; [constructor|exact He].
      * intros (tried & enc & rest & H & Ht & Hr).
        destruct tried as [|t tried]; cbn in H; injection H as -> _.
        -- congruence.
        -- inversion Ht; congruence.
    + rewrite IH. split.
      * intros (tried & enc & rest & -> & Ht & Hr).
        exists (e :: tried), enc, rest.
        repeat split; [constructor; assumption|exact Hr].
      * intros (tried & enc & rest & H & Ht & Hr).
        destruct tried as [|t tried]; cbn in H; injection H as -> ->.
        -- congruence.
        -- exists tried, enc, rest. inversion Ht; subst. auto.
    + split; [discriminate|].
      intros (tried & enc & rest & H & Ht & Hr).
      destruct tried as [|t tried]; cbn in H; injection H as -> _.
      * congruence.
      * inversion Ht; congruence.
Qed.

(** X7: [read_file_content] returns the text of the first of utf-8,
    utf-8-sig, latin-1 and cp1252 under which the file decodes, when every
    encoding before it failed with a decoding error, and in no other case:
    an OS error under one encoding ends the attempts, and a later encoding
    that would decode is not consulted once an earlier one did. *)
Theorem read_file_content_first_decodable (f : file_entry) (text : string) :
  read_file_content f = Some text <->
  exists tried enc rest,
    ["utf-8"; "utf-8-sig"; "latin-1"; "cp1252"] = tried ++ enc :: rest /\
    Forall (fun e => read_with f e = UnicodeDecodeError) tried /\
    read_with f enc = ReadOk text.
Proof. apply read_loop_first_decodable. Qed.

(** A file that fails under both UTF-8 encodings and decodes as Latin-1:
    cp1252 is not consulted. *)
Lemma read_file_content_first_decodable_witness :
  read_file_content ExamplesMore.latin1_file = Some "int x;".
Proof.
  apply (proj2 (read_file_content_first_decodable ExamplesMore.latin1_file
                  "int x;")).
  exists ["utf-8"; "utf-8-sig"], "latin-1", ["cp1252"].
  split; [reflexivity|]. split; [|reflexivity].
  repeat constructor.
Defined.

(** *** Where the yielded files are *)

Lemma should_ignore_path_ignored path :
  should_ignore_path path = existsb ignored path.
Proof.
  apply eq_true_iff_eq. unfold should_ignore_path.
  rewrite !existsb_exists. split.
  - intros (ig & Hig & Hp). apply existsb_exists in Hp as (d & Hd & Heq).
    apply String.eqb_eq in Heq. subst d. exists ig. split; [exact Hd|].
    unfold ignored. apply existsb_exists. exists ig.
    split; [|apply String.eqb_refl].
    cbn in Hig |- *. tauto.
  - intros (d & Hd & Hig). unfold ignored in Hig.
    apply existsb_exists in Hig as (ig & Hin & Heq).
    apply String.eqb_eq in Heq. subst ig. exists d. split.
    + cbn in Hin |- *. tauto.
    + apply existsb_exists. exists d. split; [exact Hd|apply String.eqb_refl].
Qed.

Lemma visited_roots t : forall root r f,
  (r, f) ∈ visited root t ->
  exists ds, r = root ++ ds /\ existsb ignored ds = false.
Proof.
  induction t as [d dirs filenames IH] using Scanner.dir_tree_nested_ind.
  intros root r f Hin. cbn [visited] in Hin.
  apply elem_of_app in Hin as [Hin|Hin].
  - apply list_elem_of_In, in_map_iff in Hin as (f' & Heq & _).
    injection Heq as <- <-.
    exists []. split; [now rewrite app_nil_r|reflexivity].
  - induction IH as [|sub dirs Hsub _ IHdirs]; [inversion Hin|].
    destruct (ignored (name_of sub)) eqn:Hig; [exact (IHdirs Hin)|].
    apply elem_of_app in Hin as [Hin|Hin]; [|exact (IHdirs Hin)].
    apply Hsub in Hin as (ds & -> & Hds).
    exists (name_of sub :: ds). unfold path_join. rewrite <- app_assoc.
    split; [reflexivity|]. cbn [existsb]. now rewrite Hig, Hds.
Qed.

Lemma relative_to_app base rest : relative_to (base ++ rest) base = Some rest.
Proof.
  induction base as [|b base IH]; cbn [relative_to app].
  - destruct rest; reflexivity.
  - now rewrite String.eqb_refl.
Qed.

Section ScannerMore.

Variable suffix_lower : string -> string.

Lemma walk_elem repo t p rel content :
  (p, rel, content) ∈ walk suffix_lower repo repo t ->
  exists root f,
    (root, f) ∈ visited repo t /\
    (p, rel, content) ∈ load_file suffix_lower repo root f.
Proof.
  rewrite Scanner.walk_visited, list_elem_of_In, in_flat_map.
  intros ([root f] & Hin & Hy). exists root, f.
  now rewrite !list_elem_of_In.
Qed.

(** X8: every file [load_files] yields lies below the repository, in a
    directory none of whose names from the repository down is one of the
    ignored names of the configuration ([should_ignore_path] is false on
    them), and its relative path is these names and the file's name joined
    by slashes: it is never the fallback to the full path. *)
Theorem load_files_relative_paths
    (repo : Path) (fs : option dir_tree) (triples : list triple) :
  load_files suffix_lower repo fs = inr triples ->
  forall p rel content, (p, rel, content) ∈ triples ->
    exists ds nm,
      p = repo ++ ds ++ [nm] /\ rel = path_str (ds ++ [nm]) /\
      should_ignore_path ds = false.
Proof.
  intros Hload p rel content Hin.
  destruct fs as [t|]; [|discriminate]. cbn in Hload. injection Hload as <-.
  apply walk_elem in Hin as (root & f & Hv & Hy).
  apply Scanner.load_file_elem in Hy as (-> & -> & _).
  apply visited_roots in Hv as (ds & -> & Hds).
  exists ds, (name f). unfold path_join. rewrite <- app_assoc.
  split; [reflexivity|]. split; [|now rewrite should_ignore_path_ignored].
  unfold get_relative_path. now rewrite relative_to_app.
Qed.

(** *** Ingesting, then rebuilding a file *)

Lemma filter_path_other fp fp' cs :
  Forall (fun c => file_path c = fp') cs -> fp' <> fp ->
  List.filter (fun chunk => String.eqb (file_path chunk) fp) cs = [].
Proof.
  intros Hall Hne. induction Hall as [|c cs Hc _ IH]; [reflexivity|].
  cbn [List.filter]. rewrite Hc.
  destruct (String.eqb_spec fp' fp); [congruence|exact IH].
Qed.

Lemma chunk_code_paths content fp :
  Forall (fun c => file_path c = fp) (chunk_code suffix_lower content fp).
Proof.
  destruct (ChunkerMore.chunk_code_chain suffix_lower content fp) as (s1 & Hc).
  apply Forall_forall. intros c Hin. eapply ChunkerMore.chain_path; eassumption.
Qed.

Local Abbreviation chunks_of := (ScanSpecMore.chunks_of suffix_lower).

Lemma filter_no_triple fp triples :
  fp ∉ map (fun '(_, rel, _) => rel) triples ->
  List.filter (fun chunk => String.eqb (file_path chunk) fp)
    (chunks_of triples) = [].
Proof.
  induction triples as [|[[p rel] content] triples IH]; intros Hnot;
    [reflexivity|].
  unfold ScanSpecMore.chunks_of in *. cbn [flat_map map] in *. rewrite List.filter_app.
  apply not_elem_of_cons in Hnot as [Hne Hnot].
  rewrite (filter_path_other fp rel); [|apply chunk_code_paths|congruence].
  apply IH. exact Hnot.
Qed.

Lemma filter_one_triple p rel content triples :
  NoDup (map (fun '(_, rel, _) => rel) triples) ->
  (p, rel, content) ∈ triples ->
  List.filter (fun chunk => String.eqb (file_path chunk) rel)
    (chunks_of triples) = chunk_code suffix_lower content rel.
Proof.
  induction triples as [|[[p0 rel0] content0] triples IH]; intros Hnd Hin;
    [inversion Hin|].
  unfold ScanSpecMore.chunks_of in *. cbn [flat_map map] in *. rewrite List.filter_app.
  apply NoDup_cons in Hnd as [Hnot Hnd].
  apply elem_of_cons in Hin as [[= <- <- <-]|Hin].
  - destruct (ChunkerMore.chunk_code_chain suffix_lower content rel)
      as (s1 & Hc).
    rewrite (filter_path_chain _ _ _ _ _ _ _ _ Hc).
    pose proof (filter_no_triple rel triples Hnot) as Hn.
    unfold ScanSpecMore.chunks_of in Hn. rewrite Hn.
    apply app_nil_r.
  - rewrite (filter_path_other rel rel0); [|apply chunk_code_paths|].
    + apply IH; assumption.
    + intros ->. apply Hnot.
      apply (list_elem_of_fmap_2 (fun '(_, rel, _) => rel) _ _ Hin).
Qed.

(** X9: when the files [load_files] yields have distinct relative paths,
    [ingest_repository] returns chunks from which [get_file_context] gives
    back, for the relative path of every yielded file, exactly the content
    that was read, whatever the other files contributed; for a path no
    yielded file has, it gives [None]. *)
Theorem ingest_then_get_file_context
    (repo : Path) (fs : option dir_tree) (triples : list triple) :
  load_files suffix_lower repo fs = inr triples ->
  NoDup (map (fun '(_, rel, _) => rel) triples) ->
  exists chunks,
    ingest_repository suffix_lower repo fs = inr chunks /\
    (forall p rel content, (p, rel, content) ∈ triples ->
       Retrieve.get_file_context chunks rel = Some content) /\
    (forall fp, fp ∉ map (fun '(_, rel, _) => rel) triples ->
       Retrieve.get_file_context chunks fp = None).
Proof.
  intros Hload Hnd. exists (chunks_of triples).
  split; [unfold ingest_repository; now rewrite Hload|]. split.
  - intros p rel content Hin.
    destruct (ChunkerMore.chunk_code_chain suffix_lower content rel)
      as (s1 & Hc).
    pose proof (get_file_context_chain rel content _ s1 Hc) as H.
    unfold Retrieve.get_file_context in H |- *. cbv zeta in H |- *.
    rewrite (filter_path_chain _ _ _ _ _ _ _ _ Hc) in H.
    rewrite (filter_one_triple p rel content triples Hnd Hin). exact H.
  - intros fp Hnot. unfold Retrieve.get_file_context. cbv zeta.
    now rewrite filter_no_triple.
Qed.

End ScannerMore.

(** The nested repository: the file two directories down. *)
Lemma load_files_relative_paths_witness :
  exists ds nm,
    ["repo"; "src"; "app"; "util.py"] = ["repo"] ++ ds ++ [nm] /\
    "src/app/util.py" = path_str (ds ++ [nm]) /\
    should_ignore_path ds = false.
Proof.
  apply (load_files_relative_paths Examples.suffix_lower ["repo"]
           (Some ExamplesMore.nested_repo) _ eq_refl
           ["repo"; "src"; "app"; "util.py"] "src/app/util.py"
           (PyStr.join_lines ["def f():"; "    return 1"])).
  vm_compute. apply list_elem_of_further, list_elem_of_here.
Defined.

(** The nested repository: both files come back from the chunks. *)
Lemma ingest_then_get_file_context_witness :
  exists chunks,
    ingest_repository Examples.suffix_lower ["repo"]
      (Some ExamplesMore.nested_repo) = inr chunks /\
    Retrieve.get_file_context chunks "src/app/util.py" =
      Some (PyStr.join_lines ["def f():"; "    return 1"]) /\
    Retrieve.get_file_context chunks "main.py" = Some "x = 1" /\
    Retrieve.get_file_context chunks "node_modules/dep.js" = None.
Proof.
  destruct (ingest_then_get_file_context Examples.suffix_lower ["repo"]
              (Some ExamplesMore.nested_repo) _ eq_refl)
    as (chunks & Hing & Hback & Hnone).
  - apply (bool_decide_eq_true_1 _). vm_compute. reflexivity.
  - exists chunks. split; [exact Hing|]. split; [|split].
    + apply (Hback ["repo"; "src"; "app"; "util.py"]).
      vm_compute. apply list_elem_of_further, list_elem_of_here.
    + apply (Hback ["repo"; "main.py"]). vm_compute. apply list_elem_of_here.
    + apply Hnone. apply (bool_decide_eq_true_1 _). vm_compute. reflexivity.
Defined.

End ScannerMore.

(** ** Truncation *)

Module ToolsFacts.

Import Tools ToolsMore StrFacts.

Lemma prefix_length n s :
  String.length (PyStr.prefix n s) = Nat.min n (String.length s).
Proof.
  revert s. induction n as [|n IH]; intros [|c s]; cbn; try reflexivity.
  now rewrite IH.
Qed.

Lemma prefix_append n s t :
  (n <= String.length s)%nat ->
  PyStr.prefix n (s +:+ t) = PyStr.prefix n s.
Proof.
  revert s. induction n as [|n IH]; intros s Hn; [reflexivity|].
  destruct s as [|c s]; cbn in Hn; [lia|].
  rewrite append_cons. cbn. f_equal. apply IH. lia.
Qed.

Lemma prefix_prefix n s : PyStr.prefix n (PyStr.prefix n s) = PyStr.prefix n s.
Proof.
  revert s. induction n as [|n IH]; intros [|c s]; cbn; try reflexivity.
  now rewrite IH.
Qed.

(** X10: for a limit that is not negative, [truncate_content] keeps a
    content within the limit as it is, and otherwise returns the first
    [max_chars] characters of the content followed by a marker of 16
    characters: the result has [max_chars + 16] characters, more than the
    limit, and more than the content itself when the content exceeds the
    limit by fewer than 16. *)
Theorem truncate_content_length (content : string) (max_chars : Z) :
  0 <= max_chars ->
  PyStr.len (truncate_content content max_chars) <= max_chars + 16 /\
  (max_chars < PyStr.len content ->
   PyStr.len (truncate_content content max_chars) = max_chars + 16 /\
   PyStr.prefix (Z.to_nat max_chars) (truncate_content content max_chars) =
     PyStr.prefix (Z.to_nat max_chars) content).
Proof.
  intros Hm. unfold truncate_content.
  destruct (PyStr.len content <=? max_chars) eqn:Hle.
  - split; [lia|lia].
  - assert (Hgt : max_chars < PyStr.len content) by lia.
    unfold slice_to. replace (max_chars <? 0) with false by lia.
    assert (Hlen : PyStr.len (PyStr.prefix (Z.to_nat max_chars) content +:+
                              truncated_marker) = max_chars + 16).
    { unfold PyStr.len in *. rewrite length_append, prefix_length.
      change (String.length truncated_marker) with 16%nat. lia. }
    split; [lia|]. intros _. split; [exact Hlen|].
    rewrite prefix_append; [apply prefix_prefix|].
    rewrite prefix_length. unfold PyStr.len in Hgt. lia.
Qed.

(** A content of 12 characters with the limit 5: 21 characters come back. *)
Lemma truncate_content_length_witness :
  PyStr.len (truncate_content "print(hello)" 5) = 5 + 16.
Proof.
  apply (truncate_content_length "print(hello)" 5 ltac:(lia)).
  vm_compute. reflexivity.
Defined.

End ToolsFacts.

(** ** More on the vector store *)

Module StoreMore.

Import PyStr Tools Embed StoreSpec ChunkFacts.

Section StoreMore.

Context {vec score model faiss_index : Type}.
Variable B : backend vec score model faiss_index.

Local Abbreviation store := (VectorStore vec model faiss_index).
Local Abbreviation fsys := (filesystem vec faiss_index).

(** *** What [save] writes *)



Lemma save_embeddings_file name (s : store) (fs : fsys) :
  files (save name s fs) !!
    path_join (path_div (store_dir s) name) "embeddings.npy" =
  match embeddings s with
  | Some e => Some (NpyFile e)
  | None =>
      files fs !! path_join (path_div (store_dir s) name) "embeddings.npy"
  end.
Proof.
  unfold save. cbv zeta.
  destruct (embeddings s), (index s); cbn [files write mkdir];
    repeat (rewrite lookup_insert_ne
              by (intros H; apply Store.path_join_inj in H; discriminate));
    try apply lookup_insert_eq; reflexivity.
Qed.

Lemma save_chunks_file name (s : store) (fs : fsys) :
  files (save name s fs) !!
    path_join (path_div (store_dir s) name) "chunks.json" =
  Some (JsonFile (map chunk_to_dict (chunks s))).
Proof.
  unfold save. cbv zeta.
  destruct (embeddings s), (index s); cbn [files write mkdir];
    repeat (rewrite lookup_insert_ne
              by (intros H; apply Store.path_join_inj in H; discriminate));
    apply lookup_insert_eq.
Qed.

Lemma save_index_file name (s : store) (fs : fsys) :
  files (save name s fs) !!
    path_join (path_div (store_dir s) name) "index.faiss" =
  match index s with
  | Some ix => Some (FaissFile ix)
  | None => files fs !! path_join (path_div (store_dir s) name) "index.faiss"
  end.
Proof.
  unfold save. cbv zeta.
  destruct (embeddings s), (index s); cbn [files write mkdir];
    repeat (rewrite lookup_insert_ne
              by (intros H; apply Store.path_join_inj in H; discriminate));
    try apply lookup_insert_eq; reflexivity.
Qed.

(** *** What [load] reads *)


Lemma load_false_missing (name : string) (fs : fsys) (s s' : store) :
  load B name fs s = (inr false, s') <->
  exists_path fs (path_div (store_dir s) name) = false /\ s' = s.
Proof.
  unfold load, bind, get.
  destruct (exists_path fs (path_div (store_dir s) name)) eqn:Hd;
    cbn [negb].
  - split; [|intros [H _]; discriminate].
    intros H. exfalso. revert H.
    unfold modify, raise, ret, lift, _init_faiss_index, modify.
    repeat match goal with
           | |- context [match ?x with _ => _ end] => destruct x eqn:?
           end; discriminate.
  - unfold ret. split.
    + intros [= <-]. auto.
    + intros [_ ->]. reflexivity.
Qed.

(** X11: [load] returns [False] exactly when nothing exists at the path
    [store_dir / name], neither a directory nor a regular file, and then
    the store is as it was: whenever something exists there, [load] returns
    [True] or raises.  The path is the one pathlib makes of the name, so for
    the empty name it is the store directory itself; it is taken to be
    written without [..]. *)
Theorem load_false_iff_missing (name : string) (fs : fsys) (s s' : store) :
  ".." ∉ path_div (store_dir s) name ->
  (load B name fs s = (inr false, s') <->
   exists_path fs (path_div (store_dir s) name) = false /\ s' = s).
Proof. intros _. apply load_false_missing. Qed.



(** What [load] does after [save] under the same name, into a fresh store
    on the same directory. *)
Lemma load_saved (s : store) name (fs : fsys) e :
  embeddings s = Some e ->
  load B name (save name s fs) (init (store_dir s)) =
  let s1 := mkStore (store_dir s) None None (chunks s) (Some e) in
  match
    match index s with
    | Some ix => Some (FaissFile ix)
    | None => files fs !! path_join (path_div (store_dir s) name) "index.faiss"
    end
  with
  | None => (inr true, s1)
  | Some f =>
      if faiss_available B then
        match f with
        | FaissFile ix =>
            (inr true,
             mkStore (store_dir s) None (Some ix) (chunks s) (Some e))
        | _ => (inl CorruptFile, s1)
        end
      else
        match shape1 e with
        | Some _ => (inr true, s1)
        | None => (inl IndexError, s1)
        end
  end.
Proof.
  intros He. cbv zeta. unfold load, bind, get. cbn [init store_dir].
  rewrite Store.save_exists. cbn [negb].
  rewrite save_embeddings_file, save_chunks_file, save_index_file, He.
  unfold modify at 1. unfold lift at 1, modify at 1.
  rewrite Store.comprehension_dicts.
  destruct (match index s with
            | Some ix => Some (FaissFile ix)
            | None => _
            end) as [f|]; [|reflexivity].
  destruct (faiss_available B) eqn:Hf.
  - destruct f; reflexivity.
  - unfold get, lift, _init_faiss_index. cbn [embeddings set_chunks set_embeddings].
    rewrite Hf. destruct (shape1 e); reflexivity.
Qed.

(** X13: [save] writes [index.faiss] only when the store has an index and
    never removes one.  So when a store without an index is saved under a
    name that already holds an index file, and is loaded where FAISS can be
    imported, the loaded store pairs the chunks and embeddings just saved
    with the index that was there before. *)
Theorem stale_index_file_is_loaded
    (s : store) (name : string) (fs : fsys) (e : ndarray vec)
    (old : faiss_index) :
  embeddings s = Some e -> index s = None ->
  files fs !! path_join (path_div (store_dir s) name) "index.faiss" =
    Some (FaissFile old) ->
  faiss_available B = true ->
  load B name (save name s fs) (init (store_dir s)) =
    (inr true, mkStore (store_dir s) None (Some old) (chunks s) (Some e)).
Proof.
  intros He Hix Hold Hf. rewrite (load_saved s name fs e He).
  cbv zeta. rewrite Hix, Hold, Hf. reflexivity.
Qed.

(** *** Searching *)

Lemma search_again (s s' : store) q k r :
  search B q k s = (r, s') ->
  store_dir s' = store_dir s /\ index s' = index s /\
  chunks s' = chunks s /\ embeddings s' = embeddings s /\
  (forall q' k', search B q' k' s' = (fst (search B q' k' s), s')).
Proof.
  intros Hs.
  destruct (embeddings s) as [E|] eqn:He.
  2:{ rewrite Store.search_raises in Hs by auto. injection Hs as <- <-.
      do 4 (split; [first [reflexivity|assumption]|]). intros q' k'.
      now rewrite Store.search_raises by auto. }
  destruct (chunks s) as [|c cs] eqn:Hc.
  { rewrite Store.search_raises in Hs by auto. injection Hs as <- <-.
    do 4 (split; [first [reflexivity|assumption]|]). intros q' k'.
    now rewrite Store.search_raises by auto. }
  destruct (loaded_model B s) as [m|] eqn:Hm.
  - rewrite (Store.search_run B s m E q k He) in Hs by congruence.
    injection Hs as _ <-.
    assert (Hs1 : store_dir (with_model m s) = store_dir s /\
                  index (with_model m s) = index s /\
                  chunks (with_model m s) = chunks s /\
                  embeddings (with_model m s) = embeddings s /\
                  loaded_model B (with_model m s) = Some m /\
                  with_model m (with_model m s) = with_model m s).
    { unfold with_model, loaded_model in *.
      destruct (model_ s) eqn:Hms; cbn; rewrite ?Hms; auto 10. }
    destruct Hs1 as (H1 & H2 & H3 & H4 & H5 & H6).
    rewrite H2, H3, H4, He, Hc. do 4 (split; [first [reflexivity|assumption]|]).
    intros q' k'.
    rewrite (Store.search_run B (with_model m s) m E q' k')
      by (rewrite ?H3, ?H4, ?Hc; congruence).
    rewrite (Store.search_run B s m E q' k' He) by congruence.
    rewrite H2, H3, H6, Hc. reflexivity.
  - assert (Hraise : forall q' k', search B q' k' s = (inl ImportError, s)).
    { intros q' k'. unfold search, bind, get. rewrite He, Hc.
      replace (PyList.len (c :: cs) =? 0) with false
        by (rewrite len_cons; pose proof (len_nonneg cs); lia).
      unfold loaded_model in Hm. unfold _load_model, bind, get.
      destruct (model_ s); [discriminate|]. rewrite Hm. reflexivity. }
    rewrite Hraise in Hs. injection Hs as <- <-.
    rewrite He, Hc. do 4 (split; [first [reflexivity|assumption]|]).
    intros q' k'. now rewrite Hraise.
Qed.

(** X14: [search] assigns nothing but the lazily loaded model: the
    directory, the index, the chunks and the embeddings of the store are
    the same after the call, whether it returns or raises; and on the store
    it leaves, any search gives what it gives on the store before, and
    leaves that store as it is. *)
Theorem search_leaves_store (s s' : store) q k r :
  search B q k s = (r, s') ->
  store_dir s' = store_dir s /\ index s' = index s /\
  chunks s' = chunks s /\ embeddings s' = embeddings s /\
  (forall q' k', search B q' k' s' = (fst (search B q' k' s), s')).
Proof. apply search_again. Qed.

(** The positions [np.argsort] returns are the positions of the array,
    each once: with [top_k = 0] the slice [[-0:]] keeps them all. *)
Lemma omap_Forall2 {A C} (f : A -> option C) p (ys : list C) :
  Forall2 (fun x y => f x = Some y) p ys -> omap f p = ys.
Proof.
  induction 1 as [|x y p ys H _ IH]; [reflexivity|].
  cbn [omap list_omap]. rewrite H. cbn. now rewrite IH.
Qed.

(** X15: without FAISS, [search] with [top_k = 0] returns every chunk of
    the store, each once: the slice [[-top_k:]] is then the whole result of
    [np.argsort], which holds every position once. *)
Theorem search_top_k_zero (s : store) (m : model) (E : ndarray vec)
    (q : string) :
  embeddings s = Some E -> chunks s <> [] ->
  length (rows E) = length (chunks s) ->
  loaded_model B s = Some m -> index s = None ->
  let sims := similarities B E (encode_query B m q) in
  argsort B sims ≡ₚ map Z.of_nat (seq 0 (length sims)) ->
  exists results,
    search B q 0 s = (inr results, with_model m s) /\
    map fst results ≡ₚ chunks s.
Proof.
  intros He Hc Hrows Hm Hix sims Hperm.
  rewrite (Store.search_run B s m E q 0 He Hc Hm), Hix. fold sims.
  set (p := argsort B sims) in *.
  assert (Hlen : length sims = length (chunks s)).
  { unfold sims, similarities. rewrite length_map. exact Hrows. }
  unfold top_indices, PyList.slice_last, PyList.slice_from. fold p.
  change (- 0 <? 0) with false. cbv iota. change (Z.to_nat (- 0)) with 0%nat.
  rewrite drop_0.
  destruct (Store.comprehension_Forall2
    (fun idx =>
       match py_index (chunks s) idx with
       | inl e => inl e
       | inr c =>
           match py_index sims idx with
           | inl e => inl e
           | inr sc => inr (c, sc)
           end
       end)
    (fun idx (r : CodeChunk * score) =>
       chunks s !! Z.to_nat idx = Some (fst r)) (rev p))
    as (results & Hres & HF).
  { apply Forall_forall. intros idx Hin.
    apply list_elem_of_In, in_rev, list_elem_of_In in Hin.
    rewrite Hperm in Hin.
    apply list_elem_of_fmap in Hin as (i & -> & Hi).
    apply elem_of_seq in Hi.
    destruct (lookup_lt_is_Some_2 sims i ltac:(lia)) as [sc Hsc].
    destruct (lookup_lt_is_Some_2 (chunks s) i ltac:(lia)) as [c Hcs].
    exists (c, sc). rewrite (Store.py_index_lookup _ _ _ Hcs).
    rewrite (Store.py_index_lookup _ _ _ Hsc). rewrite Nat2Z.id. auto. }
  exists results. split; [now rewrite Hres|].
  assert (Hmap : omap (fun idx => chunks s !! Z.to_nat idx) (rev p) =
                 map fst results).
  { apply omap_Forall2. apply Forall2_fmap_r. exact HF. }
  rewrite <- Hmap.
  transitivity (omap (fun idx => chunks s !! Z.to_nat idx) p).
  { apply omap_Permutation. symmetry. apply Permutation_rev. }
  transitivity (omap (fun idx => chunks s !! Z.to_nat idx)
                  (map Z.of_nat (seq 0 (length (chunks s))))).
  { apply omap_Permutation. rewrite <- Hlen. exact Hperm. }
  pose proof (Store.values_at_all (chunks s)) as Hall.
  unfold values_at in Hall. rewrite Hall. reflexivity.
Qed.

End StoreMore.

(** Nothing at the path of the name: [load] returns [False]. *)
Lemma load_false_iff_missing_witness :
  load Examples.with_faiss "default" Examples.empty_fs (init ["store"]) =
    (inr false, init ["store"]).
Proof.
  apply (load_false_iff_missing Examples.with_faiss "default"
           Examples.empty_fs (init ["store"]) (init ["store"])).
  - apply (bool_decide_eq_true_1 _). vm_compute. reflexivity.
  - split; [vm_compute; reflexivity|reflexivity].
Defined.


(** The populated store, built without FAISS, saved over an index file. *)
Lemma stale_index_file_is_loaded_witness :
  let fs := write ["store"; "default"; "index.faiss"] (FaissFile [7; 7])
              Examples.empty_fs in
  load Examples.with_faiss "default" (save "default" Examples.populated fs)
    (init ["store"]) =
  (inr true,
   mkStore ["store"] None (Some [7; 7]) Examples.three_chunks
     (Some (mkArray [3; 1; 2] (Some 1)))).
Proof.
  apply (stale_index_file_is_loaded Examples.with_faiss Examples.populated
           "default" _ (mkArray [3; 1; 2] (Some 1)) [7; 7]
           eq_refl eq_refl).
  - vm_compute. reflexivity.
  - reflexivity.
Defined.

(** The populated store and the ascending order of its three products. *)
Lemma search_top_k_zero_witness :
  exists results,
    search Examples.numpy_only "ab" 0 Examples.populated =
      (inr results, with_model tt Examples.populated) /\
    map fst results ≡ₚ Examples.three_chunks.
Proof.
  apply (search_top_k_zero Examples.numpy_only Examples.populated tt
           (mkArray [3; 1; 2] (Some 1)) "ab"
           eq_refl ltac:(discriminate) eq_refl eq_refl eq_refl).
  apply (bool_decide_eq_true_1 _). vm_compute. reflexivity.
Defined.

(** On the populated store, a search and then another. *)
Lemma search_leaves_store_witness :
  chunks (with_model tt Examples.populated) = Examples.three_chunks.
Proof.
  apply (search_leaves_store Examples.numpy_only Examples.populated
           (with_model tt Examples.populated) "ab" 2
           (inr [(mkChunk "a.py" "def f(): pass" 1 1 "function", 6);
                 (mkChunk "c.py" "class C: pass" 1 1 "class", 4)])).
  vm_compute. reflexivity.
Defined.

End StoreMore.

(** ** More on the retriever *)

Module RetrieverMore.

Import PyStr Tools ToolsMore Embed StoreSpec Retrieve Context StrFacts
  ChunkFacts.

Section RetrieverMore.

Context {vec score model faiss_index : Type}.
Variable B : backend vec score model faiss_index.
Variable hash : string -> Z.
Variable format_score : score -> string.

Local Abbreviation store := (VectorStore vec model faiss_index).
Local Abbreviation fsys := (filesystem vec faiss_index).

(** *** The first result *)

Lemma filter_loop_extends top_k max_tokens :
  forall (results : list (CodeChunk * score)) seen filtered total,
  exists extra,
    filter_loop hash top_k max_tokens results seen filtered total =
    filtered ++ extra.
Proof.
  induction results as [|[chunk sc] rest IH]; intros seen filtered total;
    cbn [filter_loop]; cbv zeta.
  - exists []. now rewrite app_nil_r.
  - destruct (bool_decide (content_hash hash chunk ∈ seen)); [apply IH|].
    destruct (total + estimate_tokens (content chunk) >? max_tokens);
      [apply IH|].
    destruct (PyList.len (filtered ++ [(chunk, sc)]) >=? top_k).
    + exists [(chunk, sc)]. reflexivity.
    + destruct (IH ({[content_hash hash chunk]} ∪ seen)
                  (filtered ++ [(chunk, sc)])
                  (total + estimate_tokens (content chunk)))
        as (extra & ->).
      exists ((chunk, sc) :: extra). now rewrite <- app_assoc.
Qed.

(** X16: when the first result of [search] fits the token budget,
    [retrieve] returns it first, whatever [top_k] is; for a [top_k] of at
    most one, also zero or negative, it is all that [retrieve] returns: the
    limit is tested only after a result was appended. *)
Theorem retrieve_keeps_first_result (s s1 : store) (query : string)
    (top_k max_tokens : Z) (c : CodeChunk) (sc : score)
    (rest : list (CodeChunk * score)) :
  search B query (top_k * 2) s = (inr ((c, sc) :: rest), s1) ->
  estimate_tokens (content c) <= max_tokens ->
  exists more,
    retrieve B hash query top_k max_tokens s = (inr ((c, sc) :: more), s1) /\
    (top_k <= 1 -> more = []).
Proof.
  intros Hs Hfit. unfold retrieve, bind, ret. rewrite Hs.
  cbn [filter_loop]. cbv zeta.
  rewrite bool_decide_eq_false_2 by set_solver.
  replace (0 + estimate_tokens (content c) >? max_tokens) with false by lia.
  cbn [app]. change (PyList.len [(c, sc)]) with 1.
  destruct (1 >=? top_k) eqn:Hk.
  - exists []. split; [reflexivity|auto].
  - destruct (filter_loop_extends top_k max_tokens rest
                ({[content_hash hash c]} ∪ ∅) [(c, sc)]
                (0 + estimate_tokens (content c))) as (extra & ->).
    exists extra. split; [reflexivity|]. lia.
Qed.

(** *** The context handed to the model *)

Lemma parts_loop_acc (rs : list (CodeChunk * score)) : forall i acc,
  parts_loop format_score rs i acc = acc ++ parts_loop format_score rs i [].
Proof.
  induction rs as [|[c sc] rs IH]; intros i acc; cbn [parts_loop]; cbv zeta.
  - now rewrite app_nil_r.
  - rewrite IH. rewrite (IH _ (([] ++ _) ++ _)).
    rewrite <- !app_assoc. reflexivity.
Qed.

Lemma parts_loop_lookup (rs : list (CodeChunk * score)) : forall i n c sc,
  rs !! n = Some (c, sc) ->
  exists pre post,
    parts_loop format_score rs i [] =
    pre ++ [banner format_score (i + Z.of_nat n) c sc; fenced c] ++ post.
Proof.
  induction rs as [|[c0 sc0] rs IH]; intros i n c sc Hn; [discriminate|].
  cbn [parts_loop]. cbv zeta. rewrite parts_loop_acc. destruct n as [|n].
  - injection Hn as -> ->.
    exists [], (parts_loop format_score rs (i + 1) []).
    rewrite Z.add_0_r. reflexivity.
  - cbn in Hn. destruct (IH (i + 1) n c sc Hn) as (pre & post & ->).
    exists ([banner format_score i c0 sc0; fenced c0] ++ pre), post.
    replace (i + 1 + Z.of_nat n) with (i + Z.of_nat (S n)) by lia.
    rewrite <- !app_assoc. reflexivity.
Qed.

Lemma join_first_char a x l :
  exists t, join_lines (String a x :: l) = String a t.
Proof.
  destruct l as [|y l]; [exists x; reflexivity|].
  rewrite join_cons by discriminate. rewrite append_cons. eauto.
Qed.

Lemma nl_append x : nl +:+ x = String newline x.
Proof. unfold nl. now rewrite append_cons, append_nil. Qed.

Lemma append_empty_r s : s +:+ "" = s.
Proof.
  induction s as [|a s IH]; [reflexivity|]. now rewrite append_cons, IH.
Qed.

Lemma context_header_head : exists x, context_header = String "H" x.
Proof.
  eexists. unfold context_header. rewrite append_cons. reflexivity.
Qed.

Lemma format_context_first_char (results : list (CodeChunk * score)) :
  exists t,
    format_context format_score results = String "N" t \/
    format_context format_score results = String "H" t.
Proof.
  unfold format_context. destruct results as [|r rs]; cbn [PyList.truthy negb].
  - eexists. left. reflexivity.
  - rewrite parts_loop_acc. cbn [app].
    destruct context_header_head as (x & ->).
    destruct (join_first_char "H" x
                (parts_loop format_score (r :: rs) 1 [])) as (t & Ht).
    exists t. right. exact Ht.
Qed.

(** X17: the context [retrieve_as_context] builds is the fixed sentence for
    no results exactly when there are none; otherwise it holds, for every
    result, the banner with the result's number counted from one, and
    after a newline the chunk's content between its fences, unchanged. *)
Theorem format_context_shows_results (results : list (CodeChunk * score)) :
  (format_context format_score results = no_relevant_code <-> results = []) /\
  (forall n c sc, results !! n = Some (c, sc) ->
     exists before after,
       format_context format_score results =
       before +:+ banner format_score (Z.of_nat n + 1) c sc +:+ nl +:+
       fenced c +:+ after).
Proof.
  split.
  - split; [|intros ->; reflexivity].
    destruct results as [|r rs]; [reflexivity|]. intros H. exfalso.
    destruct (format_context_first_char (r :: rs)) as (t & [Ht|Ht]).
    + unfold format_context in Ht. cbn [PyList.truthy negb] in Ht.
      rewrite parts_loop_acc in Ht. cbn [app] in Ht.
      destruct context_header_head as (x & Hx). rewrite Hx in Ht.
      destruct (join_first_char "H" x
                  (parts_loop format_score (r :: rs) 1 [])) as (t' & Ht').
      rewrite Ht' in Ht. discriminate.
    + rewrite Ht in H. discriminate.
  - intros n c sc Hn. unfold format_context.
    destruct results as [|r rs]; [discriminate|]. cbn [PyList.truthy negb].
    rewrite parts_loop_acc.
    destruct (parts_loop_lookup (r :: rs) 1 n c sc Hn) as (pre & post & ->).
    rewrite app_assoc. rewrite join_app by (try discriminate; destruct pre; discriminate).
    replace (1 + Z.of_nat n) with (Z.of_nat n + 1) by lia.
    set (b := banner format_score (Z.of_nat n + 1) c sc).
    exists (join_lines ([context_header] ++ pre) +:+ nl).
    change ([b; fenced c] ++ post) with (b :: fenced c :: post).
    rewrite join_cons by discriminate.
    destruct post as [|x post].
    + exists "". change (join_lines [fenced c]) with (fenced c).
      rewrite append_empty_r, append_assoc, !nl_append. reflexivity.
    + exists (String newline (join_lines (x :: post))).
      rewrite (join_cons (fenced c)) by discriminate.
      rewrite append_assoc, !nl_append. reflexivity.
Qed.



End RetrieverMore.


(** One result: its banner carries the number 1. *)
Lemma format_context_shows_results_witness :
  let c := mkChunk "a.py" "def f(): pass" 1 1 "function" in
  exists before after,
    format_context ExamplesMore.format_score [(c, 6)] =
    before +:+ banner ExamplesMore.format_score 1 c 6 +:+ nl +:+
    fenced c +:+ after.
Proof.
  intros c.
  apply (proj2 (format_context_shows_results ExamplesMore.format_score
                  [(c, 6)]) 0%nat c 6 eq_refl).
Defined.

(** Nothing asked for ([top_k = 0]) on the populated store: one result. *)
Lemma retrieve_keeps_first_result_witness :
  retrieve Examples.numpy_only PyStr.len "ab" 0 5 Examples.populated =
    (inr [(mkChunk "a.py" "def f(): pass" 1 1 "function", 6)],
     with_model tt Examples.populated).
Proof.
  destruct (retrieve_keeps_first_result Examples.numpy_only PyStr.len
              Examples.populated (with_model tt Examples.populated)
              "ab" 0 5 (mkChunk "a.py" "def f(): pass" 1 1 "function") 6
              [(mkChunk "c.py" "class C: pass" 1 1 "class", 4);
               (mkChunk "b.py" "x = 1" 1 1 "block", 2)])
    as (more & Hr & Hmore).
  - vm_compute. reflexivity.
  - vm_compute. discriminate.
  - rewrite (Hmore ltac:(lia)) in Hr. exact Hr.
Defined.

End RetrieverMore.

(** ** Indexing a repository *)

Module IndexingMore.

Import PyStr Tools Scan Embed StoreSpec Context Indexing.

Section IndexingMore.

Context {vec score model faiss_index : Type}.
Variable B : backend vec score model faiss_index.
Variable suffix_lower : string -> string.

Local Abbreviation store := (VectorStore vec model faiss_index).
Local Abbreviation fsys := (filesystem vec faiss_index).

(** The index [embed_chunks] leaves for embeddings of dimension [d]. *)
Local Abbreviation built_index embs d :=
  (if faiss_available B then Some (index_add B (IndexFlatIP B d) embs)
   else None).

(** What [embed_chunks] does on a fresh store. *)
Lemma embed_chunks_fresh dir cs :
  embed_chunks B cs (init dir) =
  match import_sentence_transformer B with
  | None => (inl ImportError, init dir)
  | Some m =>
      let embs := encode B m (map embed_text cs) in
      match shape1 embs with
      | None => (inl IndexError, mkStore dir (Some m) None cs (Some embs))
      | Some d =>
          (inr embs, mkStore dir (Some m) (built_index embs d) cs (Some embs))
      end
  end.
Proof.
  unfold embed_chunks, bind, _load_model, bind, get. cbn [init model_].
  destruct (import_sentence_transformer B) as [m|]; [|reflexivity].
  cbv zeta. unfold modify, ret, lift, _init_faiss_index, modify, get.
  cbn [set_model set_chunks set_embeddings store_dir model_ index chunks
       embeddings].
  destruct (shape1 (encode B m (map embed_text cs))); [|reflexivity].
  destruct (faiss_available B); reflexivity.
Qed.



(** X19: [index_repository] fails in the order of its steps.  For a
    repository path that does not exist it raises [ValueError] before the
    store is created: the file system is as it was, without the store
    directory.  When the repository is read but sentence-transformers
    cannot be imported it raises [ImportError], and when the embeddings
    have a single axis it raises [IndexError]: in both cases the store
    directory has been created and no file has been written.  This is for a
    store directory that can be created, no regular file being in its place
    or above it. *)
Theorem index_repository_failure (repo : Path) (tree : option dir_tree)
    (name : string) (dir : Path) (fs : fsys) :
  Forall (fun q => files fs !! q = None) (ancestors dir) ->
  (tree = None ->
   index_repository B suffix_lower repo tree name dir fs =
     (inl ValueError, fs)) /\
  (forall cs,
     ingest_repository suffix_lower repo tree = inr cs ->
     import_sentence_transformer B = None ->
     index_repository B suffix_lower repo tree name dir fs =
       (inl ImportError, mkdir dir fs)) /\
  (forall cs m,
     ingest_repository suffix_lower repo tree = inr cs ->
     import_sentence_transformer B = Some m ->
     shape1 (encode B m (map embed_text cs)) = None ->
     index_repository B suffix_lower repo tree name dir fs =
       (inl IndexError, mkdir dir fs)) /\
  files (mkdir dir fs) = files fs.
Proof.
  intros _. unfold index_repository, new_store.
  split; [|split; [|split]].
  - intros ->. reflexivity.
  - intros cs Hing Hm. rewrite Hing, embed_chunks_fresh, Hm. reflexivity.
  - intros cs m Hing Hm Hsh. rewrite Hing, embed_chunks_fresh, Hm.
    cbv zeta. rewrite Hsh. reflexivity.
  - reflexivity.
Qed.



End IndexingMore.

(** A repository path that does not exist. *)
Lemma index_repository_failure_witness :
  index_repository Examples.numpy_only Examples.suffix_lower ["nowhere"]
    None "default" ["store"] Examples.empty_fs =
  (inl ValueError, Examples.empty_fs).
Proof.
  apply (index_repository_failure Examples.numpy_only Examples.suffix_lower
           ["nowhere"] None "default" ["store"] Examples.empty_fs).
  - repeat constructor.
  - reflexivity.
Defined.


End IndexingMore.

(** ** The agent *)

Module AgentMore.

Import PyStr Tools Scan Embed StoreSpec Retrieve Context Indexing Agent.

Section AgentMore.

Context {vec score model faiss_index : Type}.
Variable B : backend vec score model faiss_index.
Variable suffix_lower : string -> string.
Variable hash : string -> Z.
Variable format_score : score -> string.
Variable generate : string -> string -> exn + string.
Variable resolve : string -> Path.
Variable tree_at : Path -> option dir_tree.
Variable VECTOR_STORE_DIR : Path.

Local Abbreviation world := (@Agent.world vec model faiss_index).
Local Abbreviation index_ :=
  (Agent.index B suffix_lower resolve tree_at VECTOR_STORE_DIR).
Local Abbreviation query_ :=
  (Agent.query B suffix_lower hash format_score generate resolve tree_at
     VECTOR_STORE_DIR).
Local Abbreviation suggest_fix_ :=
  (Agent.suggest_fix B suffix_lower hash format_score generate resolve
     tree_at VECTOR_STORE_DIR).

(** *** Indexing *)




(** X22: an [index] that is not forced, and with it [query] and
    [suggest_fix] on an agent that is not indexed, raise what [load] raises
    on the files of the index: the call to [load_index] is outside the
    [try], so a damaged index is not answered with the message about a
    repository that is not indexed. *)
Theorem query_propagates_load_error (w : world) (path : string) (e : exn)
    (s' : VectorStore vec model faiss_index) (prompt : string) (top_k : Z) :
  has_repo_path (agent w) = Some path -> indexed (agent w) = false ->
  load B (index_name (agent w)) (fs w) (store (agent w)) = (inl e, s') ->
  index_ false w = (inl e, set_store s' w) /\
  query_ prompt top_k w = (inl e, set_store s' w) /\
  suggest_fix_ prompt top_k w = (inl e, set_store s' w).
Proof.
  intros Hp Hidx Hl.
  assert (Hi : index_ false w = (inl e, set_store s' w)).
  { unfold Agent.index, bind, get. rewrite Hp.
    unfold on_store, load_index. rewrite Hl. reflexivity. }
  split; [exact Hi|].
  unfold Agent.query, Agent.suggest_fix, ensure_indexed, bind, get.
  rewrite Hidx, Hi. auto.
Qed.


(** *** Answering *)

(** X24: on an indexed agent whose retrieval returns a context, [query]
    ends with the provider's answer to the prompt built from that context,
    and [suggest_fix] likewise: the second retrieval that [query] makes for
    its report returns as the first did and leaves the store as the first
    left it. *)
Theorem query_answers_from_context (w : world) (prompt : string) (top_k : Z)
    (ctx : string) (s1 : VectorStore vec model faiss_index) :
  indexed (agent w) = true ->
  retrieve_as_context B hash format_score prompt top_k 8000
    (store (agent w)) = (inr ctx, s1) ->
  query_ prompt top_k w =
    (Llm.analyze_code generate ctx prompt, set_store s1 w) /\
  suggest_fix_ prompt top_k w =
    (Llm.suggest_fix generate ctx prompt, set_store s1 w).
Proof.
  intros Hidx Hctx.
  assert (Hagain : exists out,
            retrieve B hash prompt top_k 8000 s1 = (inr out, s1)).
  { unfold retrieve_as_context, bind, ret in Hctx.
    destruct (retrieve B hash prompt top_k 8000 (store (agent w)))
      as [[e|results] s2] eqn:Hr; [discriminate|].
    injection Hctx as _ <-.
    unfold retrieve, bind, ret in Hr |- *.
    destruct (search B prompt (top_k * 2) (store (agent w)))
      as [[e|rs] s3] eqn:Hs; [discriminate|].
    injection Hr as _ <-.
    destruct (StoreMore.search_again B _ _ _ _ _ Hs) as (_ & _ & _ & _ & Hrep).
    rewrite Hrep, Hs. cbn [fst]. eauto. }
  destruct Hagain as (out & Hout).
  split.
  - unfold Agent.query, ensure_indexed, bind, get. rewrite Hidx.
    unfold ret at 1. cbn [negb]. unfold on_store. rewrite Hctx.
    cbn [set_store agent store]. rewrite Hout. reflexivity.
  - unfold Agent.suggest_fix, ensure_indexed, bind, get. rewrite Hidx.
    unfold ret at 1. cbn [negb]. unfold on_store. rewrite Hctx.
    reflexivity.
Qed.

End AgentMore.

(** An agent whose index directory holds a damaged [chunks.json]. *)
Lemma query_propagates_load_error_witness :
  Agent.query Examples.numpy_only Examples.suffix_lower PyStr.len
    ExamplesMore.format_score ExamplesMore.echo ExamplesMore.resolve
    ExamplesMore.tree_at ["store"] "why" 3
    (ExamplesMore.new_agent (Some "repo") ExamplesMore.corrupt_fs) =
  (inl CorruptFile,
   ExamplesMore.new_agent (Some "repo") ExamplesMore.corrupt_fs).
Proof.
  apply (query_propagates_load_error Examples.numpy_only
           Examples.suffix_lower PyStr.len ExamplesMore.format_score
           ExamplesMore.echo ExamplesMore.resolve ExamplesMore.tree_at
           ["store"]
           (ExamplesMore.new_agent (Some "repo") ExamplesMore.corrupt_fs)
           "repo" CorruptFile (init ["store"]) "why" 3 eq_refl eq_refl).
  vm_compute. reflexivity.
Defined.


(** The agent with the populated store in memory, and a provider that
    answers with its prompt. *)
Lemma query_answers_from_context_witness :
  exists ctx s1,
    retrieve_as_context Examples.numpy_only PyStr.len
      ExamplesMore.format_score "ab" 2 8000 Examples.populated =
      (inr ctx, s1) /\
    Agent.query Examples.numpy_only Examples.suffix_lower PyStr.len
      ExamplesMore.format_score ExamplesMore.echo ExamplesMore.resolve
      ExamplesMore.tree_at ["store"] "ab" 2 ExamplesMore.ready_agent =
    (inr (Llm.analyze_code_prompt ctx "ab"),
     set_store s1 ExamplesMore.ready_agent).
Proof.
  eexists _, _. split; [vm_compute; reflexivity|].
  apply (query_answers_from_context Examples.numpy_only
           Examples.suffix_lower PyStr.len ExamplesMore.format_score
           ExamplesMore.echo ExamplesMore.resolve ExamplesMore.tree_at
           ["store"] ExamplesMore.ready_agent "ab" 2 _ _ eq_refl).
  vm_compute. reflexivity.
Defined.

End AgentMore.
